(** * Triangle meshes, terrain heightmaps, frustum culling and the camera

    A shallow embedding of the geometry core of the viewer
    (trianglemesh.h / trianglemesh.cpp, utilities.h, openglview.cpp)
    together with the properties its specification states about it.

    Conventions of the embedding.

    - [float] and [double] values are modelled by one type, [float]: the
      IEEE-754 special values (NaN, the two infinities) with the usual
      rules for them, and exact real arithmetic on finite values.  Rounding,
      overflow to infinity and the sign of zero are outside the model.
    - [int] and [unsigned int] are integers of [Z] with the 32-bit
      wrap-around written out ([to_int32], [to_uint32]); [size_t] wraps at
      64 bits.
    - [std::vector] is [list]; an access outside the vector is undefined
      behaviour and is reported as [Undefined].
    - Effects are explicit: the OpenGL object names that are alive, the
      diagnostics that were logged, the input stream with its state bits,
      and the sequence of values [std::rand] returns. *)

From Stdlib Require Import Reals Lra Lia ZArith List String Ascii Bool.
Import ListNotations.

(** ** Outcomes of operations that can fail *)

Inductive cxx_exception : Type :=
| std_length_error.   (* thrown by std::vector's constructor *)

Inductive outcome (A : Type) : Type :=
| Ret (a : A)                 (* normal return *)
| Throw (e : cxx_exception)   (* a C++ exception leaves the function *)
| Undefined                   (* undefined behaviour was reached *)
| OutOfFuel.                  (* the loop did not finish within the fuel *)

Arguments Ret {A} a.
Arguments Throw {A} e.
Arguments Undefined {A}.
Arguments OutOfFuel {A}.

Definition bind {A B : Type} (o : outcome A) (k : A -> outcome B) : outcome B :=
  match o with
  | Ret a => k a
  | Throw e => Throw e
  | Undefined => Undefined
  | OutOfFuel => OutOfFuel
  end.

Notation "x <- c1 ;; c2" := (bind c1 (fun x => c2))
  (at level 61, c1 at next level, right associativity).

(** ** Machine integers *)

Module Int.

Local Open Scope Z_scope.

(** [(unsigned int) z] *)
Definition to_uint32 (z : Z) : Z := z mod 2 ^ 32.

(** [(int) z], two's complement *)
Definition to_int32 (z : Z) : Z := (z + 2 ^ 31) mod 2 ^ 32 - 2 ^ 31.

(** [(size_t) z] *)
Definition to_size_t (z : Z) : Z := z mod 2 ^ 64.

Definition INT_MAX : Z := 2 ^ 31 - 1.
Definition INT_MIN : Z := - 2 ^ 31.

End Int.

(** ** Floating-point values *)

Module Float.

Local Open Scope R_scope.

Inductive float : Type :=
| NaN
| Inf (neg : bool)     (* [Inf false] is +infinity, [Inf true] is -infinity *)
| Fin (x : R).

Definition Rltb (x y : R) : bool := if Rlt_dec x y then true else false.
Definition Reqb (x y : R) : bool := if Req_dec_T x y then true else false.

Definition of_Z (z : Z) : float := Fin (IZR z).

Definition zero : float := Fin 0.

Definition fopp (a : float) : float :=
  match a with
  | NaN => NaN
  | Inf s => Inf (negb s)
  | Fin x => Fin (- x)
  end.

Definition fadd (a b : float) : float :=
  match a, b with
  | NaN, _ | _, NaN => NaN
  | Inf s, Inf t => if Bool.eqb s t then Inf s else NaN
  | Inf s, Fin _ => Inf s
  | Fin _, Inf t => Inf t
  | Fin x, Fin y => Fin (x + y)
  end.

Definition fsub (a b : float) : float := fadd a (fopp b).

Definition fmul (a b : float) : float :=
  match a, b with
  | NaN, _ | _, NaN => NaN
  | Inf s, Inf t => Inf (xorb s t)
  | Inf s, Fin y => if Reqb y 0 then NaN else Inf (xorb s (Rltb y 0))
  | Fin x, Inf t => if Reqb x 0 then NaN else Inf (xorb (Rltb x 0) t)
  | Fin x, Fin y => Fin (x * y)
  end.

(** Division; a zero divisor is taken to be +0. *)
Definition fdiv (a b : float) : float :=
  match a, b with
  | NaN, _ | _, NaN => NaN
  | Inf _, Inf _ => NaN
  | Inf s, Fin y => Inf (xorb s (Rltb y 0))
  | Fin _, Inf _ => Fin 0
  | Fin x, Fin y =>
      if Reqb y 0 then (if Reqb x 0 then NaN else Inf (Rltb x 0))
      else Fin (x / y)
  end.

Definition fsqrt (a : float) : float :=
  match a with
  | NaN => NaN
  | Inf false => Inf false
  | Inf true => NaN
  | Fin x => if Rltb x 0 then NaN else Fin (sqrt x)
  end.

(** [std::abs(a)] *)
Definition fabs (a : float) : float :=
  match a with
  | NaN => NaN
  | Inf _ => Inf false
  | Fin x => Fin (Rabs x)
  end.

(** [a < b]; false as soon as one side is NaN. *)
Definition flt (a b : float) : bool :=
  match a, b with
  | NaN, _ | _, NaN => false
  | Inf s, Inf t => s && negb t
  | Inf s, Fin _ => s
  | Fin _, Inf t => negb t
  | Fin x, Fin y => Rltb x y
  end.

(** [a == b]; false as soon as one side is NaN. *)
Definition feq (a b : float) : bool :=
  match a, b with
  | Inf s, Inf t => Bool.eqb s t
  | Fin x, Fin y => Reqb x y
  | _, _ => false
  end.

(** [a > b] is [b < a]. *)
Definition fgt (a b : float) : bool := flt b a.

(** [a <= b]; false as soon as one side is NaN. *)
Definition fle (a b : float) : bool :=
  match a, b with
  | NaN, _ | _, NaN => false
  | Inf s, Inf t => s || negb t
  | Inf s, Fin _ => s
  | Fin _, Inf t => negb t
  | Fin x, Fin y => negb (Rltb y x)
  end.

(** [std::min(a, b)] is [(b < a) ? b : a]; [std::max(a, b)] is
    [(a < b) ? b : a]. *)
Definition std_min (a b : float) : float := if flt b a then b else a.
Definition std_max (a b : float) : float := if flt a b then b else a.

Definition fsin (a : float) : float :=
  match a with Fin x => Fin (sin x) | _ => NaN end.

Definition fcos (a : float) : float :=
  match a with Fin x => Fin (cos x) | _ => NaN end.

Definition fasin (a : float) : float :=
  match a with
  | Fin x => if Rltb 1 (Rabs x) then NaN else Fin (asin x)
  | _ => NaN
  end.

(** [atan2(y, x)] on finite arguments. *)
Definition Ratan2 (y x : R) : R :=
  if Rltb 0 x then atan (y / x)
  else if Rltb x 0 then
         (if Rltb y 0 then atan (y / x) - PI else atan (y / x) + PI)
  else if Rltb 0 y then PI / 2
  else if Rltb y 0 then - (PI / 2)
  else 0.

Definition fatan2 (a b : float) : float :=
  match a, b with
  | NaN, _ | _, NaN => NaN
  | Fin y, Fin x => Fin (Ratan2 y x)
  | Fin y, Inf false => Fin 0
  | Fin y, Inf true => Fin (if Rltb y 0 then - PI else PI)
  | Inf s, Fin _ => Fin (if s then - (PI / 2) else PI / 2)
  | Inf s, Inf false => Fin (if s then - (PI / 4) else PI / 4)
  | Inf s, Inf true => Fin (if s then - (3 * PI / 4) else 3 * PI / 4)
  end.

(** Rounding toward zero, and [fmod]. *)
Definition Rtrunc (x : R) : R :=
  if Rltb x 0 then - IZR (Int_part (- x)) else IZR (Int_part x).

Definition ffmod (a b : float) : float :=
  match a, b with
  | NaN, _ | _, NaN => NaN
  | Inf _, _ => NaN
  | Fin x, Inf _ => Fin x
  | Fin x, Fin y => if Reqb y 0 then NaN else Fin (x - y * Rtrunc (x / y))
  end.

Definition M_PI : float := Fin PI.
Definition M_1_PI : float := Fin (/ PI).

(** [FLT_MAX] is (2^24 - 1) * 2^104. *)
Definition FLT_MAX : float := Fin (IZR (16777215 * 2 ^ 104)).

End Float.

Export Float.

(** ** Vectors and matrices *)

Module Vec3.

(** Modelled from the spec: vec3.h is not among the sources.  [Vec3f] is a
    triple of floats with component-wise sum and difference, scaling, the
    cross product and normalisation by the Euclidean length; a
    value-initialised [Vec3f] is the zero vector ("initialize all normals
    to zero"). *)
Record Vec3f : Type := mkVec3f { x : float; y : float; z : float }.

(** Modelled from the spec: vec3.h is not among the sources.  [Vec3ui]
    holds the three vertex indices of a triangle. *)
Record Vec3ui : Type := mkVec3ui { i0 : Z; i1 : Z; i2 : Z }.

(** Modelled from the spec: vec3.h is not among the sources.  The zero
    vector, which is also the value-initialised [Vec3f()]. *)
Definition zero : Vec3f := mkVec3f Float.zero Float.zero Float.zero.

(** Modelled from the spec: vec3.h is not among the sources.  [u + v]. *)
Definition add (u v : Vec3f) : Vec3f :=
  mkVec3f (fadd (x u) (x v)) (fadd (y u) (y v)) (fadd (z u) (z v)).

(** Modelled from the spec: vec3.h is not among the sources.  [u - v]. *)
Definition sub (u v : Vec3f) : Vec3f :=
  mkVec3f (fsub (x u) (x v)) (fsub (y u) (y v)) (fsub (z u) (z v)).

(** Modelled from the spec: vec3.h is not among the sources.  [a * v]. *)
Definition scale (a : float) (v : Vec3f) : Vec3f :=
  mkVec3f (fmul a (x v)) (fmul a (y v)) (fmul a (z v)).

(** Modelled from the spec: vec3.h is not among the sources.  The cross
    product [cross(u, v)]. *)
Definition cross (u v : Vec3f) : Vec3f :=
  mkVec3f (fsub (fmul (y u) (z v)) (fmul (z u) (y v)))
          (fsub (fmul (z u) (x v)) (fmul (x u) (z v)))
          (fsub (fmul (x u) (y v)) (fmul (y u) (x v))).

(** Modelled from the spec: vec3.h is not among the sources.  The Euclidean
    length. *)
Definition length (v : Vec3f) : float :=
  fsqrt (fadd (fadd (fmul (x v) (x v)) (fmul (y v) (y v))) (fmul (z v) (z v))).

(** Modelled from the spec: vec3.h is not among the sources.
    [v.normalize()] divides the components by the length. *)
Definition normalize (v : Vec3f) : Vec3f :=
  let l := length v in
  mkVec3f (fdiv (x v) l) (fdiv (y v) l) (fdiv (z v) l).

End Vec3.

Import Vec3.

Module Qt.

(** [QVector3D]: three floats. *)
Record QVector3D : Type := mkQVector3D { qx : float; qy : float; qz : float }.

Definition dotProduct (u v : QVector3D) : float :=
  fadd (fadd (fmul (qx u) (qx v)) (fmul (qy u) (qy v))) (fmul (qz u) (qz v)).

(** [v /= divisor] *)
Definition qdiv (v : QVector3D) (divisor : float) : QVector3D :=
  mkQVector3D (fdiv (qx v) divisor) (fdiv (qy v) divisor) (fdiv (qz v) divisor).

(** [QMatrix4x4]: [m r c] is the entry in row [r] and column [c]. *)
Definition QMatrix4x4 : Type := nat -> nat -> float.

(** [operator*]: each entry is the sum, from left to right, of the four
    products of a row of [a] with a column of [b]. *)
Definition mmul (a b : QMatrix4x4) : QMatrix4x4 :=
  fun r c =>
    fadd (fadd (fadd (fmul (a r 0%nat) (b 0%nat c)) (fmul (a r 1%nat) (b 1%nat c)))
               (fmul (a r 2%nat) (b 2%nat c)))
         (fmul (a r 3%nat) (b 3%nat c)).

(** [data()]: the sixteen entries in column-major order,
<<
    m[0] m[4] m[ 8] m[12]
    m[1] m[5] m[ 9] m[13]
    m[2] m[6] m[10] m[14]
    m[3] m[7] m[11] m[15]
>> *)
Definition data (a : QMatrix4x4) (i : nat) : float :=
  a (Nat.modulo i 4) (Nat.div i 4).

Definition of_rows (rows : list (list float)) : QMatrix4x4 :=
  fun r c => nth c (nth r rows []) Float.zero.

Definition identity : QMatrix4x4 :=
  fun r c => if Nat.eqb r c then Fin 1 else Fin 0.

(** [QVector3D::crossProduct(u, v)] *)
Definition crossProduct (u v : QVector3D) : QVector3D :=
  mkQVector3D (fsub (fmul (qy u) (qz v)) (fmul (qz u) (qy v)))
              (fsub (fmul (qz u) (qx v)) (fmul (qx u) (qz v)))
              (fsub (fmul (qx u) (qy v)) (fmul (qy u) (qx v))).

(** [factor * v] *)
Definition qmul (factor : float) (v : QVector3D) : QVector3D :=
  mkQVector3D (fmul factor (qx v)) (fmul factor (qy v)) (fmul factor (qz v)).

(** [u += v] *)
Definition qadd (u v : QVector3D) : QVector3D :=
  mkQVector3D (fadd (qx u) (qx v)) (fadd (qy u) (qy v)) (fadd (qz u) (qz v)).

(** [v.length()] *)
Definition qlength (v : QVector3D) : float :=
  fsqrt (fadd (fadd (fmul (qx v) (qx v)) (fmul (qy v) (qy v))) (fmul (qz v) (qz v))).

(** [qFuzzyIsNull(float f)] is [qAbs(f) <= 0.00001f]. *)
Definition qFuzzyIsNull (a : float) : bool := fle (fabs a) (Fin (1 / 100000)).

(** [v.normalized()]: the vector itself when its length is 1 as far as
    [qFuzzyIsNull] tells, the null vector when its length is 0 as far as
    [qFuzzyIsNull] tells, and otherwise the vector divided by its length. *)
Definition QVector3D_normalized (v : QVector3D) : QVector3D :=
  let len := qlength v in
  if qFuzzyIsNull (fsub len (Fin 1)) then v
  else if qFuzzyIsNull len then mkQVector3D (Fin 0) (Fin 0) (Fin 0)
  else qdiv v len.

End Qt.

Import Qt.

(** ** utilities.h: the move-only handle wrapper *)

Section AutoMoved.

Variable T : Type.
(** the value-initialised [T()] *)
Variable T_default : T.

Record autoMoved : Type := mkAutoMoved { val : T }.

(** [autoMoved() : val() {}] *)
Definition autoMoved_default : autoMoved := mkAutoMoved T_default.

(** [autoMoved(autoMoved&& other) : val(other.val) { other.val = T(); }];
    the result is the new object and [other] after the call. *)
Definition autoMoved_move_construct (other : autoMoved) : autoMoved * autoMoved :=
  (mkAutoMoved (val other), mkAutoMoved T_default).

(** [operator=(autoMoved&& other) { swap(other.val, val); }]; the result is
    [*this] and [other] after the call. *)
Definition autoMoved_move_assign (this other : autoMoved) : autoMoved * autoMoved :=
  (mkAutoMoved (val other), mkAutoMoved (val this)).

End AutoMoved.

Arguments mkAutoMoved {T} val.
Arguments val {T} a.
Arguments autoMoved_move_construct {T} T_default other.
Arguments autoMoved_move_assign {T} this other.

(** The four ways to obtain a mesh from another one, and how a class
    declares each of them. *)
Inductive special_member : Type :=
| copy_constructor | copy_assignment | move_constructor | move_assignment.

Inductive declared_as : Type :=
| deleted       (* [= delete]: every use is a compile-time error *)
| defaulted.    (* [= default]: member-wise *)

(** ** OpenGL objects *)

Definition GLuint : Type := Z.

Module GL.

(** The object names the context holds. *)
Record context : Type := mkContext {
  buffers : list GLuint;
  vertex_arrays : list GLuint;
  (* whether glBufferData stores the size it was asked for, as
     GL_BUFFER_SIZE reports afterwards *)
  uploads_land : bool
}.

Definition glDeleteBuffers (id : GLuint) (c : context) : context :=
  mkContext (remove Z.eq_dec id (buffers c)) (vertex_arrays c) (uploads_land c).

Definition glDeleteVertexArrays (id : GLuint) (c : context) : context :=
  mkContext (buffers c) (remove Z.eq_dec id (vertex_arrays c)) (uploads_land c).

(** a name that is not in use; 0 is reserved *)
Definition unused (l : list GLuint) : GLuint := (1 + fold_right Z.max 0 l)%Z.

Definition glGenBuffers (c : context) : GLuint * context :=
  let id := unused (buffers c) in
  (id, mkContext (id :: buffers c) (vertex_arrays c) (uploads_land c)).

Definition glGenVertexArrays (c : context) : GLuint * context :=
  let id := unused (vertex_arrays c) in
  (id, mkContext (buffers c) (id :: vertex_arrays c) (uploads_land c)).

End GL.

(** ** Input streams

    [std::ifstream] and [std::stringstream] as far as loadOBJ uses them: the
    characters that are left, and the two state bits the code can observe.
    Every input function first checks that the stream is good and sets
    failbit when it is not. *)

Module IStream.

Record istream : Type := mkIStream {
  rest : list ascii;
  failbit : bool;
  eofbit : bool
}.

Definition open (content : string) : istream :=
  mkIStream (list_ascii_of_string content) false false.

Definition good (s : istream) : bool := negb (failbit s) && negb (eofbit s).
Definition eof (s : istream) : bool := eofbit s.
(** the conversion to bool, [!fail()] *)
Definition ok (s : istream) : bool := negb (failbit s).

Definition set_fail (s : istream) : istream := mkIStream (rest s) true (eofbit s).

(** the stream after an extraction that left [l] and did not fail; eofbit
    is set when the extraction ran into the end *)
Definition advanced (l : list ascii) (hit_end : bool) : istream :=
  mkIStream l false hit_end.

Definition at_end (l : list ascii) : bool :=
  match l with [] => true | _ => false end.

Definition isspace (c : ascii) : bool :=
  let k := nat_of_ascii c in
  Nat.eqb k 32 || (Nat.leb 9 k && Nat.leb k 13).

Definition isdigit (c : ascii) : bool :=
  let k := nat_of_ascii c in Nat.leb 48 k && Nat.leb k 57.

Definition digit_value (c : ascii) : Z := Z.of_nat (nat_of_ascii c) - 48.

Definition is_char (k : nat) (c : ascii) : bool := Nat.eqb (nat_of_ascii c) k.

Definition newline : nat := 10.

Fixpoint skipws (l : list ascii) : list ascii :=
  match l with
  | c :: l' => if isspace c then skipws l' else l
  | [] => []
  end.

(** The sentry of a formatted input function: checks the state, then
    skips white space; running into the end sets eofbit and failbit. *)
Definition sentry (s : istream) : bool * istream :=
  if good s then
    match skipws (rest s) with
    | [] => (false, mkIStream [] true true)
    | l => (true, mkIStream l false false)
    end
  else (false, set_fail s).

Fixpoint take_while (p : ascii -> bool) (l : list ascii) : list ascii * list ascii :=
  match l with
  | c :: l' =>
      if p c then let (w, r) := take_while p l' in (c :: w, r) else ([], l)
  | [] => ([], [])
  end.

(** [in >> s] into an empty [std::string] *)
Definition read_string (s : istream) : string * istream :=
  let (ready, s1) := sentry s in
  if ready then
    let (w, r) := take_while (fun c => negb (isspace c)) (rest s1) in
    (string_of_list_ascii w, advanced r (at_end r))
  else (EmptyString, s1).

(** the value of a run of decimal digits *)
Definition digits_value (ds : list ascii) : Z :=
  fold_left (fun acc c => (10 * acc + digit_value c)%Z) ds 0%Z.

(** an optional sign: whether it is a minus, and what follows *)
Definition take_sign (l : list ascii) : bool * list ascii :=
  match l with
  | c :: l' =>
      if is_char 45 c then (true, l')
      else if is_char 43 c then (false, l')
      else (false, l)
  | [] => (false, [])
  end.

(** [in >> num] for an [int]: an optional sign and decimal digits.  Without
    a digit the extraction fails and stores 0; a value outside the range of
    [int] fails and stores the nearest bound. *)
Definition read_int (s : istream) : Z * istream :=
  let (ready, s1) := sentry s in
  if ready then
    let (neg, l1) := take_sign (rest s1) in
    let (ds, r) := take_while isdigit l1 in
    match ds with
    | [] => (0%Z, mkIStream r true (at_end r))
    | _ =>
        let m := digits_value ds in
        let z := if neg then (- m)%Z else m in
        if (z <? Int.INT_MIN)%Z then (Int.INT_MIN, mkIStream r true (at_end r))
        else if (Int.INT_MAX <? z)%Z then (Int.INT_MAX, mkIStream r true (at_end r))
        else (z, advanced r (at_end r))
    end
  else (0%Z, s1).

(** an optional exponent part: [e] or [E], an optional sign, digits; the
    exponent is missing when no digit follows *)
Definition take_exponent (l : list ascii) : option Z * list ascii :=
  match l with
  | c :: l' =>
      if is_char 101 c || is_char 69 c then
        let (neg, l1) := take_sign l' in
        let (ds, r) := take_while isdigit l1 in
        match ds with
        | [] => (None, r)
        | _ => (Some (if neg then (- digits_value ds)%Z else digits_value ds), r)
        end
      else (Some 0%Z, l)
  | [] => (Some 0%Z, [])
  end.

(** [in >> x] for a [float]: a decimal literal, that is an optional sign,
    digits with an optional fraction, and an optional exponent.  A text
    that is no such literal fails and stores 0.  When the sentry fails
    nothing is stored ([None]): [x] keeps the value it had. *)
Definition read_float (s : istream) : option float * istream :=
  let (ready, s1) := sentry s in
  if ready then
    let (neg, l1) := take_sign (rest s1) in
    let (ip, l2) := take_while isdigit l1 in
    let (fp, l3) :=
      match l2 with
      | c :: l' => if is_char 46 c then take_while isdigit l' else ([], l2)
      | [] => ([], [])
      end in
    match ip ++ fp with
    | [] => (Some Float.zero, mkIStream l3 true (at_end l3))
    | ds =>
        match take_exponent l3 with
        | (None, r) => (Some Float.zero, mkIStream r true (at_end r))
        | (Some e, r) =>
            let m := digits_value ds in
            let x := (IZR (if neg then (- m)%Z else m)
                      * powerRZ 10 (e - Z.of_nat (List.length fp)))%R in
            (Some (Fin x), advanced r (at_end r))
        end
    end
  else (None, s1).

(** the characters up to the first newline, what follows it, and whether
    a newline was found *)
Fixpoint split_line (l : list ascii) : list ascii * list ascii * bool :=
  match l with
  | c :: l' =>
      if is_char newline c then ([], l', true)
      else let '(w, r, found) := split_line l' in (c :: w, r, found)
  | [] => ([], [], false)
  end.

(** [in.ignore(std::numeric_limits<std::streamsize>::max(), '\n')] *)
Definition ignore_line (s : istream) : istream :=
  if good s then
    let '(_, r, found) := split_line (rest s) in
    advanced r (negb found)
  else set_fail s.

(** [getline(in, line)] into an empty [std::string]; extracting nothing at
    all sets failbit *)
Definition getline (s : istream) : string * istream :=
  if good s then
    let '(w, r, found) := split_line (rest s) in
    (string_of_list_ascii w,
     mkIStream r (negb found && at_end w) (negb found))
  else (EmptyString, set_fail s).

End IStream.

(** ** trianglemesh.h: the mesh *)

Module Mesh.

Local Open Scope Z_scope.

Inductive ColoringType : Type :=
| STATIC_COLOR | COLOR_ARRAY | TEXTURE | BUMP_MAPPING.

Definition Triangle : Type := Vec3ui.
Definition Vertex : Type := Vec3f.
Definition Normal : Type := Vec3f.
Definition Color : Type := Vec3f.
Record TexCoord : Type := mkTexCoord { u : float; v : float }.
Definition Tangent : Type := Vec3f.

(** clip planes ax+by+cz-d=0 *)
Record Plane : Type := mkPlane {
  n : QVector3D;   (* normal (a,b,c) *)
  d : float        (* distance *)
}.

Record TriangleMesh : Type := mkTriangleMesh {
  (* data of TriangleMesh *)
  vertices : list Vertex;
  normals : list Normal;
  triangles : list Triangle;
  colors : list Color;
  texCoords : list TexCoord;
  tangents : list Tangent;
  staticColor : Vec3f;
  coloringType : ColoringType;
  (* VAO and VBO ids for vertices, normals, faces, colors, texCoords, tangents *)
  VAO : autoMoved GLuint;
  VBOv : autoMoved GLuint;
  VBOn : autoMoved GLuint;
  VBOf : autoMoved GLuint;
  VBOc : autoMoved GLuint;
  VBOt : autoMoved GLuint;
  VBOtan : autoMoved GLuint;
  (* VBO for bounding box *)
  VAObb : autoMoved GLuint;
  VBOvbb : autoMoved GLuint;
  VBOfbb : autoMoved GLuint;
  (* VBO for normal lines *)
  VAOn : autoMoved GLuint;
  VBOvn : autoMoved GLuint;
  (* texture *)
  textureID : autoMoved GLuint;
  normalMapID : autoMoved GLuint;
  displacementMapID : autoMoved GLuint;
  (* draw mode data *)
  withBB : bool;
  withNormals : bool;
  (* bump mapping data *)
  enableDiffuseTexture : bool;
  enableNormalMapping : bool;
  enableDisplacementMapping : bool;
  (* bounding box data *)
  boundingBoxMin : Vec3f;
  boundingBoxMax : Vec3f;
  boundingBoxMid : Vec3f;
  boundingBoxSize : Vec3f;
  (* [f]: true when the pointer to the OpenGL functions is not null *)
  f : bool
}.

(** The fifteen handle slots of a mesh, in declaration order. *)
Definition handles (m : TriangleMesh) : list GLuint :=
  [ val (VAO m); val (VBOv m); val (VBOn m); val (VBOf m); val (VBOc m);
    val (VBOt m); val (VBOtan m);
    val (VAObb m); val (VBOvbb m); val (VBOfbb m);
    val (VAOn m); val (VBOvn m);
    val (textureID m); val (normalMapID m); val (displacementMapID m) ].

(** Assignments to single members. *)
Definition set_vertices (a : list Vertex) (m : TriangleMesh) : TriangleMesh :=
  let '(mkTriangleMesh _ a2 a3 a4 a5 a6 a7 a8 b1 b2 b3 b4 b5 b6 b7 b8 b9 b10 b11 b12
          c1 c2 c3 d1 d2 d3 d4 d5 e1 e2 e3 e4 g) := m in
  mkTriangleMesh a a2 a3 a4 a5 a6 a7 a8 b1 b2 b3 b4 b5 b6 b7 b8 b9 b10 b11 b12
          c1 c2 c3 d1 d2 d3 d4 d5 e1 e2 e3 e4 g.

Definition set_normals (a : list Normal) (m : TriangleMesh) : TriangleMesh :=
  let '(mkTriangleMesh a1 _ a3 a4 a5 a6 a7 a8 b1 b2 b3 b4 b5 b6 b7 b8 b9 b10 b11 b12
          c1 c2 c3 d1 d2 d3 d4 d5 e1 e2 e3 e4 g) := m in
  mkTriangleMesh a1 a a3 a4 a5 a6 a7 a8 b1 b2 b3 b4 b5 b6 b7 b8 b9 b10 b11 b12
          c1 c2 c3 d1 d2 d3 d4 d5 e1 e2 e3 e4 g.

Definition set_triangles (a : list Triangle) (m : TriangleMesh) : TriangleMesh :=
  let '(mkTriangleMesh a1 a2 _ a4 a5 a6 a7 a8 b1 b2 b3 b4 b5 b6 b7 b8 b9 b10 b11 b12
          c1 c2 c3 d1 d2 d3 d4 d5 e1 e2 e3 e4 g) := m in
  mkTriangleMesh a1 a2 a a4 a5 a6 a7 a8 b1 b2 b3 b4 b5 b6 b7 b8 b9 b10 b11 b12
          c1 c2 c3 d1 d2 d3 d4 d5 e1 e2 e3 e4 g.

Definition set_colors (a : list Color) (m : TriangleMesh) : TriangleMesh :=
  let '(mkTriangleMesh a1 a2 a3 _ a5 a6 a7 a8 b1 b2 b3 b4 b5 b6 b7 b8 b9 b10 b11 b12
          c1 c2 c3 d1 d2 d3 d4 d5 e1 e2 e3 e4 g) := m in
  mkTriangleMesh a1 a2 a3 a a5 a6 a7 a8 b1 b2 b3 b4 b5 b6 b7 b8 b9 b10 b11 b12
          c1 c2 c3 d1 d2 d3 d4 d5 e1 e2 e3 e4 g.

Definition set_texCoords (a : list TexCoord) (m : TriangleMesh) : TriangleMesh :=
  let '(mkTriangleMesh a1 a2 a3 a4 _ a6 a7 a8 b1 b2 b3 b4 b5 b6 b7 b8 b9 b10 b11 b12
          c1 c2 c3 d1 d2 d3 d4 d5 e1 e2 e3 e4 g) := m in
  mkTriangleMesh a1 a2 a3 a4 a a6 a7 a8 b1 b2 b3 b4 b5 b6 b7 b8 b9 b10 b11 b12
          c1 c2 c3 d1 d2 d3 d4 d5 e1 e2 e3 e4 g.

Definition set_boundingBoxMin (a : Vec3f) (m : TriangleMesh) : TriangleMesh :=
  let '(mkTriangleMesh a1 a2 a3 a4 a5 a6 a7 a8 b1 b2 b3 b4 b5 b6 b7 b8 b9 b10 b11 b12
          c1 c2 c3 d1 d2 d3 d4 d5 _ e2 e3 e4 g) := m in
  mkTriangleMesh a1 a2 a3 a4 a5 a6 a7 a8 b1 b2 b3 b4 b5 b6 b7 b8 b9 b10 b11 b12
          c1 c2 c3 d1 d2 d3 d4 d5 a e2 e3 e4 g.

Definition set_boundingBoxMax (a : Vec3f) (m : TriangleMesh) : TriangleMesh :=
  let '(mkTriangleMesh a1 a2 a3 a4 a5 a6 a7 a8 b1 b2 b3 b4 b5 b6 b7 b8 b9 b10 b11 b12
          c1 c2 c3 d1 d2 d3 d4 d5 e1 _ e3 e4 g) := m in
  mkTriangleMesh a1 a2 a3 a4 a5 a6 a7 a8 b1 b2 b3 b4 b5 b6 b7 b8 b9 b10 b11 b12
          c1 c2 c3 d1 d2 d3 d4 d5 e1 a e3 e4 g.

Definition set_boundingBoxMid (a : Vec3f) (m : TriangleMesh) : TriangleMesh :=
  let '(mkTriangleMesh a1 a2 a3 a4 a5 a6 a7 a8 b1 b2 b3 b4 b5 b6 b7 b8 b9 b10 b11 b12
          c1 c2 c3 d1 d2 d3 d4 d5 e1 e2 _ e4 g) := m in
  mkTriangleMesh a1 a2 a3 a4 a5 a6 a7 a8 b1 b2 b3 b4 b5 b6 b7 b8 b9 b10 b11 b12
          c1 c2 c3 d1 d2 d3 d4 d5 e1 e2 a e4 g.

Definition set_boundingBoxSize (a : Vec3f) (m : TriangleMesh) : TriangleMesh :=
  let '(mkTriangleMesh a1 a2 a3 a4 a5 a6 a7 a8 b1 b2 b3 b4 b5 b6 b7 b8 b9 b10 b11 b12
          c1 c2 c3 d1 d2 d3 d4 d5 e1 e2 e3 _ g) := m in
  mkTriangleMesh a1 a2 a3 a4 a5 a6 a7 a8 b1 b2 b3 b4 b5 b6 b7 b8 b9 b10 b11 b12
          c1 c2 c3 d1 d2 d3 d4 d5 e1 e2 e3 a g.

(** *** cleanupVBO and clear *)

Definition delete_buffer (id : autoMoved GLuint) (c : GL.context) : GL.context :=
  if val id =? 0 then c else GL.glDeleteBuffers (val id) c.

Definition delete_vertex_array (id : autoMoved GLuint) (c : GL.context) : GL.context :=
  if val id =? 0 then c else GL.glDeleteVertexArrays (val id) c.

(** [cleanupVBO(QOpenGLFunctions_3_3_Core* f)]: releases the twelve buffer
    and vertex-array names that are not 0, then stores 0 in their slots.
    The three texture slots are not touched. *)
Definition cleanupVBO_with (m : TriangleMesh) (c : GL.context) : TriangleMesh * GL.context :=
  let c := delete_vertex_array (VAO m) c in
  let c := delete_buffer (VBOv m) c in
  let c := delete_buffer (VBOn m) c in
  let c := delete_buffer (VBOf m) c in
  let c := delete_buffer (VBOc m) c in
  let c := delete_buffer (VBOt m) c in
  let c := delete_buffer (VBOtan m) c in
  let c := delete_vertex_array (VAObb m) c in
  let c := delete_buffer (VBOvbb m) c in
  let c := delete_buffer (VBOfbb m) c in
  let c := delete_vertex_array (VAOn m) c in
  let c := delete_buffer (VBOvn m) c in
  let z := mkAutoMoved 0 in
  ({| vertices := vertices m; normals := normals m; triangles := triangles m;
      colors := colors m; texCoords := texCoords m; tangents := tangents m;
      staticColor := staticColor m; coloringType := coloringType m;
      VAO := z; VBOv := z; VBOn := z; VBOf := z; VBOc := z; VBOt := z; VBOtan := z;
      VAObb := z; VBOvbb := z; VBOfbb := z; VAOn := z; VBOvn := z;
      textureID := textureID m; normalMapID := normalMapID m;
      displacementMapID := displacementMapID m;
      withBB := withBB m; withNormals := withNormals m;
      enableDiffuseTexture := enableDiffuseTexture m;
      enableNormalMapping := enableNormalMapping m;
      enableDisplacementMapping := enableDisplacementMapping m;
      boundingBoxMin := boundingBoxMin m; boundingBoxMax := boundingBoxMax m;
      boundingBoxMid := boundingBoxMid m; boundingBoxSize := boundingBoxSize m;
      f := f m |}, c).

(** [cleanupVBO()]: [if (!f) return; cleanupVBO(f);] *)
Definition cleanupVBO (m : TriangleMesh) (c : GL.context) : TriangleMesh * GL.context :=
  if f m then cleanupVBO_with m c else (m, c).

(** [clear()] *)
Definition clear (m : TriangleMesh) (c : GL.context) : TriangleMesh * GL.context :=
  cleanupVBO
    {| (* clear mesh data *)
       vertices := []; triangles := []; normals := []; colors := []; texCoords := [];
       (* clear bounding box data *)
       boundingBoxMin := mkVec3f FLT_MAX FLT_MAX FLT_MAX;
       boundingBoxMax := mkVec3f (fopp FLT_MAX) (fopp FLT_MAX) (fopp FLT_MAX);
       boundingBoxMid := Vec3.zero;
       boundingBoxSize := Vec3.zero;
       (* draw mode data *)
       coloringType := STATIC_COLOR;
       withBB := false;
       withNormals := false;
       textureID := mkAutoMoved 0;
       (* the members clear() does not assign *)
       tangents := tangents m; staticColor := staticColor m;
       VAO := VAO m; VBOv := VBOv m; VBOn := VBOn m; VBOf := VBOf m; VBOc := VBOc m;
       VBOt := VBOt m; VBOtan := VBOtan m;
       VAObb := VAObb m; VBOvbb := VBOvbb m; VBOfbb := VBOfbb m;
       VAOn := VAOn m; VBOvn := VBOvn m;
       normalMapID := normalMapID m; displacementMapID := displacementMapID m;
       enableDiffuseTexture := enableDiffuseTexture m;
       enableNormalMapping := enableNormalMapping m;
       enableDisplacementMapping := enableDisplacementMapping m;
       f := f m |}
    c.

(** [TriangleMesh(QOpenGLFunctions_3_3_Core* f)]: the members take their
    default values, staticColor is white, and [clear()] runs. *)
Definition construct (has_f : bool) (c : GL.context) : TriangleMesh * GL.context :=
  let z := mkAutoMoved 0 in
  clear
    {| vertices := []; normals := []; triangles := []; colors := []; texCoords := [];
       tangents := [];
       staticColor := mkVec3f (Fin 1) (Fin 1) (Fin 1); coloringType := STATIC_COLOR;
       VAO := z; VBOv := z; VBOn := z; VBOf := z; VBOc := z; VBOt := z; VBOtan := z;
       VAObb := z; VBOvbb := z; VBOfbb := z; VAOn := z; VBOvn := z;
       textureID := z; normalMapID := z; displacementMapID := z;
       withBB := false; withNormals := false;
       enableDiffuseTexture := false; enableNormalMapping := false;
       enableDisplacementMapping := false;
       boundingBoxMin := Vec3.zero; boundingBoxMax := Vec3.zero;
       boundingBoxMid := Vec3.zero; boundingBoxSize := Vec3.zero;
       f := has_f |}
    c.

(** *** Copy and move *)

(** How the class declares its copy and move members:
<<
    TriangleMesh(const TriangleMesh& other) = delete;
    TriangleMesh& operator= (const TriangleMesh& other) = delete;
    TriangleMesh(TriangleMesh&& other) noexcept = default;
    TriangleMesh& operator= (TriangleMesh&& other) noexcept = default;
>> *)
Definition TriangleMesh_declares (s : special_member) : declared_as :=
  match s with
  | copy_constructor => deleted
  | copy_assignment => deleted
  | move_constructor => defaulted
  | move_assignment => defaulted
  end.

(** Moving a [std::vector] hands its storage over and leaves the source
    empty. *)
Definition vector_move {A : Type} (other : list A) : list A * list A := (other, []).

Definition mc := autoMoved_move_construct 0.
Definition ma := @autoMoved_move_assign GLuint.

(** The defaulted move constructor moves member by member; the result is
    the new mesh and [other] after the call. *)
Definition move_construct (other : TriangleMesh) : TriangleMesh * TriangleMesh :=
  ({| vertices := fst (vector_move (vertices other));
      normals := fst (vector_move (normals other));
      triangles := fst (vector_move (triangles other));
      colors := fst (vector_move (colors other));
      texCoords := fst (vector_move (texCoords other));
      tangents := fst (vector_move (tangents other));
      staticColor := staticColor other; coloringType := coloringType other;
      VAO := fst (mc (VAO other)); VBOv := fst (mc (VBOv other));
      VBOn := fst (mc (VBOn other)); VBOf := fst (mc (VBOf other));
      VBOc := fst (mc (VBOc other)); VBOt := fst (mc (VBOt other));
      VBOtan := fst (mc (VBOtan other));
      VAObb := fst (mc (VAObb other)); VBOvbb := fst (mc (VBOvbb other));
      VBOfbb := fst (mc (VBOfbb other));
      VAOn := fst (mc (VAOn other)); VBOvn := fst (mc (VBOvn other));
      textureID := fst (mc (textureID other));
      normalMapID := fst (mc (normalMapID other));
      displacementMapID := fst (mc (displacementMapID other));
      withBB := withBB other; withNormals := withNormals other;
      enableDiffuseTexture := enableDiffuseTexture other;
      enableNormalMapping := enableNormalMapping other;
      enableDisplacementMapping := enableDisplacementMapping other;
      boundingBoxMin := boundingBoxMin other; boundingBoxMax := boundingBoxMax other;
      boundingBoxMid := boundingBoxMid other; boundingBoxSize := boundingBoxSize other;
      f := f other |},
   {| vertices := snd (vector_move (vertices other));
      normals := snd (vector_move (normals other));
      triangles := snd (vector_move (triangles other));
      colors := snd (vector_move (colors other));
      texCoords := snd (vector_move (texCoords other));
      tangents := snd (vector_move (tangents other));
      staticColor := staticColor other; coloringType := coloringType other;
      VAO := snd (mc (VAO other)); VBOv := snd (mc (VBOv other));
      VBOn := snd (mc (VBOn other)); VBOf := snd (mc (VBOf other));
      VBOc := snd (mc (VBOc other)); VBOt := snd (mc (VBOt other));
      VBOtan := snd (mc (VBOtan other));
      VAObb := snd (mc (VAObb other)); VBOvbb := snd (mc (VBOvbb other));
      VBOfbb := snd (mc (VBOfbb other));
      VAOn := snd (mc (VAOn other)); VBOvn := snd (mc (VBOvn other));
      textureID := snd (mc (textureID other));
      normalMapID := snd (mc (normalMapID other));
      displacementMapID := snd (mc (displacementMapID other));
      withBB := withBB other; withNormals := withNormals other;
      enableDiffuseTexture := enableDiffuseTexture other;
      enableNormalMapping := enableNormalMapping other;
      enableDisplacementMapping := enableDisplacementMapping other;
      boundingBoxMin := boundingBoxMin other; boundingBoxMax := boundingBoxMax other;
      boundingBoxMid := boundingBoxMid other; boundingBoxSize := boundingBoxSize other;
      f := f other |}).

(** The defaulted move assignment assigns member by member; the result is
    [*this] and [other] after the call. *)
Definition move_assign (this other : TriangleMesh) : TriangleMesh * TriangleMesh :=
  ({| vertices := fst (vector_move (vertices other));
      normals := fst (vector_move (normals other));
      triangles := fst (vector_move (triangles other));
      colors := fst (vector_move (colors other));
      texCoords := fst (vector_move (texCoords other));
      tangents := fst (vector_move (tangents other));
      staticColor := staticColor other; coloringType := coloringType other;
      VAO := fst (ma (VAO this) (VAO other)); VBOv := fst (ma (VBOv this) (VBOv other));
      VBOn := fst (ma (VBOn this) (VBOn other)); VBOf := fst (ma (VBOf this) (VBOf other));
      VBOc := fst (ma (VBOc this) (VBOc other)); VBOt := fst (ma (VBOt this) (VBOt other));
      VBOtan := fst (ma (VBOtan this) (VBOtan other));
      VAObb := fst (ma (VAObb this) (VAObb other));
      VBOvbb := fst (ma (VBOvbb this) (VBOvbb other));
      VBOfbb := fst (ma (VBOfbb this) (VBOfbb other));
      VAOn := fst (ma (VAOn this) (VAOn other)); VBOvn := fst (ma (VBOvn this) (VBOvn other));
      textureID := fst (ma (textureID this) (textureID other));
      normalMapID := fst (ma (normalMapID this) (normalMapID other));
      displacementMapID := fst (ma (displacementMapID this) (displacementMapID other));
      withBB := withBB other; withNormals := withNormals other;
      enableDiffuseTexture := enableDiffuseTexture other;
      enableNormalMapping := enableNormalMapping other;
      enableDisplacementMapping := enableDisplacementMapping other;
      boundingBoxMin := boundingBoxMin other; boundingBoxMax := boundingBoxMax other;
      boundingBoxMid := boundingBoxMid other; boundingBoxSize := boundingBoxSize other;
      f := f other |},
   {| vertices := snd (vector_move (vertices other));
      normals := snd (vector_move (normals other));
      triangles := snd (vector_move (triangles other));
      colors := snd (vector_move (colors other));
      texCoords := snd (vector_move (texCoords other));
      tangents := snd (vector_move (tangents other));
      staticColor := staticColor other; coloringType := coloringType other;
      VAO := snd (ma (VAO this) (VAO other)); VBOv := snd (ma (VBOv this) (VBOv other));
      VBOn := snd (ma (VBOn this) (VBOn other)); VBOf := snd (ma (VBOf this) (VBOf other));
      VBOc := snd (ma (VBOc this) (VBOc other)); VBOt := snd (ma (VBOt this) (VBOt other));
      VBOtan := snd (ma (VBOtan this) (VBOtan other));
      VAObb := snd (ma (VAObb this) (VAObb other));
      VBOvbb := snd (ma (VBOvbb this) (VBOvbb other));
      VBOfbb := snd (ma (VBOfbb this) (VBOfbb other));
      VAOn := snd (ma (VAOn this) (VAOn other)); VBOvn := snd (ma (VBOvn this) (VBOvn other));
      textureID := snd (ma (textureID this) (textureID other));
      normalMapID := snd (ma (normalMapID this) (normalMapID other));
      displacementMapID := snd (ma (displacementMapID this) (displacementMapID other));
      withBB := withBB other; withNormals := withNormals other;
      enableDiffuseTexture := enableDiffuseTexture other;
      enableNormalMapping := enableNormalMapping other;
      enableDisplacementMapping := enableDisplacementMapping other;
      boundingBoxMin := boundingBoxMin other; boundingBoxMax := boundingBoxMax other;
      boundingBoxMid := boundingBoxMid other; boundingBoxSize := boundingBoxSize other;
      f := f other |}).

(** *** Vectors with checked access *)

Definition vector_at {A : Type} (l : list A) (i : Z) : outcome A :=
  match nth_error l (Z.to_nat i) with
  | Some a => Ret a
  | None => Undefined
  end.

Fixpoint replace_nth {A : Type} (k : nat) (a : A) (l : list A) : list A :=
  match l, k with
  | [], _ => []
  | _ :: l', O => a :: l'
  | b :: l', S k' => b :: replace_nth k' a l'
  end.

(** [l[i] += w] *)
Definition vector_add_at (l : list Normal) (i : Z) (w : Vec3f) : outcome (list Normal) :=
  a <- vector_at l i ;;
  Ret (replace_nth (Z.to_nat i) (Vec3.add a w) l).

(** [l.resize(k)]: the first [k] elements are kept, new elements are
    value-initialised *)
Definition resize {A : Type} (dflt : A) (k : nat) (l : list A) : list A :=
  firstn k l ++ repeat dflt (k - List.length l).

(** *** calculateNormalsByArea *)

(** the body of the loop over the triangles, on the array of normals *)
Definition add_triangle_normal (vs : list Vertex) (ns : list Normal) (triangle : Triangle)
  : outcome (list Normal) :=
  let id0 := i0 triangle in
  let id1 := i1 triangle in
  let id2 := i2 triangle in
  v1 <- vector_at vs id1 ;;
  v0 <- vector_at vs id0 ;;
  v2 <- vector_at vs id2 ;;
  let vec1 := Vec3.sub v1 v0 in
  let vec2 := Vec3.sub v2 v0 in
  let normal := Vec3.cross vec1 vec2 in
  ns <- vector_add_at ns id0 normal ;;
  ns <- vector_add_at ns id1 normal ;;
  vector_add_at ns id2 normal.

Fixpoint sum_triangle_normals (vs : list Vertex) (ns : list Normal) (ts : list Triangle)
  : outcome (list Normal) :=
  match ts with
  | [] => Ret ns
  | t :: ts' =>
      ns' <- add_triangle_normal vs ns t ;;
      sum_triangle_normals vs ns' ts'
  end.

Definition calculateNormalsByArea (m : TriangleMesh) : outcome TriangleMesh :=
  (* sum up triangle normals in each vertex *)
  let ns := resize Vec3.zero (List.length (vertices m)) (normals m) in
  ns <- sum_triangle_normals (vertices m) ns (triangles m) ;;
  (* normalize normals *)
  Ret (set_normals (map Vec3.normalize ns) m).

(** *** calculateTexCoordsSphereMapping *)

Definition sphere_texCoord (mid : Vec3f) (vertex : Vertex) : TexCoord :=
  let dist := Vec3.sub vertex mid in
  let u := fadd (fmul (fdiv M_1_PI (Fin 2)) (fatan2 (x dist) (z dist))) (Fin (1 / 2)) in
  let v := fmul M_1_PI
             (fasin (fdiv (y dist)
                       (fsqrt (fadd (fadd (fmul (x dist) (x dist)) (fmul (y dist) (y dist)))
                                    (fmul (z dist) (z dist)))))) in
  mkTexCoord u v.

Definition calculateTexCoordsSphereMapping (m : TriangleMesh) : TriangleMesh :=
  set_texCoords (map (sphere_texCoord (boundingBoxMid m)) (vertices m)) m.

(** *** The bounding box *)

Definition min3 (p q : Vec3f) : Vec3f :=
  mkVec3f (std_min (x p) (x q)) (std_min (y p) (y q)) (std_min (z p) (z q)).

Definition max3 (p q : Vec3f) : Vec3f :=
  mkVec3f (std_max (x p) (x q)) (std_max (y p) (y q)) (std_max (z p) (z q)).

(** [boundingBoxMid = 0.5f*boundingBoxMin + 0.5f*boundingBoxMax;
     boundingBoxSize = boundingBoxMax - boundingBoxMin;] *)
Definition update_mid_size (m : TriangleMesh) : TriangleMesh :=
  let m := set_boundingBoxMid
             (Vec3.add (Vec3.scale (Fin (1 / 2)) (boundingBoxMin m))
                       (Vec3.scale (Fin (1 / 2)) (boundingBoxMax m))) m in
  set_boundingBoxSize (Vec3.sub (boundingBoxMax m) (boundingBoxMin m)) m.

Definition calculateBB (m : TriangleMesh) : TriangleMesh :=
  let m := set_boundingBoxMin (mkVec3f FLT_MAX FLT_MAX FLT_MAX) m in
  let m := set_boundingBoxMax (mkVec3f (fopp FLT_MAX) (fopp FLT_MAX) (fopp FLT_MAX)) m in
  let m := set_boundingBoxMid Vec3.zero m in
  let m := set_boundingBoxSize Vec3.zero m in
  let m := fold_left
             (fun m vertex =>
                set_boundingBoxMax (max3 vertex (boundingBoxMax m))
                  (set_boundingBoxMin (min3 vertex (boundingBoxMin m)) m))
             (vertices m) m in
  update_mid_size m.

(** *** Building the GPU buffers *)

Definition set_handles (h1 h2 h3 h4 h5 h6 h7 h8 h9 h10 h11 h12 : GLuint) (m : TriangleMesh)
  : TriangleMesh :=
  let '(mkTriangleMesh a1 a2 a3 a4 a5 a6 a7 a8 _ _ _ _ _ _ _ _ _ _ _ _
          c1 c2 c3 d1 d2 d3 d4 d5 e1 e2 e3 e4 g) := m in
  mkTriangleMesh a1 a2 a3 a4 a5 a6 a7 a8
    (mkAutoMoved h1) (mkAutoMoved h2) (mkAutoMoved h3) (mkAutoMoved h4)
    (mkAutoMoved h5) (mkAutoMoved h6) (mkAutoMoved h7) (mkAutoMoved h8)
    (mkAutoMoved h9) (mkAutoMoved h10) (mkAutoMoved h11) (mkAutoMoved h12)
    c1 c2 c3 d1 d2 d3 d4 d5 e1 e2 e3 e4 g.

(** [createVBO]: a new buffer name, or 0 after releasing it again when
    the upload did not land at the requested size *)
Definition createVBO (c : GL.context) : GLuint * GL.context :=
  let (id, c) := GL.glGenBuffers c in
  if GL.uploads_land c then (id, c) else (0, GL.glDeleteBuffers id c).

Definition same_size {A B : Type} (l : list A) (l' : list B) : bool :=
  Nat.eqb (List.length l) (List.length l').

Definition createAllVBOs (m : TriangleMesh) (c : GL.context) : TriangleMesh * GL.context :=
  if f m then
    let (vao, c) := GL.glGenVertexArrays c in
    let (vbof, c) := createVBO c in
    let (vbov, c) := createVBO c in
    let (vbon, c) := createVBO c in
    let (vboc, c) :=
      if same_size (colors m) (vertices m) then createVBO c else (val (VBOc m), c) in
    let (vbot, c) :=
      if same_size (texCoords m) (vertices m) then createVBO c else (val (VBOt m), c) in
    let (vbotan, c) :=
      if same_size (tangents m) (vertices m) then createVBO c else (val (VBOtan m), c) in
    (* createBBVAO *)
    let (vaobb, c) := GL.glGenVertexArrays c in
    let (vbovbb, c) := createVBO c in
    let (vbofbb, c) := createVBO c in
    (* createNormalVAO *)
    let '(vaon, vbovn, c) :=
      if same_size (vertices m) (normals m) then
        let (vaon, c) := GL.glGenVertexArrays c in
        let (vbovn, c) := createVBO c in
        (vaon, vbovn, c)
      else (val (VAOn m), val (VBOvn m), c) in
    (set_handles vao vbov vbon vbof vboc vbot vbotan vaobb vbovbb vbofbb vaon vbovn m, c)
  else (m, c).

(** *** generateSphere *)

Definition longdiv : nat := 200.
Definition latdiv : nat := 100.

(** the pairs of the two nested loops [for (i = 0; i < rows; i++)
    for (j = 0; j < columns; j++)], in the order they are visited *)
Definition grid (rows columns : nat) : list (nat * nat) :=
  flat_map (fun i => map (fun j => (i, j)) (seq 0 columns)) (seq 0 rows).

Definition of_nat (k : nat) : float := of_Z (Z.of_nat k).

Definition sphere_v (latitude : nat) : float := fdiv (of_nat latitude) (of_nat latdiv).
Definition sphere_u (longitude : nat) : float := fdiv (of_nat longitude) (of_nat longdiv).

Definition sphere_pos (p : nat * nat) : Vec3f :=
  let (latitude, longitude) := p in
  let latangle := fmul (sphere_v latitude) M_PI in
  let extent := fsin latangle in
  let y := fopp (fcos latangle) in
  let longangle := fmul (fmul (sphere_u longitude) (Fin 2)) M_PI in
  let z := fmul (fsin longangle) extent in
  let x := fmul (fcos longangle) extent in
  mkVec3f x y z.

Definition sphere_uv (p : nat * nat) : TexCoord :=
  let (latitude, longitude) := p in
  mkTexCoord (fsub (Fin 2) (fmul (Fin 2) (sphere_u longitude))) (sphere_v latitude).

Definition sphere_tangent (p : nat * nat) : Tangent :=
  Vec3.cross (mkVec3f (Fin 0) (Fin 1) (Fin 0)) (sphere_pos p).

Definition sphere_faces (p : nat * nat) : list Triangle :=
  let (latitude, longitude) := p in
  let bottomBase := Int.to_uint32 (Z.of_nat latitude * (Z.of_nat longdiv + 1)) in
  let topBase := Int.to_uint32 ((Z.of_nat latitude + 1) * (Z.of_nat longdiv + 1)) in
  let bottomCurrent := Int.to_uint32 (bottomBase + Z.of_nat longitude) in
  let bottomNext := Int.to_uint32 (bottomBase + (Z.of_nat longitude + 1)) in
  let topCurrent := Int.to_uint32 (topBase + Z.of_nat longitude) in
  let topNext := Int.to_uint32 (topBase + (Z.of_nat longitude + 1)) in
  [ mkVec3ui bottomCurrent bottomNext topNext; mkVec3ui topNext topCurrent bottomCurrent ].

Definition generateSphere (m : TriangleMesh) (c : GL.context) : TriangleMesh * GL.context :=
  let points := grid (S latdiv) (S longdiv) in
  createAllVBOs
    {| (* setGLFunctionPtr(f) *)
       f := true;
       (* Generate vertices. *)
       vertices := vertices m ++ map sphere_pos points;
       normals := normals m ++ map sphere_pos points;
       texCoords := texCoords m ++ map sphere_uv points;
       tangents := tangents m ++ map sphere_tangent points;
       triangles := triangles m ++ flat_map sphere_faces (grid latdiv longdiv);
       boundingBoxMid := mkVec3f (Fin 0) (Fin 0) (Fin 0);
       boundingBoxSize := mkVec3f (Fin 2) (Fin 2) (Fin 2);
       boundingBoxMin := mkVec3f (Fin (-1)) (Fin (-1)) (Fin (-1));
       boundingBoxMax := mkVec3f (Fin 1) (Fin 1) (Fin 1);
       (* the members generateSphere does not assign *)
       colors := colors m; staticColor := staticColor m; coloringType := coloringType m;
       VAO := VAO m; VBOv := VBOv m; VBOn := VBOn m; VBOf := VBOf m; VBOc := VBOc m;
       VBOt := VBOt m; VBOtan := VBOtan m;
       VAObb := VAObb m; VBOvbb := VBOvbb m; VBOfbb := VBOfbb m;
       VAOn := VAOn m; VBOvn := VBOvn m;
       textureID := textureID m; normalMapID := normalMapID m;
       displacementMapID := displacementMapID m;
       withBB := withBB m; withNormals := withNormals m;
       enableDiffuseTexture := enableDiffuseTexture m;
       enableNormalMapping := enableNormalMapping m;
       enableDisplacementMapping := enableDisplacementMapping m |}
    c.

(** *** loadOBJ *)

(** The loop [while (ss >> num)] over the text of a face line; [nv] is
    [vertices.size()] and [indices] the vector built so far. *)
Fixpoint read_indices (fuel : nat) (nv : Z) (ss : IStream.istream) (indices : list Z)
  : list Z :=
  match fuel with
  | O => indices
  | S fuel' =>
      let (num, ss') := IStream.read_int ss in
      if IStream.ok ss' then
        (* convert negative indices to positive indices *)
        let num := if num <? 0 then Int.to_int32 (Int.to_size_t (nv + 1 + num)) else num in
        (* Store and convert OBJ's 1-based indices to the required 0-based indices! *)
        read_indices fuel' nv ss' (indices ++ [Int.to_int32 (num - 1)])
      else indices
  end.

(** Every successful extraction consumes a character, so this many rounds
    exhaust the line. *)
Definition face_indices (nv : Z) (line : string) : list Z :=
  read_indices (S (String.length line)) nv (IStream.open line) [].

Definition not_a_triangle : string :=
  "The OBJ file contains polygons that are not triangles! Ignoring entry, this will lead to holes in your mesh!".

Definition can_not_find (filename : string) : string :=
  String.append "loadOBJ: can not find " filename.

(** What the loop of loadOBJ works on: the file, the mesh, the
    diagnostics written so far. *)
Record loader : Type := mkLoader {
  input : IStream.istream;
  mesh : TriangleMesh;
  diagnostics : list string
}.

(** [in >> x >> y >> z] *)
Definition read_three (s : IStream.istream)
  : option float * option float * option float * IStream.istream :=
  let (x, s) := IStream.read_float s in
  let (y, s) := IStream.read_float s in
  let (z, s) := IStream.read_float s in
  (x, y, z, s).

(** Using a variable that no extraction has written is undefined. *)
Definition initialised (o : option float) : outcome float :=
  match o with Some a => Ret a | None => Undefined end.

(** read and store a face *)
Definition store_face (line : string) (m : TriangleMesh) (diag : list string)
  : TriangleMesh * list string :=
  let indices := face_indices (Z.of_nat (List.length (vertices m))) line in
  match indices with
  | [a; b; c] =>
      (set_triangles
         (triangles m ++ [mkVec3ui (Int.to_uint32 a) (Int.to_uint32 b) (Int.to_uint32 c)]) m,
       diag)
  | _ => (m, diag ++ [not_a_triangle])
  end.

(** One round of the loop [while (!in.eof()) { ... }]. *)
Definition load_step (st : loader) : outcome loader :=
  let (s, in1) := IStream.read_string (input st) in
  let m := mesh st in
  if String.eqb s "v" then
    (* read and store a vertex *)
    let '(ox, oy, oz, in2) := read_three in1 in
    x <- initialised ox ;; y <- initialised oy ;; z <- initialised oz ;;
    let p := mkVec3f x y z in
    let m := set_vertices (vertices m ++ [p]) m in
    (* update bounding box *)
    let m := set_boundingBoxMin (min3 p (boundingBoxMin m)) m in
    let m := set_boundingBoxMax (max3 p (boundingBoxMax m)) m in
    (* Ignore rest of line *)
    Ret (mkLoader (IStream.ignore_line in2) m (diagnostics st))
  else if String.eqb s "vn" then
    (* read and store a vertex normal *)
    let '(ox, oy, oz, in2) := read_three in1 in
    x <- initialised ox ;; y <- initialised oy ;; z <- initialised oz ;;
    let m := set_normals (normals m ++ [mkVec3f x y z]) m in
    (* Ignore rest of line *)
    Ret (mkLoader (IStream.ignore_line in2) m (diagnostics st))
  else if String.eqb s "f" then
    let (line, in2) := IStream.getline in1 in
    let (m, diag) := store_face line m (diagnostics st) in
    Ret (mkLoader in2 m diag)
  else
    (* Skip comments and other entries *)
    Ret (mkLoader (IStream.ignore_line in1) m (diagnostics st)).

Fixpoint load_loop (fuel : nat) (st : loader) : outcome loader :=
  if IStream.eof (input st) then Ret st
  else
    match fuel with
    | O => OutOfFuel
    | S fuel' => st' <- load_step st ;; load_loop fuel' st'
    end.

(** [loadOBJ(filename, createVBOs)]; [fs] maps the name of a file that can
    be opened to its content. *)
Definition loadOBJ (fs : string -> option string) (fuel : nat)
    (filename : string) (createVBOs : bool)
    (m : TriangleMesh) (c : GL.context) (diag : list string)
  : outcome (TriangleMesh * GL.context * list string) :=
  (* clear any existing mesh *)
  let (m, c) := clear m c in
  (* load from obj *)
  match fs filename with
  | None => Ret (m, c, diag ++ [can_not_find filename])
  | Some content =>
      let m := set_triangles [] (set_normals [] (set_vertices [] m)) in
      (* Load all vertices and triangles and ignore other entries. *)
      st <- load_loop fuel (mkLoader (IStream.open content) m diag) ;;
      (* update bounding box *)
      let m := update_mid_size (mesh st) in
      (* calculate normals if they are not present in the file *)
      m <- (if same_size (normals m) (vertices m) then Ret m
            else calculateNormalsByArea m) ;;
      (* calculate texture coordinates *)
      let m := calculateTexCoordsSphereMapping m in
      (* createVBO *)
      let (m, c) := if createVBOs then createAllVBOs m c else (m, c) in
      Ret (m, c, diagnostics st)
  end.

(** *** Raw data *)

(** [flipNormals(createVBOs)]: every normal is multiplied by -1.  The upload
    that follows rewrites the content of the buffer VBOn; it creates and
    releases no object. *)
Definition flipNormals (createVBOs : bool) (m : TriangleMesh) (c : GL.context)
  : TriangleMesh * GL.context :=
  (set_normals (map (Vec3.scale (Fin (-1))) (normals m)) m, c).

Definition translateToCenter (newBBmid : Vec3f) (createVBOs : bool)
    (m : TriangleMesh) (c : GL.context) : TriangleMesh * GL.context :=
  let trans := Vec3.sub newBBmid (boundingBoxMid m) in
  let m := set_vertices (map (fun vertex => Vec3.add vertex trans) (vertices m)) m in
  let m := set_boundingBoxMin (Vec3.add (boundingBoxMin m) trans) m in
  let m := set_boundingBoxMax (Vec3.add (boundingBoxMax m) trans) m in
  let m := set_boundingBoxMid (Vec3.add (boundingBoxMid m) trans) m in
  (* data changed => delete VBOs and create new ones (not efficient but easy) *)
  if createVBOs then let (m, c) := cleanupVBO m c in createAllVBOs m c
  else (m, c).

Definition scaleToLength (newLength : float) (createVBOs : bool)
    (m : TriangleMesh) (c : GL.context) : TriangleMesh * GL.context :=
  let length :=
    std_max (std_max (x (boundingBoxSize m)) (y (boundingBoxSize m)))
      (z (boundingBoxSize m)) in
  let scale := fdiv newLength length in
  let m := set_vertices (map (Vec3.scale scale) (vertices m)) m in
  let m := set_boundingBoxMin (Vec3.scale scale (boundingBoxMin m)) m in
  let m := set_boundingBoxMax (Vec3.scale scale (boundingBoxMax m)) m in
  let m := set_boundingBoxMid (Vec3.scale scale (boundingBoxMid m)) m in
  let m := set_boundingBoxSize (Vec3.scale scale (boundingBoxSize m)) m in
  (* data changed => delete VBOs and create new ones (not efficient but easy) *)
  if createVBOs then let (m, c) := cleanupVBO m c in createAllVBOs m c
  else (m, c).

(** [loadOBJ(filename, BBmid, BBlength)] *)
Definition loadOBJ_BB (fs : string -> option string) (fuel : nat)
    (filename : string) (BBmid : Vec3f) (BBlength : float)
    (m : TriangleMesh) (c : GL.context) (diag : list string)
  : outcome (TriangleMesh * GL.context * list string) :=
  r <- loadOBJ fs fuel filename false m c diag ;;
  let '(m, c, diag) := r in
  let (m, c) := translateToCenter BBmid false m c in
  let (m, c) := scaleToLength BBlength true m c in
  Ret (m, c, diag).

(** *** View frustum culling *)

(** Modelled from the spec: renderstate.h is not among the sources.  The
    render state holds a non-empty stack of model-view matrices, the
    current projection matrix, the active and the standard shader program
    and the light position. *)
Record RenderState : Type := mkRenderState {
  modelViewTop : QMatrix4x4;
  modelViewBelow : list QMatrix4x4;
  projectionMatrix : QMatrix4x4;
  currentProgram : GLuint;
  standardProgram : GLuint;
  lightPos : Vec3f
}.

(** Modelled from the spec: renderstate.h is not among the sources.  The
    current projection matrix. *)
Definition getCurrentProjectionMatrix (state : RenderState) : QMatrix4x4 :=
  projectionMatrix state.

(** Modelled from the spec: renderstate.h is not among the sources.  The
    top of the stack of model-view matrices. *)
Definition getCurrentModelViewMatrix (state : RenderState) : QMatrix4x4 :=
  modelViewTop state.

(** the test inside the loop of isInsideFrustum:
    [QVector3D::dotProduct(p, plane.n) - plane.d > 0.0f] *)
Definition outside (p : QVector3D) (plane : Plane) : bool :=
  fgt (fsub (dotProduct p (n plane)) (d plane)) (Fin 0).

Fixpoint inside_all (p : QVector3D) (planes : list Plane) : bool :=
  match planes with
  | [] => true
  | plane :: planes' =>
      if outside p plane then false (* return early *)
      else inside_all p planes'
  end.

(** method determining whether the bounding box is in the frustum or outside *)
Definition isInsideFrustum (m : TriangleMesh) (planes : list Plane) : bool :=
  let mid := boundingBoxMid m in
  inside_all (mkQVector3D (x mid) (y mid) (z mid)) planes.

(** the six planes read off the raw data of VP *)
Definition extract_planes (vp : nat -> float) : list Plane :=
  [ (* left plane *)
    mkPlane (mkQVector3D (fadd (vp 3%nat) (vp 0%nat)) (fadd (vp 7%nat) (vp 4%nat))
                         (fadd (vp 11%nat) (vp 8%nat)))
            (fadd (vp 15%nat) (vp 12%nat));
    (* right plane *)
    mkPlane (mkQVector3D (fsub (vp 3%nat) (vp 0%nat)) (fsub (vp 7%nat) (vp 4%nat))
                         (fsub (vp 11%nat) (vp 8%nat)))
            (fsub (vp 15%nat) (vp 12%nat));
    (* bottom plane *)
    mkPlane (mkQVector3D (fadd (vp 3%nat) (vp 1%nat)) (fadd (vp 7%nat) (vp 5%nat))
                         (fadd (vp 11%nat) (vp 9%nat)))
            (fadd (vp 15%nat) (vp 13%nat));
    (* top plane *)
    mkPlane (mkQVector3D (fsub (vp 3%nat) (vp 1%nat)) (fsub (vp 7%nat) (vp 5%nat))
                         (fsub (vp 11%nat) (vp 9%nat)))
            (fsub (vp 15%nat) (vp 13%nat));
    (* near plane *)
    mkPlane (mkQVector3D (fadd (vp 3%nat) (vp 2%nat)) (fadd (vp 7%nat) (vp 6%nat))
                         (fadd (vp 11%nat) (vp 10%nat)))
            (fadd (vp 15%nat) (vp 14%nat));
    (* far plane *)
    mkPlane (mkQVector3D (fsub (vp 3%nat) (vp 2%nat)) (fsub (vp 7%nat) (vp 6%nat))
                         (fsub (vp 11%nat) (vp 10%nat)))
            (fsub (vp 15%nat) (vp 14%nat)) ].

(** normalize plane normals *)
Definition normalize_plane (plane : Plane) : Plane :=
  let nn := n plane in
  let magnitude :=
    fsqrt (fadd (fadd (fmul (qx nn) (qx nn)) (fmul (qy nn) (qy nn)))
                (fmul (qz nn) (qz nn))) in
  mkPlane (qdiv nn magnitude) (fdiv (d plane) magnitude).

Definition frustum_planes (state : RenderState) : list Plane :=
  (* projectionMatrix and model view matrix in 4x4 *)
  let projection := getCurrentProjectionMatrix state in
  let modelView := getCurrentModelViewMatrix state in
  (* product of projection matrix and vertex *)
  let VP := mmul projection modelView in
  (* raw data of VP matrix *)
  let vp := data VP in
  map normalize_plane (extract_planes vp).

Definition boundingBoxIsVisible (m : TriangleMesh) (state : RenderState) : bool :=
  let shouldDraw := isInsideFrustum m (frustum_planes state) in
  shouldDraw.

(** [draw(state)], as far as its result goes: the number of triangles
    drawn. *)
Definition draw (m : TriangleMesh) (state : RenderState) : Z :=
  if negb (boundingBoxIsVisible m state) then 0
  else if val (VAO m) =? 0 then 0
  else Int.to_uint32 (Z.of_nat (List.length (triangles m))).

(** *** Heightmaps *)

Section Heightmap.

(** The values successive calls of [std::rand] return, and [RAND_MAX]. *)
Variable rand_values : nat -> Z.
Variable RAND_MAX : Z.

(** [rand()]; the state is the number of calls made so far *)
Definition rand (calls : nat) : Z * nat := (rand_values calls, S calls).

(** [std::vector<A>(count, a)], [count] being an [int] that is converted
    to [size_t]: a negative one exceeds [max_size()] *)
Definition make_vector {A : Type} (count : Z) (a : A) : outcome (list A) :=
  if count <? 0 then Throw std_length_error
  else Ret (repeat a (Z.to_nat count)).

Definition displacement : float := Fin (1 / 10).

(** what one fault line adds to the cell [(x, z)] *)
Definition cell_offset (displacementType : Z) (a b c waveSize : float) (x z : Z) : float :=
  let dist := fsub (fadd (fmul a (of_Z x)) (fmul b (of_Z z))) c in
  if displacementType =? 0 then
    (* cosine function *)
    let cosValue := fcos (fmul (fdiv dist waveSize) M_PI) in
    fmul (fdiv displacement (Fin 2)) cosValue
  else if displacementType =? 1 then
    (* sine function *)
    let sinValue := fsin (fmul (fdiv dist waveSize) M_PI) in
    fmul (fdiv displacement (Fin 2)) sinValue
  else
    (* step function *)
    if fgt dist (Fin 0) then displacement else fopp displacement.

Fixpoint add_to_cells (g : Z -> float) (z : Z) (count : nat) (row : list float)
  : list float :=
  match count, row with
  | S count', h :: row' => fadd h (g z) :: add_to_cells g (z + 1) count' row'
  | _, _ => row
  end.

Fixpoint add_to_rows (g : Z -> Z -> float) (x : Z) (columns : nat)
    (heightmap : list (list float)) : list (list float) :=
  match heightmap with
  | [] => []
  | row :: heightmap' =>
      add_to_cells (g x) 0 columns row :: add_to_rows g (x + 1) columns heightmap'
  end.

(** the two loops over [x < heightmap.size()] and
    [z < heightmap[0].size()] *)
Definition add_fault (displacementType : Z) (a b c waveSize : float)
    (heightmap : list (list float)) : list (list float) :=
  add_to_rows (cell_offset displacementType a b c waveSize) 0
    (List.length (hd [] heightmap)) heightmap.

Fixpoint faults (rounds : nat) (displacementType : Z) (dd waveSize : float)
    (heightmap : list (list float)) (calls : nat) : list (list float) * nat :=
  match rounds with
  | O => (heightmap, calls)
  | S rounds' =>
      let (r1, calls) := rand calls in
      (* convert v to radian *)
      let v := fdiv (fmul (of_Z r1) M_PI) (Fin 180) in
      let a := fsin v in
      let b := fcos v in
      let (r2, calls) := rand calls in
      let c := fsub (fmul (fdiv (of_Z r2) (of_Z RAND_MAX)) dd) (fdiv dd (Fin 2)) in
      faults rounds' displacementType dd waveSize
        (add_fault displacementType a b c waveSize heightmap) calls
  end.

Definition generateHeightmap (l w iterations displacementType : Z) (calls : nat)
  : outcome (list (list float) * nat) :=
  row <- make_vector w Float.zero ;;
  heightmap <- make_vector l row ;;
  let dd := fsqrt (of_Z (Int.to_int32 (w * w + l * l))) in
  let waveSize := fdiv dd (Fin 10) in
  Ret (faults (Z.to_nat iterations) displacementType dd waveSize heightmap calls).

End Heightmap.

End Mesh.

(** ** openglview.cpp: the camera *)

Module Camera.

Record OpenGLView : Type := mkOpenGLView {
  cameraPos : QVector3D;
  cameraDir : QVector3D;
  angleX : float;
  angleY : float;
  (* how often update() asked for a repaint *)
  updates : nat
}.

(** [setDefaults()], as far as the camera goes.  The constructor of the
    widget runs it before anything reads the members, and the reset button
    runs it again. *)
Definition setDefaults (view : OpenGLView) : OpenGLView :=
  (* scene Information *)
  let cameraPos := mkQVector3D (Fin (-12)) (Fin 32) (Fin 32) in
  let cameraDir :=
    QVector3D_normalized (mkQVector3D (Fin (3 / 10)) (Fin (- (12 / 10))) (Fin (- (8 / 10)))) in
  let angleX :=
    fdiv (fmul (fatan2 (qx cameraDir) (fopp (qz cameraDir))) (Fin 180)) M_PI in
  let angleY := fdiv (fmul (fasin (qy cameraDir)) (Fin 180)) M_PI in
  mkOpenGLView cameraPos cameraDir angleX angleY (updates view).

Definition cameraMoves (view : OpenGLView) (deltaX deltaY deltaZ : float) : OpenGLView :=
  let ortho := mkQVector3D (fopp (qz (cameraDir view))) (Fin 0) (qx (cameraDir view)) in
  let up := QVector3D_normalized (crossProduct (cameraDir view) ortho) in
  let cameraPos := qadd (cameraPos view) (qmul deltaX ortho) in
  let cameraPos := qadd cameraPos (qmul deltaY up) in
  let cameraPos := qadd cameraPos (qmul deltaZ (cameraDir view)) in
  mkOpenGLView cameraPos (cameraDir view) (angleX view) (angleY view) (S (updates view)).

Definition cameraRotates (view : OpenGLView) (deltaX deltaY : float) : OpenGLView :=
  let angleX := ffmod (fadd (angleX view) deltaX) (Fin 360) in
  let angleY := fadd (angleY view) deltaY in
  let angleY := std_max (Fin (-70)) (std_min angleY (Fin 70)) in
  let radX := fdiv (fmul angleX M_PI) (Fin 180) in
  let radY := fdiv (fmul angleY M_PI) (Fin 180) in
  let dx := fmul (fsin radX) (fcos radY) in
  let dz := fmul (fopp (fcos radX)) (fcos radY) in
  let dy :=
    std_max (Fin 0)
      (std_min (fsqrt (fsub (fsub (Fin 1) (fmul dx dx)) (fmul dz dz))) (Fin 1)) in
  let dy := if flt angleY (Fin 0) then fopp dy else dy in
  mkOpenGLView (cameraPos view) (mkQVector3D dx dy dz) angleX angleY (S (updates view)).

(** a sequence of calls, each with its two deltas *)
Definition rotations (view : OpenGLView) (calls : list (float * float)) : OpenGLView :=
  fold_left (fun v c => cameraRotates v (fst c) (snd c)) calls view.

End Camera.

(** * The vocabulary of the statements

    Predicates the statements use, and the inputs of the examples. *)

Section CameraTerms.

Import Camera.
Local Open Scope R_scope.

(** [angleY] lies in [-70, 70]; in particular it is a number. *)
Definition pitch_in_range (a : float) : Prop :=
  fle (Fin (-70)) a = true /\ fle a (Fin 70) = true.

Definition clamp_pitch (a : float) : float :=
  std_max (Fin (-70)) (std_min a (Fin 70)).

(** what the members of a widget may hold before its constructor runs *)
Definition view_down : OpenGLView :=
  mkOpenGLView (mkQVector3D (Fin (-12)) (Fin 32) (Fin 32))
    (mkQVector3D (Fin 0) (Fin 0) (Fin (-1))) (Fin 20) (Fin (-54)) 0.

(** The states of the camera the widget can be in.  [angleX] and [angleY]
    are private members; setDefaults (run by the constructor and by the
    reset button), cameraRotates and cameraMoves are the only functions that
    write the camera. *)
Inductive reachable : OpenGLView -> Prop :=
| after_setDefaults (view : OpenGLView) : reachable (setDefaults view)
| after_cameraRotates (view : OpenGLView) (deltaX deltaY : float) :
    reachable view -> reachable (cameraRotates view deltaX deltaY)
| after_cameraMoves (view : OpenGLView) (deltaX deltaY deltaZ : float) :
    reachable view -> reachable (cameraMoves view deltaX deltaY deltaZ).

(** every call of the sequence has a positive pitch delta *)
Definition positive_pitch (calls : list (float * float)) : Prop :=
  Forall (fun call => flt (Fin 0) (snd call) = true) calls.

End CameraTerms.

Section MeshTerms.

Import Mesh.
Local Open Scope Z_scope.

(** an empty mesh whose fifteen handle slots all hold [k] *)
Definition mesh_with_handles (k : GLuint) : TriangleMesh :=
  let h := mkAutoMoved k in
  mkTriangleMesh [] [] [] [] [] [] Vec3.zero STATIC_COLOR
    h h h h h h h h h h h h h h h
    false false false false false
    Vec3.zero Vec3.zero Vec3.zero Vec3.zero true.

Definition empty_context : GL.context := GL.mkContext [] [] true.

Definition all_zero (l : list GLuint) : Prop := Forall (fun h => h = 0) l.

End MeshTerms.

(** the values of a linear congruential generator, for the examples *)
Definition sample_rand_values (k : nat) : Z := (Z.of_nat k * 1103515245 + 12345) mod 32768.

Section ObjTerms.

Import Mesh.
Local Open Scope Z_scope.

(** the numbers the loop [while (ss >> num)] extracts, as they stand in the
    text *)
Fixpoint read_numbers (fuel : nat) (ss : IStream.istream) : list Z :=
  match fuel with
  | O => []
  | S fuel' =>
      let (num, ss') := IStream.read_int ss in
      if IStream.ok ss' then num :: read_numbers fuel' ss' else []
  end.

Definition face_numbers (line : string) : list Z :=
  read_numbers (S (String.length line)) (IStream.open line).

(** the vertex index stored for the number [num] of a face when the mesh
    has [nv] vertices *)
Definition stored_index (nv num : Z) : Z :=
  Int.to_uint32
    (Int.to_int32
       ((if num <? 0 then Int.to_int32 (Int.to_size_t (nv + 1 + num)) else num) - 1)).

(** the operation returns, and what it returns satisfies [P] *)
Definition returns {A : Type} (o : outcome A) (P : A -> Prop) : Prop :=
  match o with Ret a => P a | _ => False end.

Definition nl : string := String (ascii_of_nat 10) EmptyString.

(** four vertices, a triangle, a face of five indices, a triangle given by
    negative indices *)
Definition quad_file : string :=
  ("v 0 0 0" ++ nl ++ "v 1 0 0" ++ nl ++ "v 1 1 0" ++ nl ++ "v 0 1 0" ++ nl ++
   "f 1 2 3" ++ nl ++ "f 1 2 3 4 1" ++ nl ++ "f -4 -2 -1" ++ nl)%string.

(** one vertex with its normal, a face that names the vertices 2 and 3, and
    a face that names the vertex 0 *)
Definition stray_file : string :=
  ("v 0 0 0" ++ nl ++ "vn 0 0 1" ++ nl ++ "f 1 2 3" ++ nl ++ "f 0 1 1" ++ nl)%string.

(** the same faces, but no normal in the file *)
Definition stray_file_without_normal : string :=
  ("v 0 0 0" ++ nl ++ "f 1 2 3" ++ nl)%string.

(** a file system that holds one file *)
Definition one_file (name content : string) (filename : string) : option string :=
  if String.eqb filename name then Some content else None.

(** the mesh the constructor leaves *)
Definition new_mesh : TriangleMesh := fst (construct true empty_context).

Definition out_of_range (m : TriangleMesh) (t : Triangle) : Prop :=
  exists index, In index [i0 t; i1 t; i2 t]
                /\ Z.of_nat (List.length (vertices m)) <= index.

End ObjTerms.

Section ObjExamples.

Import Mesh.
Local Open Scope Z_scope.

(** the loop in front of a face line with three numbers, two of them
    negative, the mesh holding the four vertices of [quad_file] *)
Definition before_triangle : loader :=
  mkLoader (IStream.open ("f 1 -2 -1" ++ nl ++ "v 2 2 2" ++ nl)%string)
    (set_vertices (repeat Vec3.zero 4) new_mesh) [].

(** the loop in front of a face line with five numbers *)
Definition before_pentagon : loader :=
  mkLoader (IStream.open ("f 1 2 3 4 1" ++ nl ++ "v 2 2 2" ++ nl)%string)
    (set_vertices (repeat Vec3.zero 4) new_mesh) [].

End ObjExamples.

Section SynthesisTerms.

Import Mesh.
Local Open Scope R_scope.

(** three vertices, one normal, one triangle *)
Definition stale_normal_file : string :=
  ("v 0 0 0" ++ nl ++ "v 1 0 0" ++ nl ++ "v 0 1 0" ++ nl ++
   "vn 0 0 -3" ++ nl ++ "f 1 2 3" ++ nl)%string.

Definition corner0 : Vec3f := mkVec3f (Fin 0) (Fin 0) (Fin 0).
Definition corner1 : Vec3f := mkVec3f (Fin 1) (Fin 0) (Fin 0).
Definition corner2 : Vec3f := mkVec3f (Fin 0) (Fin 1) (Fin 0).

(** one vertex, which is then the midpoint of the bounding box, and its
    normal *)
Definition point_file : string := ("v 1 2 3" ++ nl ++ "vn 0 0 1" ++ nl)%string.

End SynthesisTerms.

Section FrustumTerms.

Import Mesh.
Local Open Scope R_scope.

(** the plane row 3 + row [r] of [VP], and the plane row 3 - row [r] *)
Definition plane_sum (VP : QMatrix4x4) (r : nat) : Plane :=
  mkPlane (mkQVector3D (fadd (VP 3%nat 0%nat) (VP r 0%nat)) (fadd (VP 3%nat 1%nat) (VP r 1%nat))
             (fadd (VP 3%nat 2%nat) (VP r 2%nat)))
          (fadd (VP 3%nat 3%nat) (VP r 3%nat)).

Definition plane_difference (VP : QMatrix4x4) (r : nat) : Plane :=
  mkPlane (mkQVector3D (fsub (VP 3%nat 0%nat) (VP r 0%nat)) (fsub (VP 3%nat 1%nat) (VP r 1%nat))
             (fsub (VP 3%nat 2%nat) (VP r 2%nat)))
          (fsub (VP 3%nat 3%nat) (VP r 3%nat)).

(** the Euclidean norm of a normal vector *)
Definition magnitude (nn : QVector3D) : float :=
  fsqrt (fadd (fadd (fmul (qx nn) (qx nn)) (fmul (qy nn) (qy nn))) (fmul (qz nn) (qz nn))).

(** the plane with normal and distance divided by the magnitude of the normal *)
Definition normalized (plane : Plane) : Plane :=
  mkPlane (qdiv (n plane) (magnitude (n plane))) (fdiv (d plane) (magnitude (n plane))).

Definition midpoint (m : TriangleMesh) : QVector3D :=
  mkQVector3D (x (boundingBoxMid m)) (y (boundingBoxMid m)) (z (boundingBoxMid m)).

Definition render_state (projection modelView : QMatrix4x4) : RenderState :=
  mkRenderState modelView [] projection 0%Z 0%Z Vec3.zero.

(** a mesh whose bounding box has the midpoint [mid] *)
Definition mesh_around (mid : Vec3f) : TriangleMesh := set_boundingBoxMid mid new_mesh.

(** the perspective projection with near plane 1, far plane 3 and 3/4 as
    the cotangent of the half angle, for the aspect ratio 1 *)
Definition sample_projection : QMatrix4x4 :=
  of_rows [ [ Fin (3 / 4); Fin 0; Fin 0; Fin 0 ];
            [ Fin 0; Fin (3 / 4); Fin 0; Fin 0 ];
            [ Fin 0; Fin 0; Fin (-2); Fin (-3) ];
            [ Fin 0; Fin 0; Fin (-1); Fin 0 ] ].

(** the same projection with the far plane at 1025 *)
Definition deep_projection : QMatrix4x4 :=
  of_rows [ [ Fin (3 / 4); Fin 0; Fin 0; Fin 0 ];
            [ Fin 0; Fin (3 / 4); Fin 0; Fin 0 ];
            [ Fin 0; Fin 0; Fin (- (513 / 512)); Fin (- (1025 / 512)) ];
            [ Fin 0; Fin 0; Fin (-1); Fin 0 ] ].

(** The classification as the specification words it.  The six planes are
    extracted from [VP] by the standard identities, row 3 + row [r] and
    row 3 - row [r] for [r] = 0, 1, 2, and normalized; a plane extracted
    this way has its inside where [n . p + d >= 0]. *)
Definition spec_planes (VP : QMatrix4x4) : list Plane :=
  [ normalized (plane_sum VP 0); normalized (plane_difference VP 0);
    normalized (plane_sum VP 1); normalized (plane_difference VP 1);
    normalized (plane_sum VP 2); normalized (plane_difference VP 2) ].

Definition spec_inside_half_space (p : QVector3D) (plane : Plane) : bool :=
  fle (Fin 0) (fadd (dotProduct (n plane) p) (d plane)).

(** visible iff the midpoint lies on the inside half-space of all 6 planes *)
Definition spec_visible (m : TriangleMesh) (projection modelView : QMatrix4x4) : bool :=
  forallb (spec_inside_half_space (midpoint m)) (spec_planes (mmul projection modelView)).

End FrustumTerms.

Section BufferTerms.

Import Mesh.
Local Open Scope Z_scope.

(** the nine slots for buffer names and the three for vertex-array names *)
Definition buffer_slots (m : TriangleMesh) : list GLuint :=
  [ val (VBOv m); val (VBOn m); val (VBOf m); val (VBOc m); val (VBOt m);
    val (VBOtan m); val (VBOvbb m); val (VBOfbb m); val (VBOvn m) ].

Definition vertex_array_slots (m : TriangleMesh) : list GLuint :=
  [ val (VAO m); val (VAObb m); val (VAOn m) ].

Definition texture_slots (m : TriangleMesh) : list GLuint :=
  [ val (textureID m); val (normalMapID m); val (displacementMapID m) ].

(** the five buffer slots every run of createAllVBOs writes *)
Definition rewritten_slots (m : TriangleMesh) : list GLuint :=
  [ val (VBOf m); val (VBOv m); val (VBOn m); val (VBOvbb m); val (VBOfbb m) ].

(** a slot names an object: a slot that holds 0 names none *)
Definition names (slots : list GLuint) (id : GLuint) : Prop := id <> 0 /\ In id slots.

(** the same object names are alive in both contexts *)
Definition same_objects (c c' : GL.context) : Prop :=
  (forall id, In id (GL.buffers c') <-> In id (GL.buffers c)) /\
  (forall id, In id (GL.vertex_arrays c') <-> In id (GL.vertex_arrays c)).

(** the list [new] holds what [old] holds and the objects [made] names,
    none of which was in [old] *)
Definition grown (old new made : list GLuint) : Prop :=
  (forall id, In id new <-> In id old \/ names made id) /\
  (forall id, names made id -> ~ In id old).

(** a mesh with a vertex buffer, in a context where that buffer is alive *)
Definition mesh_with_buffer : TriangleMesh :=
  fst (createAllVBOs new_mesh empty_context).

Definition context_with_buffer : GL.context :=
  snd (createAllVBOs new_mesh empty_context).

End BufferTerms.

Section NormalTerms.

Import Mesh.
Local Open Scope Z_scope.

(** the three indices of a triangle address vertices of the mesh *)
Definition in_range (m : TriangleMesh) (t : Triangle) : Prop :=
  forall index, In index [i0 t; i1 t; i2 t] ->
                0 <= index < Z.of_nat (List.length (vertices m)).

(** a single triangle on three vertices *)
Definition one_triangle : TriangleMesh :=
  set_triangles [mkVec3ui 0 1 2] (set_vertices [corner0; corner1; corner2] new_mesh).

End NormalTerms.

Section BoxTerms.

Import Mesh.
Local Open Scope R_scope.

(** a float other than NaN and the infinities *)
Definition finite (a : float) : Prop :=
  fle (fopp FLT_MAX) a = true /\ fle a FLT_MAX = true.

Definition finite_vertex (p : Vec3f) : Prop :=
  finite (x p) /\ finite (y p) /\ finite (z p).

(** [p] lies in the box between the corners [lo] and [hi] *)
Definition within (lo hi p : Vec3f) : Prop :=
  (fle (x lo) (x p) = true /\ fle (x p) (x hi) = true)
  /\ (fle (y lo) (y p) = true /\ fle (y p) (y hi) = true)
  /\ (fle (z lo) (z p) = true /\ fle (z p) (z hi) = true).

(** each side of the box touches a vertex *)
Definition touches (lo hi : Vec3f) (vs : list Vec3f) : Prop :=
  (In (x lo) (map x vs) /\ In (x hi) (map x vs))
  /\ (In (y lo) (map y vs) /\ In (y hi) (map y vs))
  /\ (In (z lo) (map z vs) /\ In (z hi) (map z vs)).

End BoxTerms.

Section LoaderTerms.

Import Mesh.

(** the corners are those of the box around the vertices read so far, and
    no colour has been stored *)
Definition loading (m : TriangleMesh) : Prop :=
  boundingBoxMin m
  = fold_left (fun acc p => min3 p acc) (vertices m) (mkVec3f FLT_MAX FLT_MAX FLT_MAX)
  /\ boundingBoxMax m
     = fold_left (fun acc p => max3 p acc) (vertices m)
         (mkVec3f (fopp FLT_MAX) (fopp FLT_MAX) (fopp FLT_MAX))
  /\ colors m = [].

End LoaderTerms.

Section HangTerms.

Import Mesh.

(** the loop in front of a vertex line whose third coordinate is no number *)
Definition before_bad_vertex : loader :=
  mkLoader (IStream.open ("v 1 2 x" ++ nl ++ "v 0 0 0" ++ nl)%string) new_mesh [].

End HangTerms.

Section ScaleTerms.

Import Mesh.

(** the bounding box has no extent: its size is 0 in each coordinate *)
Definition flat_box (m : TriangleMesh) : Prop :=
  feq (x (boundingBoxSize m)) (Fin 0) = true
  /\ feq (y (boundingBoxSize m)) (Fin 0) = true
  /\ feq (z (boundingBoxSize m)) (Fin 0) = true.

(** NaN or an infinity *)
Definition no_number (a : float) : Prop :=
  match a with Fin _ => False | _ => True end.

Definition no_coordinate (p : Vec3f) : Prop :=
  no_number (x p) /\ no_number (y p) /\ no_number (z p).

End ScaleTerms.

(** * Properties *)

(** ** Arithmetic facts *)

Lemma to_int32_id (z : Z) : (Int.INT_MIN <= z <= Int.INT_MAX)%Z -> Int.to_int32 z = z.
Proof.
  unfold Int.to_int32, Int.INT_MIN, Int.INT_MAX. intros H.
  rewrite Z.mod_small by lia. lia.
Qed.

Lemma to_uint32_id (z : Z) : (0 <= z < 2 ^ 32)%Z -> Int.to_uint32 z = z.
Proof. unfold Int.to_uint32. intros H. now apply Z.mod_small. Qed.

Section FloatFacts.

Local Open Scope R_scope.

Lemma Rltb_true (a b : R) : a < b -> Rltb a b = true.
Proof.
  unfold Rltb. intros H. destruct (Rlt_dec a b); [reflexivity | contradiction].
Qed.

Lemma Rltb_false (a b : R) : b <= a -> Rltb a b = false.
Proof.
  unfold Rltb. intros H. destruct (Rlt_dec a b); [lra | reflexivity].
Qed.

Lemma Rltb_lt (a b : R) : Rltb a b = true -> a < b.
Proof. unfold Rltb. destruct (Rlt_dec a b); [trivial | discriminate]. Qed.

Lemma Rltb_ge (a b : R) : Rltb a b = false -> b <= a.
Proof. unfold Rltb. destruct (Rlt_dec a b); [discriminate | lra]. Qed.

Lemma Reqb_true (a b : R) : a = b -> Reqb a b = true.
Proof.
  unfold Reqb. intros H. destruct (Req_dec_T a b); [reflexivity | contradiction].
Qed.

Lemma Reqb_false (a b : R) : a <> b -> Reqb a b = false.
Proof.
  unfold Reqb. intros H. destruct (Req_dec_T a b); [contradiction | reflexivity].
Qed.

Lemma fdiv_Fin (a b : R) : b <> 0 -> fdiv (Fin a) (Fin b) = Fin (a / b).
Proof. intros H. simpl. now rewrite Reqb_false. Qed.

Lemma fdiv_zero_zero : fdiv (Fin 0) (Fin 0) = NaN.
Proof. simpl. now rewrite !Reqb_true. Qed.

Lemma fsqrt_Fin (a : R) : 0 <= a -> fsqrt (Fin a) = Fin (sqrt a).
Proof. intros H. simpl. now rewrite Rltb_false. Qed.

End FloatFacts.

(** Decides the comparisons of reals that stand in the goal. *)
Ltac real_cases :=
  repeat match goal with
    | |- context [Rltb ?a ?b] =>
        first [ rewrite (Rltb_true a b) by lra | rewrite (Rltb_false a b) by lra ]
    | |- context [Reqb ?a ?b] =>
        first [ rewrite (Reqb_true a b) by lra | rewrite (Reqb_false a b) by lra ]
    end.

(** ** The camera pitch *)

Section CameraPitch.

Import Camera.
Local Open Scope R_scope.

Lemma angleY_cameraRotates (view : OpenGLView) (deltaX deltaY : float) :
  angleY (cameraRotates view deltaX deltaY) = clamp_pitch (fadd (angleY view) deltaY).
Proof. reflexivity. Qed.

Lemma clamp_pitch_in_range (a : float) : pitch_in_range (clamp_pitch a).
Proof.
  unfold pitch_in_range, clamp_pitch, std_max, std_min.
  destruct a as [ | [ | ] | r ]; simpl.
  - real_cases. simpl. real_cases. auto.
  - real_cases. simpl. real_cases. auto.
  - real_cases. simpl. real_cases. auto.
  - destruct (Rlt_dec 70 r) as [H | H].
    + rewrite (Rltb_true 70 r) by lra. simpl. real_cases. simpl. real_cases. auto.
    + rewrite (Rltb_false 70 r) by lra. simpl.
      destruct (Rlt_dec (-70) r) as [H' | H'].
      * rewrite (Rltb_true (-70) r) by lra. simpl. real_cases. auto.
      * rewrite (Rltb_false (-70) r) by lra. simpl. real_cases. auto.
Qed.

Lemma clamp_pitch_high (a : float) : fle (Fin 70) a = true -> clamp_pitch a = Fin 70.
Proof.
  unfold clamp_pitch, std_max, std_min.
  destruct a as [ | [ | ] | r ]; simpl; try discriminate.
  - intros _. real_cases. reflexivity.
  - intros H. apply negb_true_iff, Rltb_ge in H.
    destruct (Rlt_dec 70 r) as [H' | H'].
    + rewrite (Rltb_true 70 r) by lra. simpl. real_cases. reflexivity.
    + rewrite (Rltb_false 70 r) by lra. simpl. real_cases.
      f_equal. lra.
Qed.

Lemma add_1000_high (a : float) :
  fle (Fin (-930)) a = true -> fle (Fin 70) (fadd a (Fin 1000)) = true.
Proof.
  destruct a as [ | [ | ] | r ]; simpl; try discriminate; trivial.
  intros H. apply negb_true_iff, Rltb_ge in H.
  apply negb_true_iff, Rltb_false. lra.
Qed.

Lemma add_positive_high (dY : float) :
  flt (Fin 0) dY = true -> fle (Fin 70) (fadd (Fin 70) dY) = true.
Proof.
  destruct dY as [ | [ | ] | r ]; simpl; try discriminate; trivial.
  intros H. apply Rltb_lt in H.
  apply negb_true_iff, Rltb_false. lra.
Qed.

Lemma in_range_above_930 (a : float) : pitch_in_range a -> fle (Fin (-930)) a = true.
Proof.
  intros [H _]. destruct a as [ | [ | ] | r ]; simpl in *; try discriminate; trivial.
  apply negb_true_iff, Rltb_ge in H. apply negb_true_iff, Rltb_false. lra.
Qed.

Lemma rotations_last (view : OpenGLView) (calls : list (float * float)) (c : float * float) :
  rotations view (calls ++ [c]) = cameraRotates (rotations view calls) (fst c) (snd c).
Proof. unfold rotations. now rewrite fold_left_app. Qed.

Lemma fle_below (a : float) (lo lo' : R) :
  lo' <= lo -> fle (Fin lo) a = true -> fle (Fin lo') a = true.
Proof.
  intros H. destruct a as [ | [ | ] | r ]; simpl; try discriminate; trivial.
  intros H'. apply negb_true_iff, Rltb_ge in H'. apply negb_true_iff, Rltb_false. lra.
Qed.

(** the length of the vector setDefaults normalizes lies between 1.47 and
    1.48 *)
Lemma length_of_default_direction :
  exists s, 147 / 100 < s < 148 / 100
            /\ qlength (mkQVector3D (Fin (3 / 10)) (Fin (- (12 / 10))) (Fin (- (8 / 10))))
               = Fin s.
Proof.
  unfold qlength. cbn [qx qy qz fmul fadd].
  rewrite fsqrt_Fin by lra.
  eexists. split; [ | reflexivity ].
  match goal with
  | |- _ < sqrt ?e < _ =>
      pose proof (sqrt_sqrt e ltac:(lra)) as E; pose proof (sqrt_pos e) as P;
      set (s := sqrt e) in *
  end.
  nra.
Qed.

(** setDefaults leaves a pitch between -90 and 90 degrees *)
Lemma angleY_setDefaults (view : OpenGLView) :
  exists a, -90 <= a <= 90 /\ angleY (setDefaults view) = Fin a.
Proof.
  unfold setDefaults. cbn [angleY]. unfold QVector3D_normalized.
  destruct length_of_default_direction as (s & Hs & ->).
  unfold qFuzzyIsNull. cbn [fsub fopp fadd fabs fle].
  rewrite (Rabs_pos_eq (s + - (1))) by lra. rewrite (Rabs_pos_eq s) by lra.
  real_cases. cbn [negb qdiv qy].
  rewrite fdiv_Fin by lra.
  assert (I : s * / s = 1) by (field; lra).
  assert (I' : 0 < / s) by (apply Rinv_0_lt_compat; lra).
  assert (B : Rabs (- (12 / 10) / s) <= 1) by (apply Rabs_le; unfold Rdiv; nra).
  unfold fasin. rewrite Rltb_false by exact B.
  pose proof PI_RGT_0 as HPI.
  cbn [fmul]. unfold M_PI. rewrite fdiv_Fin by lra.
  eexists. split; [ | reflexivity ].
  pose proof (asin_bound (- (12 / 10) / s)) as A.
  set (t := asin (- (12 / 10) / s)) in *.
  assert (J : PI * / PI = 1) by (field; lra).
  assert (J' : 0 < / PI) by (apply Rinv_0_lt_compat; lra).
  unfold Rdiv in *. nra.
Qed.

(** in every state the widget can be in the pitch is at least -90 degrees *)
Lemma reachable_pitch (view : OpenGLView) :
  reachable view -> fle (Fin (-90)) (angleY view) = true.
Proof.
  induction 1 as [ view | view dX dY _ _ | view dX dY dZ _ IH ].
  - destruct (angleY_setDefaults view) as (a & Ha & ->).
    simpl. rewrite Rltb_false by lra. reflexivity.
  - rewrite angleY_cameraRotates. apply (fle_below _ (-70)); [ lra | ].
    apply clamp_pitch_in_range.
  - exact IH.
Qed.

(** C8: in every state the widget can be in (the constructor and the reset
    button run setDefaults; cameraRotates and cameraMoves are the only other
    functions that write the camera), after every rotate call, and so after
    each call of every sequence of them, angleY lies in [-70, 70]; a rotate
    call with pitch delta +1000 sets angleY to exactly 70; and further
    rotate calls with a positive pitch delta keep it at exactly 70. *)
Theorem C8_pitch_clamped (view : OpenGLView) :
  reachable view ->
  (forall calls, calls <> [] -> pitch_in_range (angleY (rotations view calls)))
  /\ (forall dX, angleY (cameraRotates view dX (Fin 1000)) = Fin 70)
  /\ (forall dX calls,
        positive_pitch calls ->
        angleY (rotations (cameraRotates view dX (Fin 1000)) calls) = Fin 70).
Proof.
  intros R.
  assert (H1000 : forall dX, angleY (cameraRotates view dX (Fin 1000)) = Fin 70).
  { intros dX. rewrite angleY_cameraRotates.
    apply clamp_pitch_high, add_1000_high, (fle_below _ (-90)); [ lra | ].
    apply reachable_pitch, R. }
  split; [ | split ].
  - intros calls H. destruct calls as [ | c calls ] using rev_ind; [ contradiction | ].
    rewrite rotations_last, angleY_cameraRotates. apply clamp_pitch_in_range.
  - exact H1000.
  - intros dX calls. induction calls as [ | c calls IH ] using rev_ind; intros H.
    + apply H1000.
    + apply Forall_app in H. destruct H as [ H Hc ]. inversion Hc as [ | ? ? Hc' _ ]; subst.
      rewrite rotations_last, angleY_cameraRotates, (IH H).
      apply clamp_pitch_high, add_positive_high, Hc'.
Qed.

(** The camera a new widget has, rotated twice; rotated up by 1000 degrees;
    and rotated up further. *)
Lemma C8_pitch_clamped_witness :
  pitch_in_range
    (angleY (rotations (setDefaults view_down) [(Fin 3, Fin 1000); (Fin 3, Fin (-5))]))
  /\ angleY (cameraRotates (setDefaults view_down) (Fin 3) (Fin 1000)) = Fin 70
  /\ angleY (rotations (cameraRotates (setDefaults view_down) (Fin 3) (Fin 1000))
               [(Fin 0, Fin 1000); (Fin 1, Fin 2)]) = Fin 70.
Proof.
  split; [ | split ].
  - apply (proj1 (C8_pitch_clamped _ (after_setDefaults view_down))). discriminate.
  - apply (proj1 (proj2 (C8_pitch_clamped _ (after_setDefaults view_down)))).
  - apply (proj2 (proj2 (C8_pitch_clamped _ (after_setDefaults view_down)))).
    repeat constructor; simpl; real_cases; reflexivity.
Defined.

End CameraPitch.

(** ** Moving and clearing a mesh *)

Section MeshLifecycle.

Import Mesh.
Local Open Scope Z_scope.

(** C2, as stated, fails for move assignment: assigning a mesh whose slots
    hold 7 to a mesh whose slots hold 9 leaves 9, not 0, in every slot of
    the source. *)
Lemma C2_move_assignment_counterexample :
  Forall (fun h => h <> 0) (handles (mesh_with_handles 7))
  /\ handles (snd (move_assign (mesh_with_handles 9) (mesh_with_handles 7))) = repeat 9 15
  /\ ~ all_zero (handles (snd (move_assign (mesh_with_handles 9) (mesh_with_handles 7)))).
Proof.
  split; [ | split ].
  - repeat constructor; discriminate.
  - reflexivity.
  - intros H. inversion H as [ | ? ? E _ ]. discriminate E.
Qed.

(** C2, amended: move construction gives the new mesh the handle values of
    the source and leaves 0 in every slot of the source; move assignment
    swaps slot by slot, so the destination holds the values the source had
    and the source holds the values the destination had, which are 0 exactly
    where the destination's were; copy construction and copy assignment are
    deleted. *)
Theorem C2_moves_transfer_handles (this other : TriangleMesh) :
  handles (fst (move_construct other)) = handles other
  /\ all_zero (handles (snd (move_construct other)))
  /\ handles (fst (move_assign this other)) = handles other
  /\ handles (snd (move_assign this other)) = handles this
  /\ TriangleMesh_declares copy_constructor = deleted
  /\ TriangleMesh_declares copy_assignment = deleted.
Proof.
  repeat split.
  repeat constructor.
Qed.

Lemma clear_result (m : TriangleMesh) (c : GL.context) :
  let m' := fst (clear m c) in
  vertices m' = [] /\ triangles m' = [] /\ normals m' = [] /\ colors m' = []
  /\ texCoords m' = []
  /\ tangents m' = tangents m
  /\ boundingBoxMin m' = mkVec3f FLT_MAX FLT_MAX FLT_MAX
  /\ boundingBoxMax m' = mkVec3f (fopp FLT_MAX) (fopp FLT_MAX) (fopp FLT_MAX).
Proof.
  unfold clear, cleanupVBO. cbn [f].
  destruct (f m);
    cbn [fst cleanupVBO_with vertices triangles normals colors texCoords tangents
         boundingBoxMin boundingBoxMax];
    repeat split.
Qed.

Lemma length_grid (rows columns : nat) : List.length (grid rows columns) = (rows * columns)%nat.
Proof.
  unfold grid. generalize 0%nat at 2. induction rows as [ | rows IH ]; intros start; simpl.
  - reflexivity.
  - rewrite length_app, length_map, length_seq, IH. reflexivity.
Qed.

Lemma tangents_set_handles h1 h2 h3 h4 h5 h6 h7 h8 h9 h10 h11 h12 m :
  tangents (set_handles h1 h2 h3 h4 h5 h6 h7 h8 h9 h10 h11 h12 m) = tangents m.
Proof. destruct m. reflexivity. Qed.

Lemma tangents_createAllVBOs (m : TriangleMesh) (c : GL.context) :
  tangents (fst (createAllVBOs m c)) = tangents m.
Proof.
  unfold createAllVBOs. destruct (f m); [ | reflexivity ].
  repeat match goal with
    | |- context [match ?e with pair _ _ => _ end] => destruct e
    | |- context [if ?b then _ else _] => destruct b
    end; cbn [fst]; apply tangents_set_handles.
Qed.

Lemma tangents_generateSphere (m : TriangleMesh) (c : GL.context) :
  tangents (fst (generateSphere m c))
  = tangents m ++ map sphere_tangent (grid (S latdiv) (S longdiv)).
Proof. unfold generateSphere. now rewrite tangents_createAllVBOs. Qed.

(** C4 on the code: clear() empties vertices, triangles, normals, colors and
    texture coordinates and resets the bounding box to the sentinel, but it
    does not touch the tangents: after generateSphere on a new mesh and then
    clear(), the mesh still holds the 101 * 201 tangents of the sphere. *)
Theorem C4_clear_keeps_tangents :
  let sphere := generateSphere new_mesh empty_context in
  let m' := fst (clear (fst sphere) (snd sphere)) in
  tangents m' = tangents (fst sphere)
  /\ List.length (tangents m') = (101 * 201)%nat
  /\ vertices m' = [] /\ triangles m' = [] /\ normals m' = [] /\ colors m' = []
  /\ texCoords m' = []
  /\ boundingBoxMin m' = mkVec3f FLT_MAX FLT_MAX FLT_MAX
  /\ boundingBoxMax m' = mkVec3f (fopp FLT_MAX) (fopp FLT_MAX) (fopp FLT_MAX).
Proof.
  intros sphere m'.
  destruct (clear_result (fst sphere) (snd sphere))
    as (Hv & Ht & Hn & Hc & Hx & Htan & Hmin & Hmax).
  fold m' in Hv, Ht, Hn, Hc, Hx, Htan, Hmin, Hmax.
  split; [ exact Htan | ].
  split; [ | repeat split; assumption ].
  rewrite Htan. unfold sphere.
  rewrite tangents_generateSphere, length_app, length_map, length_grid.
  reflexivity.
Qed.

End MeshLifecycle.

(** ** Heightmaps *)

Section HeightmapFacts.

Import Mesh.
Local Open Scope Z_scope.

Variable rand_values : nat -> Z.
Variable RAND_MAX : Z.

Lemma make_vector_nonneg {A : Type} (count : Z) (a : A) :
  0 <= count -> make_vector count a = Ret (repeat a (Z.to_nat count)).
Proof.
  intros H. unfold make_vector.
  destruct (Z.ltb_spec count 0); [lia | reflexivity].
Qed.

Lemma make_vector_negative {A : Type} (count : Z) (a : A) :
  count < 0 -> make_vector count a = Throw std_length_error.
Proof.
  intros H. unfold make_vector.
  destruct (Z.ltb_spec count 0); [reflexivity | lia].
Qed.

Lemma add_to_rows_no_columns (g : Z -> Z -> float) (x : Z) (heightmap : list (list float)) :
  add_to_rows g x 0 heightmap = heightmap.
Proof.
  revert x. induction heightmap as [ | row heightmap IH ]; intros x; simpl.
  - reflexivity.
  - rewrite IH. destruct row; reflexivity.
Qed.

Lemma faults_no_columns (rounds : nat) (displacementType : Z) (dd waveSize : float)
    (heightmap : list (list float)) (calls : nat) :
  hd [] heightmap = [] ->
  faults rand_values RAND_MAX rounds displacementType dd waveSize heightmap calls
  = (heightmap, (calls + 2 * rounds)%nat).
Proof.
  intros H. revert calls. induction rounds as [ | rounds IH ]; intros calls; simpl.
  - f_equal. lia.
  - unfold add_fault. rewrite H. simpl. rewrite add_to_rows_no_columns.
    rewrite IH. f_equal. lia.
Qed.

Lemma hd_degenerate_grid (l w : nat) :
  l = 0%nat \/ w = 0%nat -> hd [] (repeat (repeat Float.zero w) l) = [].
Proof.
  intros [-> | ->]; [reflexivity | ]. destruct l; reflexivity.
Qed.

End HeightmapFacts.

(** C3, as stated, fails: with length 0 and width 5 generateHeightmap
    raises no error, it returns a heightmap, the empty grid. *)
Lemma C3_zero_length_counterexample :
  Mesh.generateHeightmap sample_rand_values 32767 0 5 0 0 0 = Ret ([], 0%nat).
Proof. reflexivity. Qed.

(** C3, amended: generateHeightmap checks no dimension and knows no
    InvalidDimension error.  With a negative length or width the
    constructor of std::vector throws std::length_error and no heightmap is
    produced; with length 0 or width 0 (the other one not negative) it
    returns a heightmap of [l] rows of [w] zeros, that is an empty grid or
    empty rows, after drawing two random numbers per iteration. *)
Theorem C3_dimensions_unchecked (rand_values : nat -> Z) (RAND_MAX : Z)
    (l w iterations displacementType : Z) (calls : nat) :
  (l < 0 \/ w < 0 ->
   Mesh.generateHeightmap rand_values RAND_MAX l w iterations displacementType calls
   = Throw std_length_error)%Z
  /\ (0 <= l -> 0 <= w -> l = 0 \/ w = 0 ->
      Mesh.generateHeightmap rand_values RAND_MAX l w iterations displacementType calls
      = Ret (repeat (repeat Float.zero (Z.to_nat w)) (Z.to_nat l),
             (calls + 2 * Z.to_nat iterations)%nat))%Z.
Proof.
  unfold Mesh.generateHeightmap. split.
  - intros H. destruct (Z.ltb_spec w 0) as [Hw | Hw].
    + now rewrite make_vector_negative.
    + rewrite (make_vector_nonneg w) by assumption. simpl.
      rewrite make_vector_negative by lia. reflexivity.
  - intros Hl Hw H.
    rewrite (make_vector_nonneg w) by assumption. simpl.
    rewrite (make_vector_nonneg l) by assumption. simpl.
    rewrite faults_no_columns; [reflexivity | ].
    apply hd_degenerate_grid. lia.
Qed.

(** Length -1 throws; length 2 with width 0 gives two empty rows. *)
Lemma C3_dimensions_unchecked_witness :
  Mesh.generateHeightmap sample_rand_values 32767 (-1) 5 3 0 0 = Throw std_length_error
  /\ Mesh.generateHeightmap sample_rand_values 32767 2 0 3 0 0 = Ret ([ []; [] ], 6%nat).
Proof.
  split.
  - apply (proj1 (C3_dimensions_unchecked sample_rand_values 32767 (-1) 5 3 0 0)).
    left. reflexivity.
  - apply (proj2 (C3_dimensions_unchecked sample_rand_values 32767 2 0 3 0 0)).
    + discriminate.
    + discriminate.
    + right. reflexivity.
Defined.

(** C7: with at least one row and one column and no iteration,
    generateHeightmap returns, for every displacement kind, a grid of
    exactly [l] rows of [w] columns each in which every elevation is zero,
    and draws no random number. *)
Theorem C7_no_iteration_all_zero (rand_values : nat -> Z) (RAND_MAX : Z)
    (l w displacementType : Z) (calls : nat) :
  (1 <= l)%Z -> (1 <= w)%Z ->
  exists heightmap,
    Mesh.generateHeightmap rand_values RAND_MAX l w 0 displacementType calls
    = Ret (heightmap, calls)
    /\ Z.of_nat (List.length heightmap) = l
    /\ Forall (fun row => Z.of_nat (List.length row) = w
                          /\ Forall (fun h => h = Fin 0) row) heightmap.
Proof.
  intros Hl Hw.
  exists (repeat (repeat Float.zero (Z.to_nat w)) (Z.to_nat l)).
  split; [ | split ].
  - unfold Mesh.generateHeightmap.
    rewrite (make_vector_nonneg w) by lia. simpl.
    rewrite (make_vector_nonneg l) by lia. reflexivity.
  - rewrite repeat_length. lia.
  - apply Forall_forall. intros row Hrow. apply repeat_spec in Hrow. subst row.
    split.
    + rewrite repeat_length. lia.
    + apply Forall_forall. intros h Hh. apply repeat_spec in Hh. exact Hh.
Qed.

(** Two rows of three columns. *)
Lemma C7_no_iteration_all_zero_witness :
  exists heightmap,
    Mesh.generateHeightmap sample_rand_values 32767 2 3 0 1 0 = Ret (heightmap, 0%nat)
    /\ Z.of_nat (List.length heightmap) = 2%Z
    /\ Forall (fun row => Z.of_nat (List.length row) = 3%Z
                          /\ Forall (fun h => h = Fin 0) row) heightmap.
Proof.
  apply (C7_no_iteration_all_zero sample_rand_values 32767 2 3 1 0); lia.
Defined.

(** ** Faces of a polygon file *)

Section ObjFacts.

Import Mesh.
Local Open Scope Z_scope.

Lemma read_indices_numbers (fuel : nat) (nv : Z) (ss : IStream.istream) (acc : list Z) :
  map Int.to_uint32 (read_indices fuel nv ss acc)
  = map Int.to_uint32 acc ++ map (stored_index nv) (read_numbers fuel ss).
Proof.
  revert ss acc. induction fuel as [ | fuel IH ]; intros ss acc; simpl.
  - now rewrite app_nil_r.
  - destruct (IStream.read_int ss) as [num ss'].
    destruct (IStream.ok ss').
    + rewrite IH, map_app. simpl. now rewrite <- app_assoc.
    + now rewrite app_nil_r.
Qed.

Lemma face_indices_numbers (nv : Z) (line : string) :
  map Int.to_uint32 (face_indices nv line) = map (stored_index nv) (face_numbers line).
Proof. apply (read_indices_numbers _ nv _ []). Qed.

Lemma length_face_indices (nv : Z) (line : string) :
  List.length (face_indices nv line) = List.length (face_numbers line).
Proof.
  rewrite <- (length_map Int.to_uint32), face_indices_numbers. apply length_map.
Qed.

Lemma store_face_triangle (line : string) (m : TriangleMesh) (diag : list string) (a b c : Z) :
  face_numbers line = [a; b; c] ->
  let nv := Z.of_nat (List.length (vertices m)) in
  store_face line m diag
  = (set_triangles
       (triangles m ++ [mkVec3ui (stored_index nv a) (stored_index nv b) (stored_index nv c)])
       m, diag).
Proof.
  intros H nv. unfold store_face. fold nv.
  pose proof (face_indices_numbers nv line) as E.
  pose proof (length_face_indices nv line) as L.
  rewrite H in E, L. simpl in E, L.
  destruct (face_indices nv line) as [ | p [ | q [ | r [ | ? ? ] ] ] ]; try discriminate L.
  simpl in E. injection E as -> -> ->. reflexivity.
Qed.

Lemma store_face_dropped (line : string) (m : TriangleMesh) (diag : list string) :
  List.length (face_numbers line) <> 3%nat ->
  store_face line m diag = (m, diag ++ [not_a_triangle]).
Proof.
  intros H. unfold store_face.
  rewrite <- (length_face_indices (Z.of_nat (List.length (vertices m)))) in H.
  destruct (face_indices _ line) as [ | p [ | q [ | r [ | ? ? ] ] ] ];
    try reflexivity.
  now contradiction H.
Qed.

Lemma stored_index_positive (nv k : Z) :
  1 <= k <= Int.INT_MAX -> stored_index nv k = k - 1.
Proof.
  unfold stored_index, Int.INT_MAX. intros H.
  destruct (Z.ltb_spec k 0); [lia | ].
  rewrite to_int32_id by (unfold Int.INT_MIN, Int.INT_MAX; lia).
  apply to_uint32_id. lia.
Qed.

Lemma stored_index_negative (nv k : Z) :
  0 <= nv <= Int.INT_MAX -> k < 0 -> 1 <= nv + 1 + k ->
  stored_index nv k = nv + 1 + k - 1.
Proof.
  unfold stored_index, Int.INT_MAX. intros Hnv Hk H.
  destruct (Z.ltb_spec k 0); [ | lia ].
  unfold Int.to_size_t. rewrite Z.mod_small by lia.
  rewrite (to_int32_id (nv + 1 + k)) by (unfold Int.INT_MIN, Int.INT_MAX; lia).
  rewrite to_int32_id by (unfold Int.INT_MIN, Int.INT_MAX; lia).
  apply to_uint32_id. lia.
Qed.

Lemma load_step_face (st : loader) (in1 in2 : IStream.istream) (line : string) :
  IStream.read_string (input st) = ("f"%string, in1) ->
  IStream.getline in1 = (line, in2) ->
  load_step st
  = Ret (mkLoader in2 (fst (store_face line (mesh st) (diagnostics st)))
                      (snd (store_face line (mesh st) (diagnostics st)))).
Proof.
  intros H1 H2. unfold load_step. rewrite H1. simpl. rewrite H2.
  destruct (store_face line (mesh st) (diagnostics st)). reflexivity.
Qed.

End ObjFacts.

(** ** Fuel *)

Section Fuel.

Import Mesh.
Import IStream.

Lemma length_skipws (l : list ascii) : (List.length (skipws l) <= List.length l)%nat.
Proof.
  induction l as [ | c l IH ]; simpl; [ lia | ].
  destruct (isspace c); simpl; lia.
Qed.

Lemma length_take_while (p : ascii -> bool) (l : list ascii) :
  (List.length (fst (take_while p l)) + List.length (snd (take_while p l)))%nat
  = List.length l.
Proof.
  induction l as [ | c l IH ]; simpl; [ reflexivity | ].
  destruct (p c); simpl; [ | reflexivity ].
  destruct (take_while p l) as [w r]. simpl in *. lia.
Qed.

Lemma length_take_sign (l : list ascii) :
  (List.length (snd (take_sign l)) <= List.length l)%nat.
Proof.
  destruct l as [ | c l ]; simpl; [ lia | ].
  destruct (is_char 45 c); simpl; [ lia | ].
  destruct (is_char 43 c); simpl; lia.
Qed.

(** A successful extraction of an [int] consumes at least one character. *)
Lemma read_int_consumes (s : istream) :
  ok (snd (read_int s)) = true ->
  failbit s = false ->
  (List.length (rest (snd (read_int s))) < List.length (rest s))%nat.
Proof.
  unfold read_int, sentry. intros Hok Hf.
  destruct (good s) eqn:G; [ | unfold ok, set_fail in Hok; simpl in Hok; discriminate ].
  pose proof (length_skipws (rest s)) as Hs.
  destruct (skipws (rest s)) as [ | c l ] eqn:E; [ discriminate | ].
  cbn [rest] in *.
  pose proof (length_take_sign (c :: l)) as Hg.
  destruct (take_sign (c :: l)) as [neg l1]. cbn [snd] in Hg.
  pose proof (length_take_while isdigit l1) as Hw.
  destruct (take_while isdigit l1) as [ds r]. cbn [fst snd] in Hw.
  destruct ds as [ | dgt ds ]; [ discriminate | ].
  cbn [List.length] in *.
  destruct (_ <? Int.INT_MIN)%Z; [ discriminate | ].
  destruct (Int.INT_MAX <? _)%Z; [ discriminate | ].
  cbn [snd rest advanced]. lia.
Qed.

Lemma read_int_keeps_ok (s : istream) :
  ok (snd (read_int s)) = true -> failbit s = false.
Proof.
  unfold read_int, sentry. destruct (good s) eqn:G.
  - unfold good in G. intros _. destruct (failbit s); [ discriminate | reflexivity ].
  - simpl. unfold ok. simpl. discriminate.
Qed.

(** More fuel than the line has characters changes nothing. *)
Lemma read_indices_enough_fuel (fuel extra : nat) (nv : Z) (ss : istream) (acc : list Z) :
  (List.length (rest ss) < fuel)%nat ->
  read_indices (fuel + extra) nv ss acc = read_indices fuel nv ss acc.
Proof.
  revert ss acc. induction fuel as [ | fuel IH ]; intros ss acc H; [ lia | ].
  simpl.
  pose proof (read_int_consumes ss) as Hc. pose proof (read_int_keeps_ok ss) as Hk.
  destruct (read_int ss) as [num ss']. simpl in Hc, Hk.
  destruct (ok ss') eqn:Hok; [ | reflexivity ].
  apply IH. specialize (Hc eq_refl (Hk eq_refl)). lia.
Qed.

(** A loop that has returned returns the same with more fuel. *)
Lemma load_loop_more_fuel (fuel extra : nat) (st st' : loader) :
  load_loop fuel st = Ret st' -> load_loop (fuel + extra) st = Ret st'.
Proof.
  revert st. induction fuel as [ | fuel IH ]; intros st; simpl.
  - destruct (eof (input st)) eqn:E; [ | discriminate ].
    intros H. destruct extra; simpl; now rewrite E.
  - destruct (eof (input st)); [ trivial | ].
    destruct (load_step st) as [ st1 | | | ]; simpl; try discriminate.
    apply IH.
Qed.

(** Once the stream has failed before its end, a round changes nothing
    any more: the loop does not end. *)
Lemma load_step_failed (st : loader) :
  failbit (input st) = true -> load_step st = Ret st.
Proof.
  destruct st as [ [r fb eb] m dg ]. simpl. intros ->.
  unfold load_step, read_string, sentry, good. simpl.
  unfold ignore_line, good. simpl. reflexivity.
Qed.

Lemma load_loop_failed (fuel : nat) (st : loader) :
  failbit (input st) = true -> eofbit (input st) = false ->
  load_loop fuel st = OutOfFuel.
Proof.
  intros Hf He. induction fuel as [ | fuel IH ]; simpl; unfold eof; rewrite He.
  - reflexivity.
  - rewrite (load_step_failed st Hf). simpl. exact IH.
Qed.
End Fuel.

Section ObjClaims.

Import Mesh.
Local Open Scope Z_scope.

(** C9: in a round of the loop that reads the directive [f], a line of
    exactly three numbers appends one triangle whose indices are the numbers
    minus one, a negative number [k] counting as [vertices.size() + 1 + k];
    a line of any other count of numbers appends nothing and logs the
    diagnostic; in both cases the round returns with the stream just behind
    the line, so loading goes on.  The file of four vertices, two triangular
    faces and one face of five indices loads as four vertices and two
    triangles, with one diagnostic. *)
Theorem C9_only_triangles_are_stored
    (st : loader) (in1 in2 : IStream.istream) (line : string) :
  IStream.read_string (input st) = ("f"%string, in1) ->
  IStream.getline in1 = (line, in2) ->
  let m := mesh st in
  let nv := Z.of_nat (List.length (vertices m)) in
  (forall a b c, face_numbers line = [a; b; c] ->
     load_step st
     = Ret (mkLoader in2
              (set_triangles
                 (triangles m
                  ++ [mkVec3ui (stored_index nv a) (stored_index nv b) (stored_index nv c)]) m)
              (diagnostics st)))
  /\ (List.length (face_numbers line) <> 3%nat ->
      load_step st = Ret (mkLoader in2 m (diagnostics st ++ [not_a_triangle])))
  /\ (forall k, 1 <= k <= Int.INT_MAX -> stored_index nv k = k - 1)
  /\ (forall k, nv <= Int.INT_MAX -> k < 0 -> 1 <= nv + 1 + k ->
                stored_index nv k = nv + 1 + k - 1)
  /\ returns
       (loadOBJ (one_file "quad.obj" quad_file) 100 "quad.obj" false new_mesh empty_context [])
       (fun '(loaded, _, diag) =>
          List.length (vertices loaded) = 4%nat
          /\ triangles loaded = [mkVec3ui 0 1 2; mkVec3ui 0 2 3]
          /\ diag = [not_a_triangle]).
Proof.
  intros H1 H2 m nv. split; [ | split; [ | split; [ | split ] ] ].
  - intros a b c H. rewrite (load_step_face st in1 in2 line H1 H2).
    fold m. rewrite (store_face_triangle line m (diagnostics st) a b c H). reflexivity.
  - intros H. rewrite (load_step_face st in1 in2 line H1 H2).
    fold m. rewrite (store_face_dropped line m (diagnostics st) H). reflexivity.
  - intros k H. now apply stored_index_positive.
  - intros k Hnv Hk H. apply stored_index_negative; trivial. unfold nv. lia.
  - vm_compute. repeat split.
Qed.

(** A round on the line [f 1 -2 -1] stores the triangle (0, 2, 3); a round on
    the line [f 1 2 3 4 1] stores nothing and logs the diagnostic. *)
Lemma C9_only_triangles_are_stored_witness :
  load_step before_triangle
  = Ret (mkLoader (IStream.open ("v 2 2 2" ++ nl)%string)
           (set_triangles [mkVec3ui 0 2 3] (mesh before_triangle)) [])
  /\ load_step before_pentagon
     = Ret (mkLoader (IStream.open ("v 2 2 2" ++ nl)%string)
              (mesh before_pentagon) [not_a_triangle]).
Proof.
  split.
  - apply (proj1 (C9_only_triangles_are_stored before_triangle
                    (IStream.open (" 1 -2 -1" ++ nl ++ "v 2 2 2" ++ nl)%string)
                    (IStream.open ("v 2 2 2" ++ nl)%string)
                    " 1 -2 -1" eq_refl eq_refl) 1 (-2) (-1)).
    reflexivity.
  - apply (proj1 (proj2 (C9_only_triangles_are_stored before_pentagon
                    (IStream.open (" 1 2 3 4 1" ++ nl ++ "v 2 2 2" ++ nl)%string)
                    (IStream.open ("v 2 2 2" ++ nl)%string)
                    " 1 2 3 4 1" eq_refl eq_refl))).
    discriminate.
Defined.

(** C10: loadOBJ accepts a file whose faces name vertices that do not
    exist.  From a file with one vertex, the face [1 2 3] and the face
    [0 1 1], it returns a mesh with one vertex and the triangles (0, 1, 2)
    and (4294967295, 0, 0): each has an index that is not less than the
    number of vertices. *)
Theorem C10_face_indices_are_not_validated :
  returns
    (loadOBJ (one_file "stray.obj" stray_file) 100 "stray.obj" false new_mesh empty_context [])
    (fun '(loaded, _, diag) =>
       List.length (vertices loaded) = 1%nat
       /\ triangles loaded = [mkVec3ui 0 1 2; mkVec3ui 4294967295 0 0]
       /\ Forall (out_of_range loaded) (triangles loaded)
       /\ diag = []).
Proof.
  vm_compute. repeat split.
  repeat constructor.
  - exists 1. split; [ right; left; reflexivity | discriminate ].
  - exists 4294967295. split; [ left; reflexivity | discriminate ].
Qed.

(** When the file brings no normals, the stray index is used to address the
    vertices in calculateNormalsByArea: undefined behaviour. *)
Lemma loadOBJ_stray_index_without_normals :
  loadOBJ (one_file "stray.obj" stray_file_without_normal) 100 "stray.obj" false
    new_mesh empty_context []
  = Undefined.
Proof. vm_compute. reflexivity. Qed.

End ObjClaims.

(** ** Normals and texture coordinates *)

(** Evaluates the program, leaving the arithmetic of reals as it stands. *)
Ltac evaluate :=
  cbv - [Rltb Reqb sqrt Rplus Rminus Rmult Rdiv Rinv Ropp IZR PI atan asin sin cos
         Rabs Int_part].

(** Evaluates, deciding the comparisons of reals on the way. *)
Ltac crunch := repeat (progress (evaluate; real_cases)).

(** Replaces the square roots whose value is [c]. *)
Ltac sqrt_to c :=
  repeat match goal with
    | |- context [sqrt ?e] =>
        replace (sqrt e) with c by (symmetry; apply sqrt_lem_1; lra)
    end.

Section Synthesis.

Import Mesh.
Local Open Scope R_scope.

Lemma Vec3f_eq (a b c a' b' c' : R) :
  a = a' -> b = b' -> c = c' ->
  mkVec3f (Fin a) (Fin b) (Fin c) = mkVec3f (Fin a') (Fin b') (Fin c').
Proof. now intros -> -> ->. Qed.

Lemma add_zero_l (w : Vec3f) : Vec3.add Vec3.zero w = w.
Proof.
  destruct w as [ [ | | a ] [ | | b ] [ | | c ] ]; unfold Vec3.add; simpl;
    repeat f_equal; lra.
Qed.

Lemma normalize_unit_length (a b c : R) :
  a * a + b * b + c * c <> 0 ->
  Vec3.length (Vec3.normalize (mkVec3f (Fin a) (Fin b) (Fin c))) = Fin 1.
Proof.
  intros H.
  assert (Hs : 0 < a * a + b * b + c * c) by nra.
  pose proof (sqrt_lt_R0 _ Hs) as Hl.
  pose proof (sqrt_sqrt (a * a + b * b + c * c) (Rlt_le _ _ Hs)) as Hq.
  unfold Vec3.normalize, Vec3.length. cbn [x y z fmul fadd].
  rewrite (fsqrt_Fin (a * a + b * b + c * c)) by lra.
  set (l := sqrt (a * a + b * b + c * c)) in *.
  rewrite !fdiv_Fin by lra. cbn [x y z fmul fadd].
  replace (a / l * (a / l) + b / l * (b / l) + c / l * (c / l)) with 1.
  - rewrite fsqrt_Fin by lra. now rewrite sqrt_1.
  - replace (a / l * (a / l) + b / l * (b / l) + c / l * (c / l))
      with ((a * a + b * b + c * c) / (l * l)) by (field; lra).
    rewrite Hq. field. lra.
Qed.

(** When no normal is there on entry, a mesh of three vertices and the
    triangle (0, 1, 2) gets the normalised cross product of the two edge
    vectors as the normal of each vertex. *)
Lemma fresh_normals_of_one_triangle (m : TriangleMesh) (v0 v1 v2 : Vec3f) :
  vertices m = [v0; v1; v2] -> triangles m = [mkVec3ui 0 1 2] -> normals m = [] ->
  calculateNormalsByArea m
  = Ret (set_normals
           (repeat (Vec3.normalize (Vec3.cross (Vec3.sub v1 v0) (Vec3.sub v2 v0))) 3) m).
Proof.
  intros Hv Ht Hn. unfold calculateNormalsByArea. rewrite Hv, Ht, Hn.
  cbv -[Vec3.add Vec3.cross Vec3.sub Vec3.normalize Vec3.zero set_normals].
  now rewrite !add_zero_l.
Qed.

(** C5 on the code: calculateNormalsByArea resizes the array of normals and
    sums into what it finds there.  For the file with the vertices (0,0,0),
    (1,0,0), (0,1,0), the single normal (0,0,-3) and the triangle 1 2 3,
    loadOBJ calls it with that normal in place: the first vertex ends with
    the normal (0,0,-1), the other two with (0,0,1), which is the normalised
    cross product of the two edge vectors. *)
Theorem C5_normals_found_on_entry_are_summed_in :
  returns
    (loadOBJ (one_file "stale.obj" stale_normal_file) 100 "stale.obj" false
       new_mesh empty_context [])
    (fun '(loaded, _, _) =>
       normals loaded
       = [ mkVec3f (Fin 0) (Fin 0) (Fin (-1));
           mkVec3f (Fin 0) (Fin 0) (Fin 1);
           mkVec3f (Fin 0) (Fin 0) (Fin 1) ])
  /\ Vec3.normalize (Vec3.cross (Vec3.sub corner1 corner0) (Vec3.sub corner2 corner0))
     = mkVec3f (Fin 0) (Fin 0) (Fin 1).
Proof.
  split.
  - crunch. sqrt_to 2. sqrt_to 1. crunch.
    repeat (apply f_equal2; [ apply Vec3f_eq; lra | ]). reflexivity.
  - crunch. sqrt_to 1. crunch. apply Vec3f_eq; lra.
Qed.

Lemma sphere_texCoord_at_the_centre (a b c : R) :
  sphere_texCoord (mkVec3f (Fin a) (Fin b) (Fin c)) (mkVec3f (Fin a) (Fin b) (Fin c))
  = mkTexCoord (Fin (1 / 2)) NaN.
Proof.
  unfold sphere_texCoord, Vec3.sub. cbn [x y z fsub fopp fadd fmul].
  replace (a + - a) with 0 by lra.
  replace (b + - b) with 0 by lra.
  replace (c + - c) with 0 by lra.
  replace (0 * 0 + 0 * 0 + 0 * 0) with 0 by lra.
  rewrite fsqrt_Fin by lra. rewrite sqrt_0, fdiv_zero_zero.
  crunch. f_equal. f_equal. lra.
Qed.

(** C6 on the code: calculateTexCoordsSphereMapping has no guard.  For the
    file with the single vertex (1,2,3), which is the midpoint of its own
    bounding box, loadOBJ stores u = 0.5 and v = NaN: the quotient 0/0 goes
    through asin. *)
Theorem C6_vertex_at_the_centre_gets_nan :
  returns
    (loadOBJ (one_file "point.obj" point_file) 100 "point.obj" false
       new_mesh empty_context [])
    (fun '(loaded, _, _) =>
       List.length (vertices loaded) = 1%nat
       /\ texCoords loaded = [mkTexCoord (Fin (1 / 2)) NaN]
       /\ map v (texCoords loaded) <> [Fin (1 / 2)]).
Proof.
  crunch. sqrt_to 0. crunch.
  replace (/ PI / 2 * 0 + 1 / 2) with (1 / 2) by lra.
  repeat split. discriminate.
Qed.

End Synthesis.

(** ** View frustum culling *)

Section Frustum.

Import Mesh.
Local Open Scope R_scope.

Lemma extract_planes_rows (VP : QMatrix4x4) :
  map normalize_plane (extract_planes (data VP))
  = [ normalized (plane_sum VP 0); normalized (plane_difference VP 0);
      normalized (plane_sum VP 1); normalized (plane_difference VP 1);
      normalized (plane_sum VP 2); normalized (plane_difference VP 2) ].
Proof. reflexivity. Qed.

Lemma inside_all_Forall (p : QVector3D) (planes : list Plane) :
  inside_all p planes = true <-> Forall (fun plane => outside p plane = false) planes.
Proof.
  induction planes as [ | plane planes IH ]; simpl.
  - split; [ constructor | reflexivity ].
  - destruct (outside p plane) eqn:E.
    + split; [ discriminate | ]. intros H. inversion H; congruence.
    + rewrite IH. split; [ now constructor | ]. intros H. now inversion H.
Qed.

Lemma visible_iff (m : TriangleMesh) (state : RenderState) (VP : QMatrix4x4) :
  VP = mmul (getCurrentProjectionMatrix state) (getCurrentModelViewMatrix state) ->
  boundingBoxIsVisible m state = true
  <-> forall r, (r < 3)%nat ->
        outside (midpoint m) (normalized (plane_sum VP r)) = false
        /\ outside (midpoint m) (normalized (plane_difference VP r)) = false.
Proof.
  intros ->. unfold boundingBoxIsVisible, isInsideFrustum, frustum_planes.
  rewrite extract_planes_rows. fold (midpoint m). rewrite inside_all_Forall.
  split.
  - intros H r Hr.
    inversion H as [ | ? ? H0 H']; subst. inversion H' as [ | ? ? H1 H'']; subst.
    inversion H'' as [ | ? ? H2 H3']; subst. inversion H3' as [ | ? ? H3 H4']; subst.
    inversion H4' as [ | ? ? H4 H5']; subst. inversion H5' as [ | ? ? H5 _]; subst.
    destruct r as [ | [ | [ | r ] ] ]; [ auto | auto | auto | lia ].
  - intros H.
    destruct (H 0%nat) as [? ?]; [ lia | ]. destruct (H 1%nat) as [? ?]; [ lia | ].
    destruct (H 2%nat) as [? ?]; [ lia | ].
    repeat constructor; assumption.
Qed.

(** The test accepts the reflection of the frustum: with the camera at the
    origin looking along -z, a midpoint two units behind the camera is
    classified visible, and a midpoint two units in front of it, between the
    near and the far plane, is not. *)
Lemma frustum_test_is_mirrored :
  boundingBoxIsVisible (mesh_around (mkVec3f (Fin 0) (Fin 0) (Fin 2)))
    (render_state sample_projection identity) = true
  /\ boundingBoxIsVisible (mesh_around (mkVec3f (Fin 0) (Fin 0) (Fin (-2))))
       (render_state sample_projection identity) = false.
Proof.
  split.
  - apply (visible_iff _ _ _ eq_refl).
    intros r Hr. destruct r as [ | [ | [ | r ] ] ]; [ | | | lia ];
      (split; crunch; sqrt_to (5 / 4); sqrt_to 3; sqrt_to 1; crunch; reflexivity).
  - match goal with |- ?b = false => destruct b eqn:V; [ | reflexivity ] end.
    destruct (proj1 (visible_iff _ _ _ eq_refl) V 2%nat) as [V2 _]; [ lia | ].
    revert V2. crunch. sqrt_to 3. crunch. discriminate.
Qed.

(** The same with the far plane at 1025: a midpoint 500 units behind the
    camera is classified visible. *)
Lemma far_behind_the_camera_is_visible :
  boundingBoxIsVisible (mesh_around (mkVec3f (Fin 0) (Fin 0) (Fin 500)))
    (render_state deep_projection identity) = true.
Proof.
  apply (visible_iff _ _ _ eq_refl).
  intros r Hr. destruct r as [ | [ | [ | r ] ] ]; [ | | | lia ];
    (split; crunch; sqrt_to (5 / 4); sqrt_to (1025 / 512); sqrt_to (1 / 512); crunch;
     reflexivity).
Qed.

(** What the half-space test of the specification gives for the same
    midpoints. *)
Lemma spec_visible_in_front :
  spec_visible (mesh_around (mkVec3f (Fin 0) (Fin 0) (Fin (-2)))) sample_projection identity
  = true.
Proof.
  unfold spec_visible, spec_planes. cbn [forallb].
  repeat (apply andb_true_intro; split); try reflexivity;
    (crunch; sqrt_to (5 / 4); sqrt_to 3; sqrt_to 1; crunch; reflexivity).
Qed.

Lemma spec_visible_behind :
  spec_visible (mesh_around (mkVec3f (Fin 0) (Fin 0) (Fin 2))) sample_projection identity
  = false.
Proof.
  unfold spec_visible, spec_planes. cbn [forallb].
  apply andb_false_intro1. crunch. sqrt_to (5 / 4). crunch. reflexivity.
Qed.

Lemma spec_visible_far_behind :
  spec_visible (mesh_around (mkVec3f (Fin 0) (Fin 0) (Fin 500))) deep_projection identity
  = false.
Proof.
  unfold spec_visible, spec_planes. cbn [forallb].
  apply andb_false_intro1. crunch. sqrt_to (5 / 4). crunch. reflexivity.
Qed.

(** The eye point itself lies in front of the near plane: the half-space test
    and the code both classify a midpoint at the origin of view space as not
    visible. *)
Lemma origin_is_outside_the_near_plane :
  spec_visible (mesh_around Vec3.zero) sample_projection identity = false
  /\ boundingBoxIsVisible (mesh_around Vec3.zero) (render_state sample_projection identity)
     = false.
Proof.
  split.
  - unfold spec_visible, spec_planes. cbn [forallb].
    do 4 (apply andb_false_intro2). apply andb_false_intro1.
    crunch. sqrt_to 3. crunch. reflexivity.
  - match goal with |- ?b = false => destruct b eqn:V; [ | reflexivity ] end.
    destruct (proj1 (visible_iff _ _ _ eq_refl) V 2%nat) as [ V2 _ ]; [ lia | ].
    revert V2. crunch. sqrt_to 3. crunch. discriminate.
Qed.

(** C1: the code departs from the claim.  The six planes are extracted as
    the claim says, but isInsideFrustum rejects the midpoint when
    [dot(p, n) - d > 0], while the inside of a plane extracted by these
    identities is where [n . p + d >= 0].  With the camera at the origin
    looking along -z, near plane 1 and far plane 3: a midpoint two units in
    front of the camera lies on the inside of all six planes and is
    classified not visible, so draw returns 0 for it; a midpoint two units
    behind the camera is outside and is classified visible.  With the far
    plane at 1025, a midpoint 500 units behind the camera is classified
    visible. *)
Theorem C1_plane_test_rejects_the_inside :
  (spec_visible (mesh_around (mkVec3f (Fin 0) (Fin 0) (Fin (-2)))) sample_projection identity
   = true
   /\ boundingBoxIsVisible (mesh_around (mkVec3f (Fin 0) (Fin 0) (Fin (-2))))
        (render_state sample_projection identity) = false
   /\ draw (mesh_around (mkVec3f (Fin 0) (Fin 0) (Fin (-2))))
        (render_state sample_projection identity) = 0%Z)
  /\ (spec_visible (mesh_around (mkVec3f (Fin 0) (Fin 0) (Fin 2))) sample_projection identity
      = false
      /\ boundingBoxIsVisible (mesh_around (mkVec3f (Fin 0) (Fin 0) (Fin 2)))
           (render_state sample_projection identity) = true)
  /\ (spec_visible (mesh_around (mkVec3f (Fin 0) (Fin 0) (Fin 500))) deep_projection identity
      = false
      /\ boundingBoxIsVisible (mesh_around (mkVec3f (Fin 0) (Fin 0) (Fin 500)))
           (render_state deep_projection identity) = true).
Proof.
  destruct frustum_test_is_mirrored as [ B F ].
  repeat split.
  - exact spec_visible_in_front.
  - exact F.
  - unfold draw. rewrite F. reflexivity.
  - exact spec_visible_behind.
  - exact B.
  - exact spec_visible_far_behind.
  - exact far_behind_the_camera_is_visible.
Qed.

End Frustum.

(** ** The life cycle of the buffers *)

Section Buffers.

Import Mesh GL.
Local Open Scope Z_scope.

Lemma unused_above (l : list GLuint) (id : GLuint) : In id l -> id < unused l.
Proof.
  unfold unused. induction l as [ | a l IH ]; cbn [In fold_right]; [ tauto | ].
  intros [ -> | H ]; [ lia | specialize (IH H); lia ].
Qed.

Lemma unused_not_zero (l : list GLuint) : unused l <> 0.
Proof.
  unfold unused.
  assert (0 <= fold_right Z.max 0 l) by (induction l; cbn [fold_right]; lia). lia.
Qed.

Lemma unused_fresh (l : list GLuint) : ~ In (unused l) l.
Proof. intros H. apply unused_above in H. lia. Qed.

Lemma delete_buffer_alive (id : autoMoved GLuint) (c : context) (x : GLuint) :
  In x (buffers (delete_buffer id c)) <->
  In x (buffers c) /\ ~ (val id <> 0 /\ x = val id).
Proof.
  unfold delete_buffer. destruct (Z.eqb_spec (val id) 0) as [ E | E ].
  - tauto.
  - simpl. split.
    + intros H. apply in_remove in H. tauto.
    + intros [ H1 H2 ]. apply in_in_remove; tauto.
Qed.

Lemma delete_vertex_array_alive (id : autoMoved GLuint) (c : context) (x : GLuint) :
  In x (vertex_arrays (delete_vertex_array id c)) <->
  In x (vertex_arrays c) /\ ~ (val id <> 0 /\ x = val id).
Proof.
  unfold delete_vertex_array. destruct (Z.eqb_spec (val id) 0) as [ E | E ].
  - tauto.
  - simpl. split.
    + intros H. apply in_remove in H. tauto.
    + intros [ H1 H2 ]. apply in_in_remove; tauto.
Qed.

Lemma delete_buffer_vertex_arrays (id : autoMoved GLuint) (c : context) :
  vertex_arrays (delete_buffer id c) = vertex_arrays c.
Proof. unfold delete_buffer. destruct (val id =? 0); reflexivity. Qed.

Lemma delete_vertex_array_buffers (id : autoMoved GLuint) (c : context) :
  buffers (delete_vertex_array id c) = buffers c.
Proof. unfold delete_vertex_array. destruct (val id =? 0); reflexivity. Qed.

Lemma cleanupVBO_with_buffers (m : TriangleMesh) (c : context) (x : GLuint) :
  In x (buffers (snd (cleanupVBO_with m c))) <->
  In x (buffers c) /\ ~ names (buffer_slots m) x.
Proof.
  unfold cleanupVBO_with, names, buffer_slots. cbn [snd].
  repeat (rewrite ?delete_buffer_alive, ?delete_vertex_array_buffers).
  cbn [In]. split.
  - intros H. repeat (destruct H as [ H ? ]). split; [ assumption | ].
    intros [ N I ].
    repeat (destruct I as [ I | I ];
            [ subst x;
              match goal with
              | H : ~ (_ /\ ?a = ?a) |- _ => apply H; split; [ assumption | reflexivity ]
              end | ]).
    contradiction.
  - intros [ H N ].
    repeat split; try assumption; intros [ N' E ]; apply N;
      (split; [ congruence | subst x; tauto ]).
Qed.

Lemma cleanupVBO_with_vertex_arrays (m : TriangleMesh) (c : context) (x : GLuint) :
  In x (vertex_arrays (snd (cleanupVBO_with m c))) <->
  In x (vertex_arrays c) /\ ~ names (vertex_array_slots m) x.
Proof.
  unfold cleanupVBO_with, names, vertex_array_slots. cbn [snd].
  repeat (rewrite ?delete_vertex_array_alive, ?delete_buffer_vertex_arrays).
  cbn [In]. split.
  - intros H. repeat (destruct H as [ H ? ]). split; [ assumption | ].
    intros [ N I ].
    repeat (destruct I as [ I | I ];
            [ subst x;
              match goal with
              | H : ~ (_ /\ ?a = ?a) |- _ => apply H; split; [ assumption | reflexivity ]
              end | ]).
    contradiction.
  - intros [ H N ].
    repeat split; try assumption; intros [ N' E ]; apply N;
      (split; [ congruence | subst x; tauto ]).
Qed.

Lemma createVBO_result (c : context) :
  (forall x, In x (buffers (snd (createVBO c))) <->
             In x (buffers c) \/ (x <> 0 /\ x = fst (createVBO c))) /\
  (fst (createVBO c) <> 0 -> ~ In (fst (createVBO c)) (buffers c)) /\
  vertex_arrays (snd (createVBO c)) = vertex_arrays c /\
  uploads_land (snd (createVBO c)) = uploads_land c.
Proof.
  unfold createVBO, glGenBuffers. cbn [uploads_land].
  pose proof (unused_fresh (buffers c)) as F.
  pose proof (unused_not_zero (buffers c)) as N.
  destruct (uploads_land c); cbn [fst snd buffers vertex_arrays uploads_land glDeleteBuffers].
  - repeat split; auto.
    + intros [ <- | H ]; auto.
    + intros [ H | [ _ -> ] ]; cbn [In]; auto.
  - repeat split; auto.
    + intros H. apply in_remove in H.
      destruct H as [ [ H | H ] H' ]; [ exfalso; apply H'; symmetry; exact H | auto ].
    + intros [ H | [ H E ] ]; [ | congruence ].
      apply in_in_remove; [ congruence | right; assumption ].
Qed.

Lemma glGenVertexArrays_result (c : context) :
  (forall x, In x (vertex_arrays (snd (glGenVertexArrays c))) <->
             In x (vertex_arrays c) \/ (x <> 0 /\ x = fst (glGenVertexArrays c))) /\
  (fst (glGenVertexArrays c) <> 0 -> ~ In (fst (glGenVertexArrays c)) (vertex_arrays c)) /\
  buffers (snd (glGenVertexArrays c)) = buffers c /\
  uploads_land (snd (glGenVertexArrays c)) = uploads_land c /\
  fst (glGenVertexArrays c) <> 0.
Proof.
  unfold glGenVertexArrays. cbn [fst snd buffers vertex_arrays uploads_land].
  pose proof (unused_fresh (vertex_arrays c)) as F.
  pose proof (unused_not_zero (vertex_arrays c)) as N.
  repeat split; auto.
  - intros [ <- | H ]; auto.
  - intros [ H | [ _ -> ] ]; cbn [In]; auto.
Qed.

(** one step of createAllVBOs: name the result of the call and keep what is
    known about it *)
Ltac step_createVBO id c' :=
  match goal with
  | |- context [ createVBO ?c ] =>
      let A := fresh "A" in let F := fresh "F" in
      let V := fresh "V" in let U := fresh "U" in
      destruct (createVBO_result c) as (A & F & V & U);
      destruct (createVBO c) as [ id c' ]; cbn [fst snd] in A, F, V, U
  end.

Ltac step_glGenVertexArrays id c' :=
  match goal with
  | |- context [ glGenVertexArrays ?c ] =>
      let A := fresh "A" in let F := fresh "F" in
      let V := fresh "V" in let U := fresh "U" in let N := fresh "N" in
      destruct (glGenVertexArrays_result c) as (A & F & V & U & N);
      destruct (glGenVertexArrays c) as [ id c' ]; cbn [fst snd] in A, F, V, U, N
  end.

(** a buffer that is created only when two arrays have the same size *)
Lemma optional_createVBO_result (b : bool) (old : GLuint) (c : context) :
  let r := if b then createVBO c else (old, c) in
  (forall x, In x (buffers c) -> In x (buffers (snd r))) /\
  (old = 0 ->
   (forall x, In x (buffers (snd r)) <-> In x (buffers c) \/ (x <> 0 /\ x = fst r)) /\
   (fst r <> 0 -> ~ In (fst r) (buffers c))) /\
  vertex_arrays (snd r) = vertex_arrays c /\
  uploads_land (snd r) = uploads_land c.
Proof.
  destruct b; cbn zeta iota.
  - destruct (createVBO_result c) as (A & F & V & U).
    repeat split; auto.
    + intros x0 H. apply A. left. exact H.
    + apply A.
    + apply A.
  - cbn [fst snd]. repeat split; auto; try congruence;
      (intros [ ? | [ ? ? ] ]; [ assumption | congruence ]).
Qed.

(** createNormalVAO: a vertex array and a buffer, or nothing *)
Lemma createNormalVAO_result (b : bool) (oldv old : GLuint) (c : context) :
  let r := if b
           then (let (vaon, c) := glGenVertexArrays c in
                 let (vbovn, c) := createVBO c in (vaon, vbovn, c))
           else (oldv, old, c) in
  (forall x, In x (buffers c) -> In x (buffers (snd r))) /\
  (forall x, In x (vertex_arrays c) -> In x (vertex_arrays (snd r))) /\
  (oldv = 0 -> old = 0 ->
   (forall x, In x (buffers (snd r)) <-> In x (buffers c) \/ (x <> 0 /\ x = snd (fst r))) /\
   (snd (fst r) <> 0 -> ~ In (snd (fst r)) (buffers c)) /\
   (forall x, In x (vertex_arrays (snd r)) <->
              In x (vertex_arrays c) \/ (x <> 0 /\ x = fst (fst r))) /\
   (fst (fst r) <> 0 -> ~ In (fst (fst r)) (vertex_arrays c))).
Proof.
  destruct b; cbn zeta iota.
  - destruct (glGenVertexArrays_result c) as (A & F & V & U & _).
    destruct (glGenVertexArrays c) as [ vaon c1 ]. cbn [fst snd] in *.
    destruct (createVBO_result c1) as (A' & F' & V' & U').
    destruct (createVBO c1) as [ vbovn c2 ]. cbn [fst snd] in *.
    rewrite V in *. rewrite V'.
    repeat split; auto.
    + intros x0 H. apply A'. left. exact H.
    + intros x0 H. apply A. left. exact H.
    + apply A'.
    + apply A'.
    + apply A.
    + apply A.
  - cbn [fst snd]. repeat split; auto; try congruence;
      (intros [ ? | [ ? ? ] ]; [ assumption | congruence ]).
Qed.

Ltac step_optional id c' :=
  match goal with
  | |- context [ if ?b then createVBO ?c else (?old, ?c) ] =>
      let K := fresh "K" in let Z := fresh "Z" in
      let V := fresh "V" in let U := fresh "U" in
      destruct (optional_createVBO_result b old c) as (K & Z & V & U);
      destruct (if b then createVBO c else (old, c)) as [ id c' ];
      cbn [fst snd] in K, Z, V, U
  end.

Ltac step_normals vaon vbovn c' :=
  match goal with
  | |- context [ if ?b then ?new else (?oldv, ?old, ?c) ] =>
      let K := fresh "K" in let K' := fresh "K" in let Z := fresh "Z" in
      destruct (createNormalVAO_result b oldv old c) as (K & K' & Z);
      destruct (if b then new else (oldv, old, c)) as [ [ vaon vbovn ] c' ];
      cbn [fst snd] in K, K', Z
  end.

(** the mesh cleanupVBO leaves does not depend on the names that were in
    the slots *)
Lemma cleanupVBO_with_forgets_handles (m : TriangleMesh) (c c' : context)
    (h1 h2 h3 h4 h5 h6 h7 h8 h9 h10 h11 h12 : GLuint) :
  fst (cleanupVBO_with (set_handles h1 h2 h3 h4 h5 h6 h7 h8 h9 h10 h11 h12 m) c)
  = fst (cleanupVBO_with m c').
Proof. destruct m. reflexivity. Qed.

Lemma cleanupVBO_with_createAllVBOs (m : TriangleMesh) (c c' c'' : context) :
  fst (cleanupVBO_with (fst (createAllVBOs m c)) c') = fst (cleanupVBO_with m c'').
Proof.
  unfold createAllVBOs. destruct (f m); [ | reflexivity ].
  step_glGenVertexArrays vao k1. step_createVBO vbof k2. step_createVBO vbov k3.
  step_createVBO vbon k4. step_optional vboc k5. step_optional vbot k6.
  step_optional vbotan k7. step_glGenVertexArrays vaobb k8.
  step_createVBO vbovbb k9. step_createVBO vbofbb k10. step_normals vaon vbovn k11.
  cbn [fst]. apply cleanupVBO_with_forgets_handles.
Qed.

Lemma names_cons (a : GLuint) (l : list GLuint) (id : GLuint) :
  names (a :: l) id <-> (id <> 0 /\ id = a) \/ names l id.
Proof.
  unfold names. cbn [In]. split.
  - intros [ N [ E | H ] ]; [ left; split; congruence | right; tauto ].
  - intros [ [ N E ] | [ N H ] ]; split; auto.
Qed.

Lemma grown_refl (l : list GLuint) : grown l l [].
Proof. unfold grown, names. cbn [In]. intuition. Qed.

Lemma grown_step (l l1 l2 made : list GLuint) (id : GLuint) :
  grown l l1 made ->
  (forall x, In x l2 <-> In x l1 \/ (x <> 0 /\ x = id)) ->
  (id <> 0 -> ~ In id l1) ->
  grown l l2 (id :: made).
Proof.
  intros [ G1 G2 ] A F. split.
  - intros x0. rewrite A, G1, names_cons. tauto.
  - intros x0. rewrite names_cons. intros [ [ N -> ] | H ]; [ | auto ].
    intros H. apply (F N). apply G1. left. exact H.
Qed.

Lemma grown_same (l l1 l2 made : list GLuint) :
  grown l l1 made -> l2 = l1 -> grown l l2 made.
Proof. intros G ->. exact G. Qed.

Lemma grown_names (l l' made made' : list GLuint) :
  grown l l' made -> (forall id, names made id <-> names made' id) -> grown l l' made'.
Proof.
  intros [ G1 G2 ] E. split.
  - intros x0. rewrite G1, E. tauto.
  - intros x0 H. apply G2, E, H.
Qed.

Lemma names_same (l l' : list GLuint) :
  (forall id, In id l -> In id l') -> (forall id, In id l' -> In id l) ->
  forall id, names l id <-> names l' id.
Proof. unfold names. intros H H' x0. split; intros [ N I ]; auto. Qed.

(** membership in a list that is written out *)
Ltac in_list :=
  cbn [In]; intros ? H;
  repeat (destruct H as [ H | H ]; [ subst; auto 15 | ]); contradiction.

Lemma all_zero_In (l : list GLuint) (id : GLuint) : all_zero l -> In id l -> id = 0.
Proof. intros H. exact (proj1 (Forall_forall _ l) H id). Qed.

Lemma buffer_slots_set_handles (m : TriangleMesh)
    (h1 h2 h3 h4 h5 h6 h7 h8 h9 h10 h11 h12 : GLuint) :
  buffer_slots (set_handles h1 h2 h3 h4 h5 h6 h7 h8 h9 h10 h11 h12 m)
  = [ h2; h3; h4; h5; h6; h7; h9; h10; h12 ]
  /\ vertex_array_slots (set_handles h1 h2 h3 h4 h5 h6 h7 h8 h9 h10 h11 h12 m)
     = [ h1; h8; h11 ]
  /\ rewritten_slots (set_handles h1 h2 h3 h4 h5 h6 h7 h8 h9 h10 h11 h12 m)
     = [ h4; h2; h3; h9; h10 ].
Proof. destruct m. repeat split. Qed.

(** On a mesh whose slots hold 0, createAllVBOs adds to the context exactly
    the objects the slots name afterwards. *)
Lemma createAllVBOs_from_zero (m : TriangleMesh) (c : context) :
  f m = true -> all_zero (buffer_slots m) -> all_zero (vertex_array_slots m) ->
  grown (buffers c) (buffers (snd (createAllVBOs m c)))
    (buffer_slots (fst (createAllVBOs m c))) /\
  grown (vertex_arrays c) (vertex_arrays (snd (createAllVBOs m c)))
    (vertex_array_slots (fst (createAllVBOs m c))).
Proof.
  intros Hf Zb Zv.
  assert (Zc : val (VBOc m) = 0) by (apply (all_zero_In _ _ Zb); cbn; tauto).
  assert (Zt : val (VBOt m) = 0) by (apply (all_zero_In _ _ Zb); cbn; tauto).
  assert (Ztan : val (VBOtan m) = 0) by (apply (all_zero_In _ _ Zb); cbn; tauto).
  assert (Zvn : val (VBOvn m) = 0) by (apply (all_zero_In _ _ Zb); cbn; tauto).
  assert (Zn : val (VAOn m) = 0) by (apply (all_zero_In _ _ Zv); cbn; tauto).
  unfold createAllVBOs. rewrite Hf.
  step_glGenVertexArrays vao k1. step_createVBO vbof k2. step_createVBO vbov k3.
  step_createVBO vbon k4. step_optional vboc k5. step_optional vbot k6.
  step_optional vbotan k7. step_glGenVertexArrays vaobb k8.
  step_createVBO vbovbb k9. step_createVBO vbofbb k10. step_normals vaon vbovn k11.
  cbn [fst snd].
  destruct (buffer_slots_set_handles m vao vbov vbon vbof vboc vbot vbotan vaobb
              vbovbb vbofbb vaon vbovn) as (-> & -> & _).
  destruct (Z Zc) as [ Ac Fc ]. destruct (Z0 Zt) as [ At Ft ].
  destruct (Z1 Ztan) as [ Atan Ftan ].
  destruct (Z2 Zn Zvn) as (Avn & Fvn & An & Fn).
  split.
  - pose proof (grown_refl (buffers c)) as G.
    apply (grown_same _ _ (buffers k1)) in G; [ | assumption ].
    apply (fun G => grown_step _ _ (buffers k2) _ vbof G A0 F0) in G.
    apply (fun G => grown_step _ _ (buffers k3) _ vbov G A1 F1) in G.
    apply (fun G => grown_step _ _ (buffers k4) _ vbon G A2 F2) in G.
    apply (fun G => grown_step _ _ (buffers k5) _ vboc G Ac Fc) in G.
    apply (fun G => grown_step _ _ (buffers k6) _ vbot G At Ft) in G.
    apply (fun G => grown_step _ _ (buffers k7) _ vbotan G Atan Ftan) in G.
    apply (grown_same _ _ (buffers k8)) in G; [ | assumption ].
    apply (fun G => grown_step _ _ (buffers k9) _ vbovbb G A4 F4) in G.
    apply (fun G => grown_step _ _ (buffers k10) _ vbofbb G A5 F5) in G.
    apply (fun G => grown_step _ _ (buffers k11) _ vbovn G Avn Fvn) in G.
    apply (grown_names _ _ _ _ G).
    apply names_same; in_list.
  - pose proof (grown_refl (vertex_arrays c)) as G.
    apply (fun G => grown_step _ _ (vertex_arrays k1) _ vao G A F) in G.
    rewrite <- V0, <- V1, <- V2, <- V3, <- V4, <- V5 in G.
    apply (fun G => grown_step _ _ (vertex_arrays k8) _ vaobb G A3 F3) in G.
    rewrite <- V7, <- V8 in G.
    apply (fun G => grown_step _ _ (vertex_arrays k11) _ vaon G An Fn) in G.
    apply (grown_names _ _ _ _ G).
    apply names_same; in_list.
Qed.

Lemma cleanupVBO_with_again (m : TriangleMesh) (c c' : context) :
  cleanupVBO_with (fst (cleanupVBO_with m c)) c' = (fst (cleanupVBO_with m c), c').
Proof. reflexivity. Qed.

(** X1: cleanupVBO releases exactly the objects the mesh names.  On a mesh
    with its function pointer set, the nine buffer slots and the three
    vertex-array slots hold 0 afterwards and the three texture slots are as
    before; a buffer or vertex array is alive afterwards exactly when it
    was alive before and no slot of the mesh named it; and running
    cleanupVBO again changes nothing. *)
Theorem cleanupVBO_releases_what_the_mesh_names (m : TriangleMesh) (c : context) :
  f m = true ->
  all_zero (buffer_slots (fst (cleanupVBO m c)))
  /\ all_zero (vertex_array_slots (fst (cleanupVBO m c)))
  /\ texture_slots (fst (cleanupVBO m c)) = texture_slots m
  /\ (forall id, In id (buffers (snd (cleanupVBO m c)))
                 <-> In id (buffers c) /\ ~ names (buffer_slots m) id)
  /\ (forall id, In id (vertex_arrays (snd (cleanupVBO m c)))
                 <-> In id (vertex_arrays c) /\ ~ names (vertex_array_slots m) id)
  /\ cleanupVBO (fst (cleanupVBO m c)) (snd (cleanupVBO m c)) = cleanupVBO m c.
Proof.
  intros Hf.
  assert (E : cleanupVBO m c = cleanupVBO_with m c)
    by (unfold cleanupVBO; rewrite Hf; reflexivity).
  rewrite E.
  split; [ | split; [ | split; [ | split; [ | split ] ] ] ].
  - repeat constructor.
  - repeat constructor.
  - reflexivity.
  - apply cleanupVBO_with_buffers.
  - apply cleanupVBO_with_vertex_arrays.
  - unfold cleanupVBO.
    replace (f (fst (cleanupVBO_with m c))) with (f m) by reflexivity.
    rewrite Hf, cleanupVBO_with_again. symmetry. apply surjective_pairing.
Qed.

Lemma cleanupVBO_releases_what_the_mesh_names_witness :
  all_zero (buffer_slots (fst (cleanupVBO mesh_with_buffer context_with_buffer)))
  /\ ~ In (val (VBOv mesh_with_buffer))
         (buffers (snd (cleanupVBO mesh_with_buffer context_with_buffer))).
Proof.
  destruct (cleanupVBO_releases_what_the_mesh_names mesh_with_buffer context_with_buffer
              eq_refl) as (Z & _ & _ & B & _).
  split; [ exact Z | ].
  intros H. destruct (proj1 (B _) H) as [ _ H' ]. apply H'.
  split; [ discriminate | left; reflexivity ].
Defined.

Lemma f_createAllVBOs (m : TriangleMesh) (c : context) :
  f (fst (createAllVBOs m c)) = f m.
Proof.
  unfold createAllVBOs. destruct (f m) eqn:Hf; [ | exact Hf ].
  step_glGenVertexArrays vao k1. step_createVBO vbof k2. step_createVBO vbov k3.
  step_createVBO vbon k4. step_optional vboc k5. step_optional vbot k6.
  step_optional vbotan k7. step_glGenVertexArrays vaobb k8.
  step_createVBO vbovbb k9. step_createVBO vbofbb k10. step_normals vaon vbovn k11.
  cbn [fst]. destruct m. exact Hf.
Qed.

(** X2: createAllVBOs releases nothing and reuses nothing.  On a mesh with
    its function pointer set, every buffer and vertex array that was alive
    before is alive afterwards; the objects the five buffer slots it always
    writes name afterwards were not alive before, and so differ from what
    the slots named; and the slots VAO and VAObb hold new names.  So when
    createAllVBOs runs on a mesh that still names buffers, as in
    generateSphere and generateTerrain, these stay alive without a slot that
    names them. *)
Theorem createAllVBOs_releases_nothing (m : TriangleMesh) (c : context) :
  f m = true ->
  (forall id, In id (buffers c) -> In id (buffers (snd (createAllVBOs m c))))
  /\ (forall id, In id (vertex_arrays c) ->
                 In id (vertex_arrays (snd (createAllVBOs m c))))
  /\ (forall id, names (rewritten_slots (fst (createAllVBOs m c))) id ->
                 ~ In id (buffers c))
  /\ (forall id, In id [ val (VAO (fst (createAllVBOs m c)));
                         val (VAObb (fst (createAllVBOs m c))) ] ->
                 id <> 0 /\ ~ In id (vertex_arrays c)).
Proof.
  intros Hf. unfold createAllVBOs. rewrite Hf.
  step_glGenVertexArrays vao k1. step_createVBO vbof k2. step_createVBO vbov k3.
  step_createVBO vbon k4. step_optional vboc k5. step_optional vbot k6.
  step_optional vbotan k7. step_glGenVertexArrays vaobb k8.
  step_createVBO vbovbb k9. step_createVBO vbofbb k10. step_normals vaon vbovn k11.
  cbn [fst snd].
  destruct (buffer_slots_set_handles m vao vbov vbon vbof vboc vbot vbotan vaobb
              vbovbb vbofbb vaon vbovn) as (_ & _ & ->).
  assert (E : VAO (set_handles vao vbov vbon vbof vboc vbot vbotan vaobb
                     vbovbb vbofbb vaon vbovn m) = mkAutoMoved vao
              /\ VAObb (set_handles vao vbov vbon vbof vboc vbot vbotan vaobb
                          vbovbb vbofbb vaon vbovn m) = mkAutoMoved vaobb)
    by (destruct m; split; reflexivity).
  destruct E as [ -> -> ]. cbn [val].
  assert (M1 : forall x, In x (buffers c) -> In x (buffers k1))
    by (rewrite V; auto).
  assert (M2 : forall x, In x (buffers c) -> In x (buffers k2))
    by (intros; apply A0; auto).
  assert (M3 : forall x, In x (buffers c) -> In x (buffers k3))
    by (intros; apply A1; auto).
  assert (M4 : forall x, In x (buffers c) -> In x (buffers k4))
    by (intros; apply A2; auto).
  assert (M7 : forall x, In x (buffers c) -> In x (buffers k7)) by auto.
  assert (M8 : forall x, In x (buffers c) -> In x (buffers k8))
    by (rewrite V6; auto).
  assert (M9 : forall x, In x (buffers c) -> In x (buffers k9))
    by (intros; apply A4; auto).
  assert (M10 : forall x, In x (buffers c) -> In x (buffers k10))
    by (intros; apply A5; auto).
  assert (W1 : forall x, In x (vertex_arrays c) -> In x (vertex_arrays k1))
    by (intros; apply A; auto).
  assert (W7 : forall x, In x (vertex_arrays c) -> In x (vertex_arrays k7))
    by (rewrite V5, V4, V3, V2, V1, V0; exact W1).
  assert (W8 : forall x, In x (vertex_arrays c) -> In x (vertex_arrays k8))
    by (intros; apply A3; auto).
  split; [ | split; [ | split ] ].
  - auto.
  - intros x0 H. apply K3. rewrite V8, V7. auto.
  - intros x0 [ N' I ]. cbn [In] in I.
    destruct I as [ <- | [ <- | [ <- | [ <- | [ <- | [] ] ] ] ] ]; intros H.
    + apply (F0 N'). auto.
    + apply (F1 N'). auto.
    + apply (F2 N'). auto.
    + apply (F4 N'). auto.
    + apply (F5 N'). auto.
  - intros x0 I. cbn [In] in I. destruct I as [ <- | [ <- | [] ] ].
    + split; [ assumption | auto ].
    + split; [ assumption | ]. intros H. apply (F3 N0). auto.
Qed.

Lemma createAllVBOs_releases_nothing_witness :
  In (val (VBOv mesh_with_buffer))
     (buffers (snd (createAllVBOs mesh_with_buffer context_with_buffer)))
  /\ ~ names (rewritten_slots (fst (createAllVBOs mesh_with_buffer context_with_buffer)))
         (val (VBOv mesh_with_buffer)).
Proof.
  assert (I : In (val (VBOv mesh_with_buffer)) (buffers context_with_buffer))
    by (vm_compute; tauto).
  destruct (createAllVBOs_releases_nothing mesh_with_buffer context_with_buffer eq_refl)
    as (B & _ & R & _).
  split.
  - exact (B _ I).
  - intros H. exact (R _ H I).
Defined.

(** X3: what createAllVBOs creates, cleanupVBO releases.  The sequence
    cleanupVBO, createAllVBOs by which translateToCenter and scaleToLength
    rebuild the buffers, followed by another cleanupVBO, leaves the mesh as
    the first cleanupVBO left it and the same buffers and vertex arrays
    alive: nothing created in between survives and nothing else is
    released, whether or not the uploads succeed. *)
Theorem rebuilt_buffers_are_released (m : TriangleMesh) (c : context) :
  let after_cleanup := cleanupVBO m c in
  let rebuilt := createAllVBOs (fst after_cleanup) (snd after_cleanup) in
  let released := cleanupVBO (fst rebuilt) (snd rebuilt) in
  fst released = fst after_cleanup
  /\ same_objects (snd after_cleanup) (snd released).
Proof.
  cbv zeta. destruct (f m) eqn:Hf.
  - assert (E : cleanupVBO m c = cleanupVBO_with m c)
      by (unfold cleanupVBO; rewrite Hf; reflexivity).
    rewrite E. set (m1 := fst (cleanupVBO_with m c)). set (c1 := snd (cleanupVBO_with m c)).
    assert (Hf1 : f m1 = true) by exact Hf.
    destruct (createAllVBOs_from_zero m1 c1 Hf1) as [ [ B1 B2 ] [ W1 W2 ] ];
      [ repeat constructor | repeat constructor | ].
    assert (E' : cleanupVBO (fst (createAllVBOs m1 c1)) (snd (createAllVBOs m1 c1))
                 = cleanupVBO_with (fst (createAllVBOs m1 c1)) (snd (createAllVBOs m1 c1)))
      by (unfold cleanupVBO; rewrite f_createAllVBOs, Hf1; reflexivity).
    rewrite E'. split; [ | split ].
    + rewrite (cleanupVBO_with_createAllVBOs m1 c1 _ c1).
      unfold m1. rewrite cleanupVBO_with_again. reflexivity.
    + intros id. rewrite cleanupVBO_with_buffers, B1. specialize (B2 id). tauto.
    + intros id. rewrite cleanupVBO_with_vertex_arrays, W1. specialize (W2 id). tauto.
  - assert (E : cleanupVBO m c = (m, c)) by (unfold cleanupVBO; rewrite Hf; reflexivity).
    rewrite E. cbn [fst snd].
    assert (E' : createAllVBOs m c = (m, c))
      by (unfold createAllVBOs; rewrite Hf; reflexivity).
    rewrite E'. cbn [fst snd]. rewrite E. cbn [fst snd].
    split; [ reflexivity | split; intros id; tauto ].
Qed.

End Buffers.

(** ** Normals by area *)

Section NormalsByArea.

Import Mesh.
Local Open Scope Z_scope.

Lemma vector_at_in_range {A : Type} (l : list A) (i : Z) :
  0 <= i < Z.of_nat (List.length l) -> exists a, vector_at l i = Ret a.
Proof.
  intros H. unfold vector_at.
  destruct (nth_error l (Z.to_nat i)) as [ a | ] eqn:E; [ now exists a | ].
  apply nth_error_None in E. lia.
Qed.

Lemma vector_at_out_of_range {A : Type} (l : list A) (i : Z) :
  Z.of_nat (List.length l) <= i -> vector_at l i = Undefined.
Proof.
  intros H. unfold vector_at.
  destruct (nth_error l (Z.to_nat i)) as [ a | ] eqn:E; [ | reflexivity ].
  assert (nth_error l (Z.to_nat i) <> None) as N by congruence.
  apply nth_error_Some in N. lia.
Qed.

Lemma length_replace_nth {A : Type} (k : nat) (a : A) (l : list A) :
  List.length (replace_nth k a l) = List.length l.
Proof.
  revert k. induction l as [ | b l IH ]; intros k; destruct k; simpl; auto.
Qed.

Lemma vector_add_at_in_range (l : list Normal) (i : Z) (w : Vec3f) :
  0 <= i < Z.of_nat (List.length l) ->
  exists l', vector_add_at l i w = Ret l' /\ List.length l' = List.length l.
Proof.
  intros H. unfold vector_add_at.
  destruct (vector_at_in_range l i H) as [ a -> ]. cbn [bind].
  eexists. split; [ reflexivity | apply length_replace_nth ].
Qed.

Lemma vector_add_at_out_of_range (l : list Normal) (i : Z) (w : Vec3f) :
  Z.of_nat (List.length l) <= i -> vector_add_at l i w = Undefined.
Proof.
  intros H. unfold vector_add_at. now rewrite vector_at_out_of_range.
Qed.

Lemma length_resize {A : Type} (dflt : A) (k : nat) (l : list A) :
  List.length (resize dflt k l) = k.
Proof.
  unfold resize. rewrite length_app, length_firstn, repeat_length. lia.
Qed.

(** one round of the loop over the triangles: it returns when the three
    indices address vertices, and reaches undefined behaviour otherwise *)
Lemma add_triangle_normal_in_range (vs : list Vertex) (ns : list Normal) (t : Triangle) :
  List.length ns = List.length vs ->
  (forall index, In index [i0 t; i1 t; i2 t] -> 0 <= index < Z.of_nat (List.length vs)) ->
  exists ns', add_triangle_normal vs ns t = Ret ns' /\ List.length ns' = List.length vs.
Proof.
  intros L H. unfold add_triangle_normal.
  assert (H0 : 0 <= i0 t < Z.of_nat (List.length vs)) by (apply H; cbn; tauto).
  assert (H1 : 0 <= i1 t < Z.of_nat (List.length vs)) by (apply H; cbn; tauto).
  assert (H2 : 0 <= i2 t < Z.of_nat (List.length vs)) by (apply H; cbn; tauto).
  destruct (vector_at_in_range vs _ H1) as [ v1 -> ].
  destruct (vector_at_in_range vs _ H0) as [ v0 -> ].
  destruct (vector_at_in_range vs _ H2) as [ v2 -> ].
  cbn [bind].
  destruct (vector_add_at_in_range ns (i0 t)
              (Vec3.cross (Vec3.sub v1 v0) (Vec3.sub v2 v0))) as (n1 & -> & L1);
    [ lia | ].
  cbn [bind].
  destruct (vector_add_at_in_range n1 (i1 t)
              (Vec3.cross (Vec3.sub v1 v0) (Vec3.sub v2 v0))) as (n2 & -> & L2);
    [ lia | ].
  cbn [bind].
  destruct (vector_add_at_in_range n2 (i2 t)
              (Vec3.cross (Vec3.sub v1 v0) (Vec3.sub v2 v0))) as (n3 & -> & L3);
    [ lia | ].
  exists n3. split; [ reflexivity | lia ].
Qed.

Lemma vector_at_cases {A : Type} (l : list A) (i : Z) :
  vector_at l i = Undefined \/ exists a, vector_at l i = Ret a.
Proof. unfold vector_at. destruct (nth_error l (Z.to_nat i)); eauto. Qed.

Lemma vector_add_at_cases (l : list Normal) (i : Z) (w : Vec3f) :
  vector_add_at l i w = Undefined
  \/ exists l', vector_add_at l i w = Ret l' /\ List.length l' = List.length l.
Proof.
  unfold vector_add_at. destruct (vector_at_cases l i) as [ -> | [ a -> ] ]; cbn [bind].
  - now left.
  - right. eexists. split; [ reflexivity | apply length_replace_nth ].
Qed.

Lemma add_triangle_normal_cases (vs : list Vertex) (ns : list Normal) (t : Triangle) :
  add_triangle_normal vs ns t = Undefined
  \/ exists ns', add_triangle_normal vs ns t = Ret ns' /\ List.length ns' = List.length ns.
Proof.
  unfold add_triangle_normal.
  destruct (vector_at_cases vs (i1 t)) as [ -> | [ v1 -> ] ]; cbn [bind]; [ now left | ].
  destruct (vector_at_cases vs (i0 t)) as [ -> | [ v0 -> ] ]; cbn [bind]; [ now left | ].
  destruct (vector_at_cases vs (i2 t)) as [ -> | [ v2 -> ] ]; cbn [bind]; [ now left | ].
  destruct (vector_add_at_cases ns (i0 t) (Vec3.cross (Vec3.sub v1 v0) (Vec3.sub v2 v0)))
    as [ -> | (n1 & -> & L1) ]; cbn [bind]; [ now left | ].
  destruct (vector_add_at_cases n1 (i1 t) (Vec3.cross (Vec3.sub v1 v0) (Vec3.sub v2 v0)))
    as [ -> | (n2 & -> & L2) ]; cbn [bind]; [ now left | ].
  destruct (vector_add_at_cases n2 (i2 t) (Vec3.cross (Vec3.sub v1 v0) (Vec3.sub v2 v0)))
    as [ -> | (n3 & -> & L3) ]; [ now left | ].
  right. exists n3. split; [ reflexivity | lia ].
Qed.

Lemma add_triangle_normal_out_of_range (vs : list Vertex) (ns : list Normal) (t : Triangle) :
  (exists index, In index [i0 t; i1 t; i2 t] /\ Z.of_nat (List.length vs) <= index) ->
  add_triangle_normal vs ns t = Undefined.
Proof.
  intros (index & I & H). unfold add_triangle_normal.
  destruct (vector_at_cases vs (i1 t)) as [ -> | [ v1 E1 ] ]; [ reflexivity | ].
  destruct (vector_at_cases vs (i0 t)) as [ E0 | [ v0 E0 ] ];
    [ rewrite E1, E0; reflexivity | ].
  destruct (vector_at_cases vs (i2 t)) as [ E2 | [ v2 E2 ] ];
    [ rewrite E1, E0, E2; reflexivity | ].
  exfalso. cbn [In] in I.
  destruct I as [ <- | [ <- | [ <- | [] ] ] ].
  - rewrite vector_at_out_of_range in E0 by exact H. discriminate.
  - rewrite vector_at_out_of_range in E1 by exact H. discriminate.
  - rewrite vector_at_out_of_range in E2 by exact H. discriminate.
Qed.

Lemma sum_triangle_normals_in_range (vs : list Vertex) (ts : list Triangle) :
  Forall (fun t => forall index, In index [i0 t; i1 t; i2 t] ->
                                 0 <= index < Z.of_nat (List.length vs)) ts ->
  forall ns, List.length ns = List.length vs ->
  exists ns', sum_triangle_normals vs ns ts = Ret ns' /\ List.length ns' = List.length vs.
Proof.
  induction 1 as [ | t ts Ht _ IH ]; intros ns L; cbn [sum_triangle_normals].
  - now exists ns.
  - destruct (add_triangle_normal_in_range vs ns t L Ht) as (ns1 & -> & L1).
    cbn [bind]. apply IH, L1.
Qed.

Lemma sum_triangle_normals_out_of_range (vs : list Vertex) (ts : list Triangle) :
  Exists (fun t => exists index, In index [i0 t; i1 t; i2 t]
                                 /\ Z.of_nat (List.length vs) <= index) ts ->
  forall ns, sum_triangle_normals vs ns ts = Undefined.
Proof.
  induction 1 as [ t ts Ht | t ts _ IH ]; intros ns; cbn [sum_triangle_normals].
  - now rewrite add_triangle_normal_out_of_range.
  - destruct (add_triangle_normal_cases vs ns t) as [ -> | (ns1 & -> & _) ]; cbn [bind].
    + reflexivity.
    + apply IH.
Qed.

Lemma vertices_set_normals (ns : list Normal) (m : TriangleMesh) :
  vertices (set_normals ns m) = vertices m /\ normals (set_normals ns m) = ns
  /\ triangles (set_normals ns m) = triangles m.
Proof. destruct m. repeat split. Qed.

(** X4: calculateNormalsByArea returns exactly when the triangles address
    vertices of the mesh.  When every index of every triangle is less than
    the number of vertices it returns, the mesh then has one normal for each
    vertex, and vertices and triangles are as before; when some index is not
    less than the number of vertices, it reaches undefined behaviour,
    whatever the other triangles are. *)
Theorem calculateNormalsByArea_needs_indices_in_range (m : TriangleMesh) :
  (Forall (in_range m) (triangles m) ->
   returns (calculateNormalsByArea m)
     (fun m' => List.length (normals m') = List.length (vertices m)
                /\ vertices m' = vertices m /\ triangles m' = triangles m))
  /\ (Exists (out_of_range m) (triangles m) -> calculateNormalsByArea m = Undefined).
Proof.
  unfold calculateNormalsByArea. split.
  - intros H.
    destruct (sum_triangle_normals_in_range (vertices m) (triangles m) H
                (resize Vec3.zero (List.length (vertices m)) (normals m))
                (length_resize _ _ _)) as (ns & -> & L).
    cbn [bind returns].
    destruct (vertices_set_normals (map Vec3.normalize ns) m) as (-> & -> & ->).
    rewrite length_map. auto.
  - intros H. rewrite sum_triangle_normals_out_of_range; [ reflexivity | exact H ].
Qed.

(** a triangle on three vertices, and the same triangle with the vertex 3 *)
Lemma calculateNormalsByArea_needs_indices_in_range_witness :
  returns (calculateNormalsByArea one_triangle)
    (fun m' => List.length (normals m') = List.length (vertices one_triangle)
               /\ vertices m' = vertices one_triangle
               /\ triangles m' = triangles one_triangle)
  /\ calculateNormalsByArea (set_triangles [mkVec3ui 0 1 3] one_triangle) = Undefined.
Proof.
  split.
  - apply (proj1 (calculateNormalsByArea_needs_indices_in_range one_triangle)).
    constructor; [ | constructor ].
    intros index I. cbn in I.
    destruct I as [ <- | [ <- | [ <- | [] ] ] ]; cbn; lia.
  - apply (proj2 (calculateNormalsByArea_needs_indices_in_range
                    (set_triangles [mkVec3ui 0 1 3] one_triangle))).
    constructor. exists 3. split; [ cbn; tauto | cbn; lia ].
Defined.

End NormalsByArea.

(** ** The bounding box *)

Section BoundingBox.

Import Mesh.
Local Open Scope R_scope.

Lemma finite_Fin (a : float) :
  finite a -> exists r, a = Fin r /\ - IZR (16777215 * 2 ^ 104) <= r <= IZR (16777215 * 2 ^ 104).
Proof.
  unfold finite, FLT_MAX. cbn [fopp]. set (M := IZR (16777215 * 2 ^ 104)).
  intros [ H1 H2 ].
  destruct a as [ | [ | ] | r ]; cbn [fle negb] in *; try discriminate.
  apply negb_true_iff, Rltb_ge in H1. apply negb_true_iff, Rltb_ge in H2.
  exists r. split; [ reflexivity | lra ].
Qed.

Lemma Fin_finite (r : R) :
  - IZR (16777215 * 2 ^ 104) <= r <= IZR (16777215 * 2 ^ 104) -> finite (Fin r).
Proof.
  unfold finite, FLT_MAX. cbn [fopp fle]. set (M := IZR (16777215 * 2 ^ 104)).
  intros H. rewrite !Rltb_false by lra. auto.
Qed.

Lemma FLT_MAX_positive : 0 < IZR (16777215 * 2 ^ 104).
Proof. apply IZR_lt. reflexivity. Qed.

(** the smallest element so far, as the loop of calculateBB keeps it *)
Lemma fold_std_min (l : list float) (acc : float) :
  Forall finite l -> finite acc ->
  let r := fold_left (fun acc e => std_min e acc) l acc in
  finite r /\ fle r acc = true /\ Forall (fun e => fle r e = true) l
  /\ (r = acc \/ In r l).
Proof.
  intros H. revert acc. induction H as [ | e l He _ IH ]; intros acc Ha; cbn [fold_left].
  - destruct (finite_Fin acc Ha) as (a & -> & Ba).
    repeat split; try apply Ha; auto.
    simpl. rewrite Rltb_false by lra. reflexivity.
  - destruct (finite_Fin e He) as (b & -> & Bb).
    destruct (finite_Fin acc Ha) as (a & -> & Ba).
    assert (Hs : std_min (Fin b) (Fin a) = Fin (Rmin a b)).
    { unfold std_min, flt, Rmin, Rltb.
      destruct (Rlt_dec a b); destruct (Rle_dec a b);
        try reflexivity; try lra; f_equal; lra. }
    rewrite Hs.
    assert (Hm : finite (Fin (Rmin a b)))
      by (apply Fin_finite; unfold Rmin; destruct (Rle_dec a b); lra).
    destruct (IH (Fin (Rmin a b)) Hm) as (Fr & Lr & Al & Ir).
    destruct (finite_Fin _ Fr) as (r & Er & Br).
    cbv zeta. rewrite Er in *.
    simpl in Lr. apply negb_true_iff, Rltb_ge in Lr.
    pose proof (Rmin_l a b). pose proof (Rmin_r a b).
    repeat split; try apply Fr.
    + simpl. rewrite Rltb_false by lra. reflexivity.
    + constructor; [ | exact Al ]. simpl. rewrite Rltb_false by lra. reflexivity.
    + destruct Ir as [ Ir | Ir ]; [ | right; right; exact Ir ].
      injection Ir as Ir. unfold Rmin in Ir. destruct (Rle_dec a b).
      * left. f_equal. exact Ir.
      * right. left. f_equal. symmetry. exact Ir.
Qed.

Lemma fold_std_max (l : list float) (acc : float) :
  Forall finite l -> finite acc ->
  let r := fold_left (fun acc e => std_max e acc) l acc in
  finite r /\ fle acc r = true /\ Forall (fun e => fle e r = true) l
  /\ (r = acc \/ In r l).
Proof.
  intros H. revert acc. induction H as [ | e l He _ IH ]; intros acc Ha; cbn [fold_left].
  - destruct (finite_Fin acc Ha) as (a & -> & Ba).
    repeat split; try apply Ha; auto.
    simpl. rewrite Rltb_false by lra. reflexivity.
  - destruct (finite_Fin e He) as (b & -> & Bb).
    destruct (finite_Fin acc Ha) as (a & -> & Ba).
    assert (Hs : std_max (Fin b) (Fin a) = Fin (Rmax a b)).
    { unfold std_max, flt, Rmax, Rltb.
      destruct (Rlt_dec b a); destruct (Rle_dec a b);
        try reflexivity; try lra; f_equal; lra. }
    rewrite Hs.
    assert (Hm : finite (Fin (Rmax a b)))
      by (apply Fin_finite; unfold Rmax; destruct (Rle_dec a b); lra).
    destruct (IH (Fin (Rmax a b)) Hm) as (Fr & Lr & Al & Ir).
    destruct (finite_Fin _ Fr) as (r & Er & Br).
    cbv zeta. rewrite Er in *.
    simpl in Lr. apply negb_true_iff, Rltb_ge in Lr.
    pose proof (Rmax_l a b). pose proof (Rmax_r a b).
    repeat split; try apply Fr.
    + simpl. rewrite Rltb_false by lra. reflexivity.
    + constructor; [ | exact Al ]. simpl. rewrite Rltb_false by lra. reflexivity.
    + destruct Ir as [ Ir | Ir ]; [ | right; right; exact Ir ].
      injection Ir as Ir. unfold Rmax in Ir. destruct (Rle_dec a b).
      * right. left. f_equal. symmetry. exact Ir.
      * left. f_equal. exact Ir.
Qed.

(** what the assignments to the corners leave alone *)
Lemma set_corner (a b : Vec3f) (m : TriangleMesh) :
  let m' := set_boundingBoxMax a (set_boundingBoxMin b m) in
  boundingBoxMin m' = b /\ boundingBoxMax m' = a /\ vertices m' = vertices m.
Proof. destruct m. repeat split. Qed.

Lemma update_mid_size_corners (m : TriangleMesh) :
  boundingBoxMin (update_mid_size m) = boundingBoxMin m
  /\ boundingBoxMax (update_mid_size m) = boundingBoxMax m
  /\ vertices (update_mid_size m) = vertices m.
Proof. destruct m. repeat split. Qed.

Lemma calculateBB_loop (vs : list Vertex) (m : TriangleMesh) :
  let r := fold_left
             (fun m vertex =>
                set_boundingBoxMax (max3 vertex (boundingBoxMax m))
                  (set_boundingBoxMin (min3 vertex (boundingBoxMin m)) m)) vs m in
  boundingBoxMin r = fold_left (fun acc p => min3 p acc) vs (boundingBoxMin m)
  /\ boundingBoxMax r = fold_left (fun acc p => max3 p acc) vs (boundingBoxMax m)
  /\ vertices r = vertices m.
Proof.
  revert m. induction vs as [ | p vs IH ]; intros m; cbn [fold_left]; [ auto | ].
  destruct (set_corner (max3 p (boundingBoxMax m)) (min3 p (boundingBoxMin m)) m)
    as (E1 & E2 & E3).
  destruct (IH (set_boundingBoxMax (max3 p (boundingBoxMax m))
                  (set_boundingBoxMin (min3 p (boundingBoxMin m)) m))) as (I1 & I2 & I3).
  cbv zeta in *. rewrite I1, I2, I3, E1, E2, E3. auto.
Qed.

Lemma calculateBB_corners (m : TriangleMesh) :
  boundingBoxMin (calculateBB m)
  = fold_left (fun acc p => min3 p acc) (vertices m) (mkVec3f FLT_MAX FLT_MAX FLT_MAX)
  /\ boundingBoxMax (calculateBB m)
     = fold_left (fun acc p => max3 p acc) (vertices m)
         (mkVec3f (fopp FLT_MAX) (fopp FLT_MAX) (fopp FLT_MAX))
  /\ vertices (calculateBB m) = vertices m.
Proof.
  unfold calculateBB.
  match goal with
  | |- context [ update_mid_size ?r ] => destruct (update_mid_size_corners r) as (-> & -> & ->)
  end.
  match goal with
  | |- context [ fold_left ?g ?vs ?m0 ] =>
      assert (V : vs = vertices m) by (destruct m; reflexivity);
      assert (A : boundingBoxMin m0 = mkVec3f FLT_MAX FLT_MAX FLT_MAX)
        by (destruct m; reflexivity);
      assert (B : boundingBoxMax m0 = mkVec3f (fopp FLT_MAX) (fopp FLT_MAX) (fopp FLT_MAX))
        by (destruct m; reflexivity);
      destruct (calculateBB_loop vs m0) as (-> & -> & ->)
  end.
  rewrite A, B, V. auto.
Qed.

Lemma min3_fold (vs : list Vertex) (a : Vec3f) :
  let r := fold_left (fun acc p => min3 p acc) vs a in
  x r = fold_left (fun acc e => std_min e acc) (map x vs) (x a)
  /\ y r = fold_left (fun acc e => std_min e acc) (map y vs) (y a)
  /\ z r = fold_left (fun acc e => std_min e acc) (map z vs) (z a).
Proof.
  revert a. induction vs as [ | p vs IH ]; intros a; cbn [fold_left map]; [ auto | ].
  apply (IH (min3 p a)).
Qed.

Lemma max3_fold (vs : list Vertex) (a : Vec3f) :
  let r := fold_left (fun acc p => max3 p acc) vs a in
  x r = fold_left (fun acc e => std_max e acc) (map x vs) (x a)
  /\ y r = fold_left (fun acc e => std_max e acc) (map y vs) (y a)
  /\ z r = fold_left (fun acc e => std_max e acc) (map z vs) (z a).
Proof.
  revert a. induction vs as [ | p vs IH ]; intros a; cbn [fold_left map]; [ auto | ].
  apply (IH (max3 p a)).
Qed.

Lemma finite_FLT_MAX : finite FLT_MAX /\ finite (fopp FLT_MAX).
Proof.
  pose proof FLT_MAX_positive.
  split; apply Fin_finite; lra.
Qed.

(** the smallest of a non-empty run of numbers is one of them *)
Lemma smallest_is_attained (p : Vec3f -> float) (vs : list Vec3f) :
  Forall finite (map p vs) -> vs <> [] ->
  let r := fold_left (fun acc e => std_min e acc) (map p vs) FLT_MAX in
  Forall (fun v => fle r (p v) = true) vs /\ In r (map p vs).
Proof.
  intros H N.
  destruct (fold_std_min (map p vs) FLT_MAX H (proj1 finite_FLT_MAX)) as (Fr & Lr & Al & Ir).
  cbv zeta. split.
  - apply Forall_forall. intros v0 I.
    exact (proj1 (Forall_forall _ _) Al (p v0) (in_map p vs v0 I)).
  - destruct Ir as [ Ir | Ir ]; [ | exact Ir ].
    destruct vs as [ | v0 vs ]; [ contradiction | ].
    inversion Al as [ | ? ? L0 _ ]; subst. inversion H as [ | ? ? F0 _ ]; subst.
    left. rewrite Ir in *.
    destruct (finite_Fin _ F0) as (r0 & E0 & B0). rewrite E0 in *.
    unfold FLT_MAX in *. cbn [fle] in L0.
    apply negb_true_iff, Rltb_ge in L0. f_equal.
    apply Rle_antisym; [ apply B0 | exact L0 ].
Qed.

Lemma largest_is_attained (p : Vec3f -> float) (vs : list Vec3f) :
  Forall finite (map p vs) -> vs <> [] ->
  let r := fold_left (fun acc e => std_max e acc) (map p vs) (fopp FLT_MAX) in
  Forall (fun v => fle (p v) r = true) vs /\ In r (map p vs).
Proof.
  intros H N.
  destruct (fold_std_max (map p vs) (fopp FLT_MAX) H (proj2 finite_FLT_MAX))
    as (Fr & Lr & Al & Ir).
  cbv zeta. split.
  - apply Forall_forall. intros v0 I.
    exact (proj1 (Forall_forall _ _) Al (p v0) (in_map p vs v0 I)).
  - destruct Ir as [ Ir | Ir ]; [ | exact Ir ].
    destruct vs as [ | v0 vs ]; [ contradiction | ].
    inversion Al as [ | ? ? L0 _ ]; subst. inversion H as [ | ? ? F0 _ ]; subst.
    left. rewrite Ir in *.
    destruct (finite_Fin _ F0) as (r0 & E0 & B0). rewrite E0 in *.
    unfold FLT_MAX in *. cbn [fle fopp] in L0.
    apply negb_true_iff, Rltb_ge in L0. cbn [fopp]. f_equal.
    apply Rle_antisym; [ exact L0 | apply B0 ].
Qed.

Lemma finite_components (vs : list Vec3f) :
  Forall finite_vertex vs ->
  Forall finite (map x vs) /\ Forall finite (map y vs) /\ Forall finite (map z vs).
Proof.
  induction 1 as [ | p vs (Hx & Hy & Hz) _ (IHx & IHy & IHz) ]; cbn [map].
  - repeat split; constructor.
  - repeat split; constructor; assumption.
Qed.

(** X5: calculateBB encloses the vertices.  For a mesh whose vertex
    coordinates are numbers (no NaN, no infinity) and that has at least one
    vertex, every vertex lies between boundingBoxMin and boundingBoxMax in
    each coordinate afterwards, each of the six sides of the box touches a
    vertex, and the vertices are as before. *)
Theorem calculateBB_encloses_the_vertices (m : TriangleMesh) :
  Forall finite_vertex (vertices m) -> vertices m <> [] ->
  Forall (within (boundingBoxMin (calculateBB m)) (boundingBoxMax (calculateBB m)))
    (vertices m)
  /\ touches (boundingBoxMin (calculateBB m)) (boundingBoxMax (calculateBB m)) (vertices m)
  /\ vertices (calculateBB m) = vertices m.
Proof.
  intros H N.
  destruct (calculateBB_corners m) as (-> & -> & ->).
  destruct (min3_fold (vertices m) (mkVec3f FLT_MAX FLT_MAX FLT_MAX)) as (Ex & Ey & Ez).
  destruct (max3_fold (vertices m) (mkVec3f (fopp FLT_MAX) (fopp FLT_MAX) (fopp FLT_MAX)))
    as (Ex' & Ey' & Ez').
  cbv zeta in *. cbn [x y z] in Ex, Ey, Ez, Ex', Ey', Ez'.
  destruct (finite_components _ H) as (Hx & Hy & Hz).
  destruct (smallest_is_attained x _ Hx N) as [ Ax Ix ].
  destruct (smallest_is_attained y _ Hy N) as [ Ay Iy ].
  destruct (smallest_is_attained z _ Hz N) as [ Az Iz ].
  destruct (largest_is_attained x _ Hx N) as [ Ax' Ix' ].
  destruct (largest_is_attained y _ Hy N) as [ Ay' Iy' ].
  destruct (largest_is_attained z _ Hz N) as [ Az' Iz' ].
  cbv zeta in *.
  split; [ | split; [ | reflexivity ] ].
  - apply Forall_forall. intros v0 I. unfold within.
    rewrite Ex, Ey, Ez, Ex', Ey', Ez'.
    repeat split;
      match goal with
      | A : Forall _ (vertices m) |- _ => exact (proj1 (Forall_forall _ _) A v0 I)
      end.
  - unfold touches. rewrite Ex, Ey, Ez, Ex', Ey', Ez'. auto 10.
Qed.

Lemma finite_small (r : R) : -1 <= r <= 1 -> finite (Fin r).
Proof.
  intros H. apply Fin_finite.
  assert (1 <= IZR (16777215 * 2 ^ 104)) by (apply IZR_le; discriminate).
  lra.
Qed.

(** the triangle with the corners (0,0,0), (1,0,0) and (0,1,0) *)
Lemma calculateBB_encloses_the_vertices_witness :
  Forall (within (boundingBoxMin (calculateBB one_triangle))
            (boundingBoxMax (calculateBB one_triangle))) (vertices one_triangle)
  /\ touches (boundingBoxMin (calculateBB one_triangle))
       (boundingBoxMax (calculateBB one_triangle)) (vertices one_triangle)
  /\ vertices (calculateBB one_triangle) = vertices one_triangle.
Proof.
  apply (calculateBB_encloses_the_vertices one_triangle).
  - repeat constructor; apply finite_small; cbn; lra.
  - discriminate.
Defined.

End BoundingBox.

(** ** What loadOBJ leaves *)

Section Loaded.

Import Mesh.
Import IStream.

(** the members createAllVBOs does not write *)
Lemma createAllVBOs_data (m : TriangleMesh) (c : GL.context) :
  let m' := fst (createAllVBOs m c) in
  vertices m' = vertices m /\ normals m' = normals m /\ triangles m' = triangles m
  /\ colors m' = colors m /\ texCoords m' = texCoords m
  /\ boundingBoxMin m' = boundingBoxMin m /\ boundingBoxMax m' = boundingBoxMax m
  /\ boundingBoxMid m' = boundingBoxMid m /\ boundingBoxSize m' = boundingBoxSize m.
Proof.
  unfold createAllVBOs. destruct (f m); [ | cbn [fst]; repeat split ].
  repeat match goal with
    | |- context [match ?e with pair _ _ => _ end] => destruct e
    | |- context [if ?b then _ else _] => destruct b
    end; cbn [fst]; destruct m; repeat split.
Qed.

Lemma set_vertex_data (p : Vec3f) (m : TriangleMesh) :
  let m1 := set_vertices (vertices m ++ [p]) m in
  let m2 := set_boundingBoxMin (min3 p (boundingBoxMin m1)) m1 in
  let m3 := set_boundingBoxMax (max3 p (boundingBoxMax m2)) m2 in
  vertices m3 = vertices m ++ [p]
  /\ boundingBoxMin m3 = min3 p (boundingBoxMin m)
  /\ boundingBoxMax m3 = max3 p (boundingBoxMax m)
  /\ colors m3 = colors m.
Proof. destruct m. repeat split. Qed.

Lemma set_normals_data (ns : list Normal) (m : TriangleMesh) :
  let m' := set_normals ns m in
  vertices m' = vertices m /\ normals m' = ns /\ colors m' = colors m
  /\ boundingBoxMin m' = boundingBoxMin m /\ boundingBoxMax m' = boundingBoxMax m
  /\ boundingBoxMid m' = boundingBoxMid m /\ boundingBoxSize m' = boundingBoxSize m.
Proof. destruct m. repeat split. Qed.

Lemma set_triangles_data (ts : list Triangle) (m : TriangleMesh) :
  let m' := set_triangles ts m in
  vertices m' = vertices m /\ normals m' = normals m /\ colors m' = colors m
  /\ boundingBoxMin m' = boundingBoxMin m /\ boundingBoxMax m' = boundingBoxMax m.
Proof. destruct m. repeat split. Qed.

Lemma set_texCoords_data (ts : list TexCoord) (m : TriangleMesh) :
  let m' := set_texCoords ts m in
  vertices m' = vertices m /\ normals m' = normals m /\ colors m' = colors m
  /\ texCoords m' = ts
  /\ boundingBoxMin m' = boundingBoxMin m /\ boundingBoxMax m' = boundingBoxMax m
  /\ boundingBoxMid m' = boundingBoxMid m /\ boundingBoxSize m' = boundingBoxSize m.
Proof. destruct m. repeat split. Qed.

Lemma update_mid_size_data (m : TriangleMesh) :
  let m' := update_mid_size m in
  vertices m' = vertices m /\ normals m' = normals m /\ colors m' = colors m
  /\ boundingBoxMin m' = boundingBoxMin m /\ boundingBoxMax m' = boundingBoxMax m
  /\ boundingBoxMid m'
     = Vec3.add (Vec3.scale (Fin (1 / 2)) (boundingBoxMin m))
         (Vec3.scale (Fin (1 / 2)) (boundingBoxMax m))
  /\ boundingBoxSize m' = Vec3.sub (boundingBoxMax m) (boundingBoxMin m).
Proof. destruct m. repeat split. Qed.

Lemma loading_store_face (line : string) (m : TriangleMesh) (diag : list string) :
  loading m -> loading (fst (store_face line m diag)).
Proof.
  unfold store_face, loading.
  destruct (face_indices _ line) as [ | a [ | b [ | c0 [ | ] ] ] ]; cbn [fst]; trivial.
  destruct (set_triangles_data
              [mkVec3ui (Int.to_uint32 a) (Int.to_uint32 b) (Int.to_uint32 c0)] m)
    as (E1 & _ & E3 & E4 & E5).
  cbv zeta in *.
  destruct m; cbn in *; trivial.
Qed.

(** a round of the loop keeps the box around the vertices *)
Lemma loading_load_step (st st' : loader) :
  load_step st = Ret st' -> loading (mesh st) -> loading (mesh st').
Proof.
  unfold load_step.
  destruct (read_string (input st)) as [ s in1 ].
  destruct (String.eqb s "v").
  - destruct (read_three in1) as [ [ [ ox oy ] oz ] in2 ].
    destruct ox as [ a | ]; [ | discriminate ].
    destruct oy as [ b | ]; [ | discriminate ].
    destruct oz as [ c0 | ]; [ | discriminate ].
    cbn [initialised bind]. intros E. injection E as <-. cbn [mesh].
    destruct (set_vertex_data (mkVec3f a b c0) (mesh st)) as (E1 & E2 & E3 & E4).
    cbv zeta in *. unfold loading. intros (I1 & I2 & I3).
    rewrite E1, E2, E3, E4, !fold_left_app, I1, I2. cbn [fold_left]. auto.
  - destruct (String.eqb s "vn").
    + destruct (read_three in1) as [ [ [ ox oy ] oz ] in2 ].
      destruct ox as [ a | ]; [ | discriminate ].
      destruct oy as [ b | ]; [ | discriminate ].
      destruct oz as [ c0 | ]; [ | discriminate ].
      cbn [initialised bind]. intros E. injection E as <-. cbn [mesh].
      destruct (set_normals_data (normals (mesh st) ++ [mkVec3f a b c0]) (mesh st))
        as (E1 & _ & E3 & E4 & E5 & _).
      cbv zeta in *. unfold loading. now rewrite E1, E3, E4, E5.
    + destruct (String.eqb s "f").
      * destruct (getline in1) as [ line in2 ].
        pose proof (loading_store_face line (mesh st) (diagnostics st)) as L.
        destruct (store_face line (mesh st) (diagnostics st)) as [ m' diag' ].
        intros E. injection E as <-. exact L.
      * intros E. injection E as <-. trivial.
Qed.

Lemma loading_load_loop (fuel : nat) (st st' : loader) :
  load_loop fuel st = Ret st' -> loading (mesh st) -> loading (mesh st').
Proof.
  revert st. induction fuel as [ | fuel IH ]; intros st; cbn [load_loop].
  - destruct (eof (input st)); [ | discriminate ]. intros E. now injection E as <-.
  - destruct (eof (input st)); [ intros E; now injection E as <- | ].
    destruct (load_step st) as [ st1 | | | ] eqn:E1; cbn [bind]; try discriminate.
    intros E L. apply (IH st1 E). exact (loading_load_step st st1 E1 L).
Qed.

Lemma length_sum_triangle_normals (vs : list Vertex) (ts : list Triangle) :
  forall ns ns', sum_triangle_normals vs ns ts = Ret ns' -> List.length ns' = List.length ns.
Proof.
  induction ts as [ | t ts IH ]; intros ns ns'; cbn [sum_triangle_normals].
  - intros E. now injection E as <-.
  - destruct (add_triangle_normal_cases vs ns t) as [ -> | (ns1 & -> & L1) ]; cbn [bind].
    + discriminate.
    + intros E. rewrite (IH _ _ E). exact L1.
Qed.

Lemma calculateNormalsByArea_data (m m' : TriangleMesh) :
  calculateNormalsByArea m = Ret m' ->
  List.length (normals m') = List.length (vertices m)
  /\ vertices m' = vertices m /\ colors m' = colors m
  /\ boundingBoxMin m' = boundingBoxMin m /\ boundingBoxMax m' = boundingBoxMax m
  /\ boundingBoxMid m' = boundingBoxMid m /\ boundingBoxSize m' = boundingBoxSize m.
Proof.
  unfold calculateNormalsByArea.
  destruct (sum_triangle_normals _ _ _) as [ ns | | | ] eqn:E; cbn [bind]; try discriminate.
  intros E'. injection E' as <-.
  apply length_sum_triangle_normals in E. rewrite length_resize in E.
  destruct (set_normals_data (map Vec3.normalize ns) m) as (-> & -> & -> & -> & -> & -> & ->).
  rewrite length_map. repeat split; auto.
Qed.

Lemma calculateBB_mid_size (m : TriangleMesh) :
  boundingBoxMid (calculateBB m)
  = Vec3.add (Vec3.scale (Fin (1 / 2)) (boundingBoxMin (calculateBB m)))
      (Vec3.scale (Fin (1 / 2)) (boundingBoxMax (calculateBB m)))
  /\ boundingBoxSize (calculateBB m)
     = Vec3.sub (boundingBoxMax (calculateBB m)) (boundingBoxMin (calculateBB m)).
Proof.
  unfold calculateBB.
  match goal with
  | |- context [ update_mid_size ?r ] =>
      destruct (update_mid_size_data r) as (_ & _ & _ & -> & -> & -> & ->)
  end.
  auto.
Qed.

(** the last steps of loadOBJ: texture coordinates and buffers *)
Lemma loadOBJ_last_steps (createVBOs : bool) (m : TriangleMesh) (c : GL.context) :
  let m' := fst (if createVBOs then createAllVBOs (calculateTexCoordsSphereMapping m) c
                 else (calculateTexCoordsSphereMapping m, c)) in
  vertices m' = vertices m /\ normals m' = normals m /\ colors m' = colors m
  /\ List.length (texCoords m') = List.length (vertices m)
  /\ boundingBoxMin m' = boundingBoxMin m /\ boundingBoxMax m' = boundingBoxMax m
  /\ boundingBoxMid m' = boundingBoxMid m /\ boundingBoxSize m' = boundingBoxSize m.
Proof.
  unfold calculateTexCoordsSphereMapping.
  destruct (set_texCoords_data (map (sphere_texCoord (boundingBoxMid m)) (vertices m)) m)
    as (E1 & E2 & E3 & E4 & E5 & E6 & E7 & E8).
  cbv zeta in *.
  destruct createVBOs; cbn [fst].
  - destruct (createAllVBOs_data
                (set_texCoords (map (sphere_texCoord (boundingBoxMid m)) (vertices m)) m) c)
      as (C1 & C2 & C3 & C4 & C5 & C6 & C7 & C8 & C9).
    cbv zeta in *.
    rewrite C1, C2, C4, C5, C6, C7, C8, C9, E1, E2, E3, E4, E5, E6, E7, E8, length_map.
    repeat split.
  - rewrite E1, E2, E3, E4, E5, E6, E7, E8, length_map. repeat split.
Qed.

(** X6: the mesh loadOBJ returns is consistent.  Whatever the file holds,
    when loadOBJ returns for a file that could be opened the mesh has one
    normal and one texture coordinate for each vertex and no colours, and
    its bounding box is the one calculateBB computes from its vertices:
    minimum, maximum, midpoint and size. *)
Theorem loadOBJ_leaves_a_consistent_mesh
    (fs : string -> option string) (fuel : nat) (filename content : string)
    (createVBOs : bool) (m : TriangleMesh) (c : GL.context) (diag : list string)
    (loaded : TriangleMesh) (c' : GL.context) (diag' : list string) :
  fs filename = Some content ->
  loadOBJ fs fuel filename createVBOs m c diag = Ret (loaded, c', diag') ->
  List.length (normals loaded) = List.length (vertices loaded)
  /\ List.length (texCoords loaded) = List.length (vertices loaded)
  /\ colors loaded = []
  /\ boundingBoxMin loaded = boundingBoxMin (calculateBB loaded)
  /\ boundingBoxMax loaded = boundingBoxMax (calculateBB loaded)
  /\ boundingBoxMid loaded = boundingBoxMid (calculateBB loaded)
  /\ boundingBoxSize loaded = boundingBoxSize (calculateBB loaded).
Proof.
  intros Hfs. unfold loadOBJ.
  pose proof (clear_result m c) as R.
  destruct (clear m c) as [ m0 c0 ]. cbv zeta in R. cbn [fst] in R.
  destruct R as (R1 & R2 & R3 & R4 & R5 & R6 & R7 & R8).
  rewrite Hfs.
  set (m1 := set_triangles [] (set_normals [] (set_vertices [] m0))).
  assert (L1 : loading m1).
  { unfold loading, m1. destruct m0. cbn in *. subst. auto. }
  destruct (load_loop fuel _) as [ st | | | ] eqn:E; cbn [bind]; try discriminate.
  pose proof (loading_load_loop _ _ _ E L1) as (I1 & I2 & I3). cbn [mesh] in *.
  destruct (update_mid_size_data (mesh st)) as (U1 & U2 & U3 & U4 & U5 & U6 & U7).
  cbv zeta in *.
  set (m2 := update_mid_size (mesh st)) in *.
  assert (T : forall m3,
             List.length (normals m3) = List.length (vertices m2) ->
             vertices m3 = vertices m2 -> colors m3 = colors m2 ->
             boundingBoxMin m3 = boundingBoxMin m2 ->
             boundingBoxMax m3 = boundingBoxMax m2 ->
             boundingBoxMid m3 = boundingBoxMid m2 ->
             boundingBoxSize m3 = boundingBoxSize m2 ->
             (let (m4, c4) :=
                if createVBOs then createAllVBOs (calculateTexCoordsSphereMapping m3) c0
                else (calculateTexCoordsSphereMapping m3, c0) in
              Ret (m4, c4, diagnostics st)) = Ret (loaded, c', diag') ->
             List.length (normals loaded) = List.length (vertices loaded)
             /\ List.length (texCoords loaded) = List.length (vertices loaded)
             /\ colors loaded = []
             /\ boundingBoxMin loaded = boundingBoxMin (calculateBB loaded)
             /\ boundingBoxMax loaded = boundingBoxMax (calculateBB loaded)
             /\ boundingBoxMid loaded = boundingBoxMid (calculateBB loaded)
             /\ boundingBoxSize loaded = boundingBoxSize (calculateBB loaded)).
  { intros m3 N1 N2 N3 N4 N5 N6 N7.
    pose proof (loadOBJ_last_steps createVBOs m3 c0) as K. cbv zeta in K.
    destruct (if createVBOs then _ else _) as [ m4 c4 ]. cbn [fst] in K.
    intros E'. injection E' as <- _ _.
    destruct K as (K1 & K2 & K3 & K4 & K5 & K6 & K7 & K8).
    destruct (calculateBB_corners m4) as (B1 & B2 & _).
    destruct (calculateBB_mid_size m4) as (B3 & B4).
    rewrite B3, B4, B1, B2.
    rewrite K1, K2, K3, K4, K5, K6, K7, K8, N1, N2, N3, N4, N5, N6, N7.
    rewrite U1, U3, U4, U5, U6, U7, I1, I2, I3.
    repeat split. }
  destruct (same_size (normals m2) (vertices m2)) eqn:S; cbn [bind].
  - apply T; trivial. unfold same_size in S. now apply Nat.eqb_eq in S.
  - destruct (calculateNormalsByArea m2) as [ m3 | | | ] eqn:E3; cbn [bind];
      try discriminate.
    destruct (calculateNormalsByArea_data m2 m3 E3) as (N1 & N2 & N3 & N4 & N5 & N6 & N7).
    apply T; trivial.
Qed.

(** the file with one vertex and its normal *)
Lemma loadOBJ_leaves_a_consistent_mesh_witness :
  returns
    (loadOBJ (one_file "point.obj" point_file) 100 "point.obj" false new_mesh
       empty_context [])
    (fun '(loaded, _, _) =>
       List.length (normals loaded) = List.length (vertices loaded)
       /\ List.length (texCoords loaded) = List.length (vertices loaded)
       /\ colors loaded = []
       /\ boundingBoxMin loaded = boundingBoxMin (calculateBB loaded)
       /\ boundingBoxMax loaded = boundingBoxMax (calculateBB loaded)
       /\ boundingBoxMid loaded = boundingBoxMid (calculateBB loaded)
       /\ boundingBoxSize loaded = boundingBoxSize (calculateBB loaded)).
Proof.
  assert (X : exists r,
             loadOBJ (one_file "point.obj" point_file) 100 "point.obj" false new_mesh
               empty_context [] = Ret r)
    by (vm_compute; eexists; reflexivity).
  destruct X as [ [ [ loaded c' ] diag' ] E ]. rewrite E.
  exact (loadOBJ_leaves_a_consistent_mesh (one_file "point.obj" point_file) 100 "point.obj"
           point_file false new_mesh empty_context [] loaded c' diag' eq_refl E).
Defined.

End Loaded.

(** ** When the loop of loadOBJ ends *)

Section Termination.

Import Mesh.
Import IStream.

Lemma skipws_head (l l' : list ascii) (c : ascii) :
  skipws l = c :: l' -> isspace c = false.
Proof.
  induction l as [ | a l IH ]; cbn [skipws]; [ discriminate | ].
  destruct (isspace a) eqn:E; [ exact IH | ].
  intros H. injection H as <- _. exact E.
Qed.

Lemma length_split_line (l : list ascii) :
  (List.length (snd (fst (split_line l))) <= List.length l)%nat.
Proof.
  induction l as [ | c l IH ]; cbn [split_line]; [ cbn; lia | ].
  destruct (is_char newline c); [ cbn; lia | ].
  destruct (split_line l) as [ [ w r ] found ]. cbn in *. lia.
Qed.

Lemma length_ignore_line (s : istream) :
  (List.length (rest (ignore_line s)) <= List.length (rest s))%nat.
Proof.
  unfold ignore_line. destruct (good s); [ | cbn; lia ].
  pose proof (length_split_line (rest s)) as H.
  destruct (split_line (rest s)) as [ [ w r ] found ]. cbn in *. lia.
Qed.

Lemma length_getline (s : istream) :
  (List.length (rest (snd (getline s))) <= List.length (rest s))%nat.
Proof.
  unfold getline. destruct (good s); [ | cbn; lia ].
  pose proof (length_split_line (rest s)) as H.
  destruct (split_line (rest s)) as [ [ w r ] found ]. cbn in *. lia.
Qed.

Lemma length_take_exponent (l : list ascii) :
  (List.length (snd (take_exponent l)) <= List.length l)%nat.
Proof.
  destruct l as [ | c l ]; cbn [take_exponent]; [ cbn; lia | ].
  destruct (is_char 101 c || is_char 69 c); [ | cbn; lia ].
  pose proof (length_take_sign l) as Hs.
  destruct (take_sign l) as [ neg l1 ]. cbn [snd] in Hs.
  pose proof (length_take_while isdigit l1) as Hw.
  destruct (take_while isdigit l1) as [ ds r ]. cbn [fst snd] in Hw.
  destruct ds; cbn [snd List.length] in *; lia.
Qed.

Lemma length_read_float (s : istream) :
  (List.length (rest (snd (read_float s))) <= List.length (rest s))%nat.
Proof.
  unfold read_float, sentry.
  destruct (good s); [ | cbn; lia ].
  pose proof (length_skipws (rest s)) as Hk.
  destruct (skipws (rest s)) as [ | c l ]; [ cbn; lia | ].
  cbn [rest].
  pose proof (length_take_sign (c :: l)) as Hs.
  destruct (take_sign (c :: l)) as [ neg l1 ]. cbn [snd] in Hs.
  pose proof (length_take_while isdigit l1) as Hw.
  destruct (take_while isdigit l1) as [ ip l2 ]. cbn [fst snd] in Hw.
  assert (H3 : forall fp l3,
             match l2 with
             | c :: l' => if is_char 46 c then take_while isdigit l' else ([], l2)
             | [] => ([], [])
             end = (fp, l3) -> (List.length l3 <= List.length l2)%nat).
  { intros fp l3. destruct l2 as [ | c2 l2' ].
    - intros E. injection E as <- <-. cbn. lia.
    - destruct (is_char 46 c2).
      + pose proof (length_take_while isdigit l2') as Hw'.
        intros E. rewrite E in Hw'. cbn [fst snd List.length] in *. lia.
      + intros E. injection E as <- <-. lia. }
  destruct (match l2 with
            | c :: l' => if is_char 46 c then take_while isdigit l' else ([], l2)
            | [] => ([], [])
            end) as [ fp l3 ] eqn:E3.
  specialize (H3 fp l3 eq_refl).
  pose proof (length_take_exponent l3) as He.
  destruct (ip ++ fp) as [ | dgt ds ].
  - cbn [snd rest]. cbn [List.length] in *. lia.
  - destruct (take_exponent l3) as [ [ e | ] r ]; cbn [snd rest advanced] in *;
      cbn [List.length] in *; lia.
Qed.

Lemma length_read_three (s : istream) :
  (List.length (rest (snd (read_three s))) <= List.length (rest s))%nat.
Proof.
  unfold read_three.
  pose proof (length_read_float s) as H1.
  destruct (read_float s) as [ ox s1 ]. cbn [snd] in H1.
  pose proof (length_read_float s1) as H2.
  destruct (read_float s1) as [ oy s2 ]. cbn [snd] in H2.
  pose proof (length_read_float s2) as H3.
  destruct (read_float s2) as [ oz s3 ]. cbn [snd] in *. lia.
Qed.

(** reading a word from a good stream either runs into the end or consumes
    a character *)
Lemma read_string_progress (s : istream) :
  good s = true ->
  (fst (read_string s) = EmptyString /\ good (snd (read_string s)) = false
   /\ eofbit (snd (read_string s)) = true)
  \/ (List.length (rest (snd (read_string s))) < List.length (rest s))%nat.
Proof.
  intros G. unfold read_string, sentry. rewrite G.
  pose proof (length_skipws (rest s)) as Hk.
  destruct (skipws (rest s)) as [ | c l ] eqn:E.
  - left. cbn. auto.
  - right. cbn [rest].
    pose proof (skipws_head _ _ _ E) as Hc.
    pose proof (length_take_while (fun c => negb (isspace c)) (c :: l)) as Hw.
    cbn [take_while] in *. rewrite Hc in *. cbn [negb] in *.
    destruct (take_while (fun c => negb (isspace c)) l) as [ w r ].
    cbn [fst snd rest advanced List.length] in *. lia.
Qed.

(** a round of the loop on a good stream runs into the end or consumes a
    character *)
Lemma load_step_progress (st st' : loader) :
  good (input st) = true -> load_step st = Ret st' ->
  eofbit (input st') = true
  \/ (List.length (rest (input st')) < List.length (rest (input st)))%nat.
Proof.
  intros G. unfold load_step.
  destruct (read_string_progress (input st) G) as [ (E & B & F) | L ].
  - destruct (read_string (input st)) as [ s in1 ]. cbn [fst snd] in *. subst s.
    cbn [String.eqb]. intros H. injection H as <-. left. cbn [input].
    unfold ignore_line. rewrite B. exact F.
  - destruct (read_string (input st)) as [ s in1 ]. cbn [fst snd] in *.
    destruct (String.eqb s "v").
    + pose proof (length_read_three in1) as H3.
      destruct (read_three in1) as [ [ [ ox oy ] oz ] in2 ]. cbn [snd] in H3.
      destruct ox as [ a | ]; [ | discriminate ].
      destruct oy as [ b | ]; [ | discriminate ].
      destruct oz as [ c0 | ]; [ | discriminate ].
      cbn [initialised bind]. intros H. injection H as <-. right. cbn [input].
      pose proof (length_ignore_line in2). lia.
    + destruct (String.eqb s "vn").
      * pose proof (length_read_three in1) as H3.
        destruct (read_three in1) as [ [ [ ox oy ] oz ] in2 ]. cbn [snd] in H3.
        destruct ox as [ a | ]; [ | discriminate ].
        destruct oy as [ b | ]; [ | discriminate ].
        destruct oz as [ c0 | ]; [ | discriminate ].
        cbn [initialised bind]. intros H. injection H as <-. right. cbn [input].
        pose proof (length_ignore_line in2). lia.
      * destruct (String.eqb s "f").
        -- pose proof (length_getline in1) as Hg.
           destruct (getline in1) as [ line in2 ]. cbn [snd] in Hg.
           destruct (store_face line (mesh st) (diagnostics st)) as [ m' diag' ].
           intros H. injection H as <-. right. cbn [input]. lia.
        -- intros H. injection H as <-. right. cbn [input].
           pose proof (length_ignore_line in1). lia.
Qed.

Lemma load_loop_at_end (fuel : nat) (st : loader) :
  eofbit (input st) = true -> load_loop fuel st = Ret st.
Proof. intros E. destruct fuel; cbn [load_loop]; unfold eof; now rewrite E. Qed.

(** X7: the loop of loadOBJ runs out of fuel only when it does not end.
    With more rounds than the file has characters left, a loop that has not
    ended by then does not end for any number of rounds: every round on a
    good stream consumes a character or reaches the end, and once an
    extraction has failed with characters left, as for a vertex line whose
    third coordinate is no number, [in.eof()] stays false and the stream
    does not move. *)
Theorem load_loop_out_of_fuel_never_ends (fuel : nat) (st : loader) :
  (List.length (rest (input st)) < fuel)%nat ->
  load_loop fuel st = OutOfFuel ->
  forall more, load_loop more st = OutOfFuel.
Proof.
  revert st. induction fuel as [ | fuel IH ]; intros st L; [ lia | ].
  cbn [load_loop].
  destruct (eof (input st)) eqn:E; [ discriminate | ].
  destruct (failbit (input st)) eqn:F.
  - intros _ more. now apply load_loop_failed.
  - assert (G : good (input st) = true)
      by (unfold good; unfold eof in E; now rewrite F, E).
    destruct (load_step st) as [ st1 | | | ] eqn:S; cbn [bind]; try discriminate.
    + intros H.
      assert (D : forall more, load_loop more st1 = OutOfFuel).
      { destruct (load_step_progress st st1 G S) as [ E1 | L1 ].
        - rewrite (load_loop_at_end fuel st1 E1) in H. discriminate.
        - apply IH; [ lia | exact H ]. }
      intros more. destruct more as [ | more ]; cbn [load_loop]; rewrite E.
      * reflexivity.
      * rewrite S. cbn [bind]. apply D.
    + intros _ more. destruct more as [ | more ]; cbn [load_loop]; rewrite E.
      * reflexivity.
      * rewrite S. reflexivity.
Qed.

(** a vertex line whose third coordinate is no number: twenty rounds do not
    end the loop, and so a million rounds do not *)
Lemma load_loop_out_of_fuel_never_ends_witness :
  load_loop 1000000 before_bad_vertex = OutOfFuel.
Proof.
  apply (load_loop_out_of_fuel_never_ends 20 before_bad_vertex).
  - vm_compute. lia.
  - vm_compute. reflexivity.
Defined.

End Termination.

(** ** Flipping and scaling *)

Section RawData.

Import Mesh.
Local Open Scope R_scope.

Lemma flip_twice (a : float) : fmul (Fin (-1)) (fmul (Fin (-1)) a) = a.
Proof.
  destruct a as [ | s | r ]; cbn [fmul].
  - reflexivity.
  - real_cases. cbn [fmul xorb]. real_cases. now destruct s.
  - f_equal. lra.
Qed.

Lemma scale_flip_twice (p : Vec3f) : Vec3.scale (Fin (-1)) (Vec3.scale (Fin (-1)) p) = p.
Proof. destruct p. unfold Vec3.scale. cbn [x y z]. now rewrite !flip_twice. Qed.

Lemma set_normals_again (ns ns' : list Normal) (m : TriangleMesh) :
  set_normals ns' (set_normals ns m) = set_normals ns' m.
Proof. destruct m. reflexivity. Qed.

Lemma set_normals_same (m : TriangleMesh) : set_normals (normals m) m = m.
Proof. destruct m. reflexivity. Qed.

(** X8: flipping the normals twice gives the mesh back, whatever the
    normals hold (NaN and infinities included), and flipNormals leaves the
    objects of the context alone. *)
Theorem flipNormals_twice (b b' : bool) (m : TriangleMesh) (c : GL.context) :
  flipNormals b' (fst (flipNormals b m c)) (snd (flipNormals b m c)) = (m, c).
Proof.
  unfold flipNormals. cbn [fst snd].
  destruct (set_normals_data (map (Vec3.scale (Fin (-1))) (normals m)) m)
    as (_ & -> & _).
  rewrite set_normals_again, map_map.
  replace (map (fun p => Vec3.scale (Fin (-1)) (Vec3.scale (Fin (-1)) p)) (normals m))
    with (normals m).
  - now rewrite set_normals_same.
  - rewrite <- (map_id (normals m)) at 1.
    apply map_ext. intros p. symmetry. apply scale_flip_twice.
Qed.

Lemma cleanupVBO_data (m : TriangleMesh) (c : GL.context) :
  let m' := fst (cleanupVBO m c) in
  vertices m' = vertices m /\ normals m' = normals m /\ triangles m' = triangles m
  /\ colors m' = colors m /\ texCoords m' = texCoords m
  /\ boundingBoxMin m' = boundingBoxMin m /\ boundingBoxMax m' = boundingBoxMax m
  /\ boundingBoxMid m' = boundingBoxMid m /\ boundingBoxSize m' = boundingBoxSize m.
Proof. unfold cleanupVBO. destruct (f m); cbn; repeat split. Qed.

(** the vertices after scaleToLength, and the divisor it uses *)
Lemma vertices_scaleToLength (newLength : float) (createVBOs : bool)
    (m : TriangleMesh) (c : GL.context) :
  vertices (fst (scaleToLength newLength createVBOs m c))
  = map (Vec3.scale
           (fdiv newLength
              (std_max (std_max (x (boundingBoxSize m)) (y (boundingBoxSize m)))
                 (z (boundingBoxSize m)))))
      (vertices m).
Proof.
  unfold scaleToLength.
  set (scale := fdiv newLength _).
  match goal with
  | |- vertices (fst (if _ then let (_, _) := cleanupVBO ?m5 _ in _ else _)) = _ =>
      assert (E : vertices m5 = map (Vec3.scale scale) (vertices m))
        by (destruct m; reflexivity);
      set (m' := m5) in *
  end.
  destruct createVBOs; cbn [fst]; [ | exact E ].
  destruct (cleanupVBO_data m' c) as (E1 & _).
  destruct (cleanupVBO m' c) as [ m1 c1 ]. cbn [fst] in E1.
  destruct (createAllVBOs_data m1 c1) as (E2 & _).
  cbv zeta in *. now rewrite E2, E1.
Qed.

Lemma vertices_translateToCenter (newBBmid : Vec3f) (m : TriangleMesh) (c : GL.context) :
  let m' := fst (translateToCenter newBBmid false m c) in
  List.length (vertices m') = List.length (vertices m)
  /\ boundingBoxSize m' = boundingBoxSize m.
Proof.
  unfold translateToCenter. cbn [fst]. destruct m. cbn. now rewrite length_map.
Qed.

Lemma no_number_scaled (scale a : float) : no_number scale -> no_number (fmul scale a).
Proof.
  destruct scale as [ | s | r ]; [ | | contradiction ]; intros _.
  - exact I.
  - destruct a as [ | t | y ]; cbn [fmul]; try exact I.
    destruct (Reqb y 0); exact I.
Qed.

Lemma divided_by_zero (a b : float) : feq b (Fin 0) = true -> no_number (fdiv a b).
Proof.
  destruct b as [ | t | r ]; cbn [feq]; try discriminate.
  intros H. destruct a as [ | s | y ]; cbn [fdiv]; try exact I.
  rewrite H. destruct (Reqb y 0); exact I.
Qed.

Lemma std_max_zero (a b : float) :
  feq a (Fin 0) = true -> feq b (Fin 0) = true -> feq (std_max a b) (Fin 0) = true.
Proof. intros Ha Hb. unfold std_max. now destruct (flt a b). Qed.

(** X9: scaleToLength on a mesh whose bounding box has no extent, as the box
    of a single vertex, divides by zero: whatever the new length is, no
    coordinate of any vertex is a number afterwards (each is NaN or an
    infinity), and there are as many vertices as before.  loadOBJ with a
    bounding box to fit into ends with scaleToLength, so it returns such a
    mesh whenever the file gives a box without extent. *)
Theorem scaleToLength_of_a_flat_box (m : TriangleMesh) :
  flat_box m ->
  (forall newLength createVBOs c,
     Forall no_coordinate (vertices (fst (scaleToLength newLength createVBOs m c)))
     /\ List.length (vertices (fst (scaleToLength newLength createVBOs m c)))
        = List.length (vertices m))
  /\ (forall fs fuel filename BBmid BBlength m0 c0 diag c diag',
        loadOBJ fs fuel filename false m0 c0 diag = Ret (m, c, diag') ->
        returns (loadOBJ_BB fs fuel filename BBmid BBlength m0 c0 diag)
          (fun '(scaled, _, _) =>
             Forall no_coordinate (vertices scaled)
             /\ List.length (vertices scaled) = List.length (vertices m))).
Proof.
  assert (S : forall m newLength createVBOs c,
             flat_box m ->
             Forall no_coordinate (vertices (fst (scaleToLength newLength createVBOs m c)))
             /\ List.length (vertices (fst (scaleToLength newLength createVBOs m c)))
                = List.length (vertices m)).
  { intros m1 newLength createVBOs c (Hx & Hy & Hz).
    rewrite vertices_scaleToLength, length_map. split; [ | reflexivity ].
    pose proof (divided_by_zero newLength _
                  (std_max_zero _ _ (std_max_zero _ _ Hx Hy) Hz)) as N.
    apply Forall_forall. intros p I. apply in_map_iff in I. destruct I as (q & <- & _).
    unfold no_coordinate, Vec3.scale. cbn [x y z].
    repeat split; apply no_number_scaled, N. }
  intros F. split.
  - intros newLength createVBOs c. apply S, F.
  - intros fs fuel filename BBmid BBlength m0 c0 diag c diag' E.
    unfold loadOBJ_BB. rewrite E. cbn [bind].
    destruct (vertices_translateToCenter BBmid m c) as (L & Z).
    destruct (translateToCenter BBmid false m c) as [ m1 c1 ]. cbn [fst] in *.
    assert (F1 : flat_box m1) by (unfold flat_box; rewrite Z; exact F).
    destruct (S m1 BBlength true c1 F1) as (A & B).
    destruct (scaleToLength BBlength true m1 c1) as [ m2 c2 ]. cbn [fst returns] in *.
    split; [ exact A | congruence ].
Qed.

(** a mesh with the single vertex (1, 2, 3), to be scaled to the length 2 *)
Lemma scaleToLength_of_a_flat_box_witness :
  Forall no_coordinate
    (vertices (fst (scaleToLength (Fin 2) false
                      (set_vertices [mkVec3f (Fin 1) (Fin 2) (Fin 3)] new_mesh)
                      empty_context)))
  /\ List.length
       (vertices (fst (scaleToLength (Fin 2) false
                         (set_vertices [mkVec3f (Fin 1) (Fin 2) (Fin 3)] new_mesh)
                         empty_context)))
     = List.length (vertices (set_vertices [mkVec3f (Fin 1) (Fin 2) (Fin 3)] new_mesh)).
Proof.
  apply (proj1 (scaleToLength_of_a_flat_box
                  (set_vertices [mkVec3f (Fin 1) (Fin 2) (Fin 3)] new_mesh)
                  ltac:(unfold flat_box; cbn; real_cases; auto))).
Defined.

End RawData.
